(** * ImageNodeParserWorkflow: a shallow embedding of the staged pipeline

    The development follows [src/image_node_parser_workflow.py]: the four
    workflow steps [load_image], [create_bboxes], [parse_image] and
    [describe_image], the helpers [_detect_bboxes_with_owlv2],
    [_parse_image_node_with_sam2], [_ref_doc_id] and [image_to_base64], and
    the driver that chains the steps.

    Conventions of the embedding.
    - Python objects that the code mutates and shares (the segmentation
      configuration dict, the root image node) live in a store and are
      passed around by reference; values that are only built and read
      (chunk nodes, description nodes, regions) are plain values.
    - A step is a computation in the monad [M]: it threads the [World]
      (store, call logs, emitted events) and either returns or raises.
      A raised exception keeps the writes made before it, as in Python.
    - Event classes and nodes are records that hold what their constructor
      is given, after the validation the library applies to a declared
      field; a declared field that is not passed reads as [None].
    - The vision models, PIL and the multimodal LLM are external
      collaborators: they are taken as parameters ([Providers], [Workflow]),
      each free to return or to raise. *)

From stdpp Require Import gmap strings list pretty.
From Stdlib Require Import QArith Ascii.
From Stdlib.Strings Require Import Byte.
Close Scope Q_scope.

#[local] Set Warnings "-register-all".

(** ** Python and library data *)

Abbreviation ref := nat.

Inductive Exn :=
| TypeError (msg : string)
| KeyError (key : string)
| AttributeError (attr : string)
| ValueError (msg : string)
| RuntimeError (msg : string)
| DanglingReference.

Inductive Outcome (A : Type) :=
| Raise (e : Exn)
| Return (a : A).
Arguments Raise {A} e.
Arguments Return {A} a.

Inductive Label :=
| LabelText (s : string)
| LabelIndex (i : nat).

(** [class ImageRegion] (lines 23-30). *)
Record ImageRegion := {
  x1 : Q; y1 : Q; x2 : Q; y2 : Q;
  label : Label;
  score : Q
}.

Definition Box : Type := Q * Q * Q * Q.

Definition box_of (bbox : ImageRegion) : Box := (x1 bbox, y1 bbox, x2 bbox, y2 bbox).

(** Values found in a configuration dict. *)
Inductive Value :=
| VNone
| VStr (s : string)
| VNum (q : Q)
| VBool (b : bool)
| VRegions (rs : list ImageRegion)
| VDict (d : gmap string Value).

Inductive NodeRelationship := SOURCE | PREVIOUS | NEXT | PARENT | CHILD.

#[global] Instance NodeRelationship_eq_dec : EqDecision NodeRelationship.
Proof. solve_decision. Defined.

Definition NodeRelationship_code (r : NodeRelationship) : nat :=
  match r with SOURCE => 0 | PREVIOUS => 1 | NEXT => 2 | PARENT => 3 | CHILD => 4 end.

Definition NodeRelationship_of_code (n : nat) : option NodeRelationship :=
  match n with
  | 0 => Some SOURCE | 1 => Some PREVIOUS | 2 => Some NEXT
  | 3 => Some PARENT | 4 => Some CHILD | _ => None
  end.

#[global] Instance NodeRelationship_countable : Countable NodeRelationship.
Proof.
  apply (inj_countable NodeRelationship_code NodeRelationship_of_code).
  intros []; reflexivity.
Defined.

Inductive MetaValue :=
| MetaText (s : string)
| MetaRegion (box : Box).

Record RelatedNodeInfo := {
  related_node_id : string;
  related_metadata : gmap string MetaValue
}.

Inductive RelatedNodeType :=
| One (info : RelatedNodeInfo)
| Many (infos : list RelatedNodeInfo).

(** [ImageNode] and [ImageDocument] of llama_index: identity, base64 payload,
    mimetypes, metadata and the relationship dict. *)
Record ImageNode := {
  node_id : string;
  image : option string;
  mimetype : option string;
  image_mimetype : option string;
  metadata : gmap string MetaValue;
  relationships : gmap NodeRelationship RelatedNodeType
}.

Record TextNode := {
  text_node_id : string;
  text : string;
  text_mimetype : option string;
  text_relationships : gmap NodeRelationship RelatedNodeType
}.

Definition as_related_node_info (n : ImageNode) : RelatedNodeInfo :=
  {| related_node_id := node_id n; related_metadata := metadata n |}.

(** [BaseNode.source_node]: the SOURCE relationship when there is one; a list
    in that slot is refused. *)
Definition source_node (n : ImageNode) : Outcome (option RelatedNodeInfo) :=
  match relationships n !! SOURCE with
  | None => Return None
  | Some (One info) => Return (Some info)
  | Some (Many _) => Raise (ValueError "Source object must be a single RelatedNodeInfo object")
  end.

(** [_ref_doc_id] (lines 358-371). *)
Definition _ref_doc_id (node : ImageNode) : Outcome RelatedNodeInfo :=
  match source_node node with
  | Raise e => Raise e
  | Return None => Return (as_related_node_info node)
  | Return (Some source) => Return source
  end.

(** The segmentation configuration an event carries: a dict object, by
    reference. [ConfDict r] is a dict the caller made, in the store [dicts];
    [ConfValidated r] is a dict that the validation of an event field made
    (see [dict_field]): a new object that only the event holds, in the
    store [validated]. *)
Inductive SegConf :=
| ConfDict (r : ref)
| ConfValidated (r : ref).

(** A dict display [{k1: v1, k2: v2, ...}], as its items in the order they
    are written. *)
Definition DictDisplay : Type := list (string * Value).

(** What a caller may put in the [image] field of the start event. *)
Inductive PyObject :=
| ObjImageNode (r : ref)
| ObjOther.

(** ** Events (lines 32-55) *)

Module StartEvent.
Record t := {
  segmentation_configuration : option SegConf;
  object_detection_configuration : option (gmap string Value);
  image : option PyObject;
  base64_image : option string;
  mimetype : option (option string);
  image_path : option string
}.
End StartEvent.

Module ImageLoadedEvent.
Record t := {
  image : ref;
  segmentation_configuration : SegConf;
  object_detection_configuration : option (gmap string Value)
}.
End ImageLoadedEvent.

Module BBoxCreatedEvent.
Record t := {
  image : ref;
  segmentation_configuration : SegConf;
  object_detection_configuration : option (gmap string Value)
}.
End BBoxCreatedEvent.

Module ImageParsedEvent.
Record t := {
  source : ref;
  chunks : list ImageNode
}.
End ImageParsedEvent.

(** The result dict of a run: keys [source], [chunks] and, when stage 4 ran,
    [descriptions]. *)
Module Result.
Record t := {
  source : ref;
  chunks : list ImageNode;
  descriptions : option (list (option TextNode))
}.
End Result.

(** [reason] is the keyword line 156 passes; see [StopEvent_with_reason]
    for what the constructor makes of it. *)
Module StopEvent.
Record t := {
  result : option Result.t;
  reason : option string
}.
End StopEvent.

(** What [send_event] is called with inside stage 3. *)
Inductive SentEvent :=
| ImageChunkGenerated (image_node : ImageNode)
| WorkflowRuntimeError (e : Exn).

(** ** The world a run threads *)

Record World := {
  dicts : gmap ref (gmap string Value);
  validated : gmap ref (gmap string Value);
  nodes : gmap ref ImageNode;
  next_id : nat;
  llm_calls : list (string * list ImageNode);
  sent_events : list SentEvent;
  logged_errors : list (string * Exn);
  owl_processor_loaded : bool;
  owl_model_loaded : bool
}.

Definition with_dicts (f : gmap ref (gmap string Value) → gmap ref (gmap string Value)) (w : World) : World :=
  {| dicts := f (dicts w); validated := validated w; nodes := nodes w; next_id := next_id w;
     llm_calls := llm_calls w; sent_events := sent_events w;
     logged_errors := logged_errors w;
     owl_processor_loaded := owl_processor_loaded w; owl_model_loaded := owl_model_loaded w |}.

Definition with_validated (f : gmap ref (gmap string Value) → gmap ref (gmap string Value)) (w : World) : World :=
  {| dicts := dicts w; validated := f (validated w); nodes := nodes w; next_id := next_id w;
     llm_calls := llm_calls w; sent_events := sent_events w;
     logged_errors := logged_errors w;
     owl_processor_loaded := owl_processor_loaded w; owl_model_loaded := owl_model_loaded w |}.

Definition with_nodes (f : gmap ref ImageNode → gmap ref ImageNode) (w : World) : World :=
  {| dicts := dicts w; validated := validated w; nodes := f (nodes w); next_id := next_id w;
     llm_calls := llm_calls w; sent_events := sent_events w;
     logged_errors := logged_errors w;
     owl_processor_loaded := owl_processor_loaded w; owl_model_loaded := owl_model_loaded w |}.

Definition with_next_id (n : nat) (w : World) : World :=
  {| dicts := dicts w; validated := validated w; nodes := nodes w; next_id := n;
     llm_calls := llm_calls w; sent_events := sent_events w;
     logged_errors := logged_errors w;
     owl_processor_loaded := owl_processor_loaded w; owl_model_loaded := owl_model_loaded w |}.

Definition with_llm_calls (l : list (string * list ImageNode)) (w : World) : World :=
  {| dicts := dicts w; validated := validated w; nodes := nodes w; next_id := next_id w;
     llm_calls := l; sent_events := sent_events w;
     logged_errors := logged_errors w;
     owl_processor_loaded := owl_processor_loaded w; owl_model_loaded := owl_model_loaded w |}.

Definition with_sent_events (l : list SentEvent) (w : World) : World :=
  {| dicts := dicts w; validated := validated w; nodes := nodes w; next_id := next_id w;
     llm_calls := llm_calls w; sent_events := l;
     logged_errors := logged_errors w;
     owl_processor_loaded := owl_processor_loaded w; owl_model_loaded := owl_model_loaded w |}.

Definition with_logged_errors (l : list (string * Exn)) (w : World) : World :=
  {| dicts := dicts w; validated := validated w; nodes := nodes w; next_id := next_id w;
     llm_calls := llm_calls w; sent_events := sent_events w;
     logged_errors := l;
     owl_processor_loaded := owl_processor_loaded w; owl_model_loaded := owl_model_loaded w |}.

Definition with_owl_processor_loaded (b : bool) (w : World) : World :=
  {| dicts := dicts w; validated := validated w; nodes := nodes w; next_id := next_id w;
     llm_calls := llm_calls w; sent_events := sent_events w;
     logged_errors := logged_errors w;
     owl_processor_loaded := b; owl_model_loaded := owl_model_loaded w |}.

Definition with_owl_model_loaded (b : bool) (w : World) : World :=
  {| dicts := dicts w; validated := validated w; nodes := nodes w; next_id := next_id w;
     llm_calls := llm_calls w; sent_events := sent_events w;
     logged_errors := logged_errors w;
     owl_processor_loaded := owl_processor_loaded w; owl_model_loaded := b |}.

(** ** The monad of steps: state and exceptions *)

Definition M (A : Type) : Type := World → Outcome A * World.

Definition ret {A} (a : A) : M A := λ w, (Return a, w).

Definition raise {A} (e : Exn) : M A := λ w, (Raise e, w).

Definition bind {A B} (m : M A) (k : A → M B) : M B :=
  λ w, match m w with
       | (Return a, w') => k a w'
       | (Raise e, w') => (Raise e, w')
       end.

(** [try: body except Exception as e: handler e]. *)
Definition try_except {A} (body : M A) (handler : Exn → M A) : M A :=
  λ w, match body w with
       | (Return a, w') => (Return a, w')
       | (Raise e, w') => handler e w'
       end.

(** An external call: its outcome, with no write to the world. *)
Definition call {A} (o : Outcome A) : M A := λ w, (o, w).

Declare Scope py_scope.
Delimit Scope py_scope with py.
Notation "'do' x <- m ; k" := (bind m (λ x, k))
  (at level 10, x name, m at level 100, k at level 200) : py_scope.
Notation "'do_' m ; k" := (bind m (λ _, k))
  (at level 10, m at level 100, k at level 200) : py_scope.
Open Scope py_scope.

(** ** Store and log primitives *)

Definition deref_dict (r : ref) : M (gmap string Value) :=
  λ w, match dicts w !! r with
       | Some d => (Return d, w)
       | None => (Raise DanglingReference, w)
       end.

Definition deref_validated (r : ref) : M (gmap string Value) :=
  λ w, match validated w !! r with
       | Some d => (Return d, w)
       | None => (Raise DanglingReference, w)
       end.

(** A new dict made by validation: stored under a reference no live one has. *)
Definition alloc_validated (d : gmap string Value) : M ref :=
  λ w, let r := fresh (dom (validated w)) in
       (Return r, with_validated (λ h, <[r := d]> h) w).

Definition deref_node (r : ref) : M ImageNode :=
  λ w, match nodes w !! r with
       | Some n => (Return n, w)
       | None => (Raise DanglingReference, w)
       end.

Definition store_node (r : ref) (n : ImageNode) : M unit :=
  λ w, (Return tt, with_nodes (λ h, <[r := n]> h) w).

(** A new object: stored under a reference no live node has. *)
Definition alloc_node (n : ImageNode) : M ref :=
  λ w, let r := fresh (dom (nodes w)) in
       (Return r, with_nodes (λ h, <[r := n]> h) w).

(** Node identifiers (uuid4 in the library) are drawn from a counter. *)
Definition fresh_node_id : M string :=
  λ w, (Return ("node-" +:+ pretty (next_id w)), with_next_id (S (next_id w)) w).

(** [self.send_event(ev)]. *)
Definition send_event (ev : SentEvent) : M unit :=
  λ w, (Return tt, with_sent_events (sent_events w ++ [ev]) w).

(** [logging.error(msg, exc_info=True)] inside a handler of [e]. *)
Definition logging_error (msg : string) (e : Exn) : M unit :=
  λ w, (Return tt, with_logged_errors (logged_errors w ++ [(msg, e)]) w).

(** *** Operations on the segmentation configuration *)

(** [key in conf]. *)
Definition conf_contains (conf : SegConf) (key : string) : M bool :=
  match conf with
  | ConfDict r => do d <- deref_dict r; ret (bool_decide (is_Some (d !! key)))
  | ConfValidated r => do d <- deref_validated r; ret (bool_decide (is_Some (d !! key)))
  end.

(** [conf[key]]. *)
Definition conf_getitem (conf : SegConf) (key : string) : M Value :=
  match conf with
  | ConfDict r =>
      do d <- deref_dict r;
      match d !! key with
      | Some v => ret v
      | None => raise (KeyError key)
      end
  | ConfValidated r =>
      do d <- deref_validated r;
      match d !! key with
      | Some v => ret v
      | None => raise (KeyError key)
      end
  end.

(** [conf[key] = v]. *)
Definition conf_setitem (conf : SegConf) (key : string) (v : Value) : M unit :=
  match conf with
  | ConfDict r =>
      do d <- deref_dict r;
      λ w, (Return tt, with_dicts (λ h, <[r := <[key := v]> d]> h) w)
  | ConfValidated r =>
      do d <- deref_validated r;
      λ w, (Return tt, with_validated (λ h, <[r := <[key := v]> d]> h) w)
  end.

(** [conf.get(key, dflt)]. *)
Definition conf_get (conf : SegConf) (key : string) (dflt : Value) : M Value :=
  match conf with
  | ConfDict r => do d <- deref_dict r; ret (default dflt (d !! key))
  | ConfValidated r => do d <- deref_validated r; ret (default dflt (d !! key))
  end.

(** Iterating [conf["bbox_list"]] and reading [x1 .. y2] of each element
    needs a list of regions. A value of another type is refused, the empty
    str and the empty dict too, although iterating those does nothing:
    [bbox_list] is read as a region list or as no region list at all. *)
Definition as_regions (v : Value) : M (list ImageRegion) :=
  match v with
  | VRegions rs => ret rs
  | VNone => raise (TypeError "'NoneType' object is not iterable")
  | VNum _ | VBool _ => raise (TypeError "object is not iterable")
  | VStr _ | VDict _ => raise (AttributeError "x1")
  end.

(** ** Strings and bytes of the standard library

    A [str] is the string of its code points; a character of the model
    stands for a code point below 256. *)

(** [s.split(sep)] for a one-character separator. *)
Fixpoint split_on (sep : ascii) (s : string) : list string :=
  match s with
  | EmptyString => [EmptyString]
  | String c rest =>
      if Ascii.eqb c sep then EmptyString :: split_on sep rest
      else match split_on sep rest with
           | [] => [String c EmptyString]
           | word :: words => String c word :: words
           end
  end.

(** White space as [str.strip()] and [str.isspace()] see it: the ASCII
    controls 9-13 and 28-31, the space, NEL (133) and the no-break space
    (160). *)
Definition is_space (c : ascii) : bool :=
  let n := nat_of_ascii c in
  bool_decide (n = 32 ∨ (9 ≤ n ∧ n ≤ 13) ∨ (28 ≤ n ∧ n ≤ 31) ∨ n = 133 ∨ n = 160).

Fixpoint lstrip (s : list ascii) : list ascii :=
  match s with
  | c :: rest => if is_space c then lstrip rest else s
  | [] => []
  end.

(** [s.strip()]. *)
Definition strip (s : string) : string :=
  String.string_of_list_ascii (rev (lstrip (rev (lstrip (String.list_ascii_of_string s))))).

Definition b64_alphabet : list ascii :=
  String.list_ascii_of_string "ABCDEFGHIJKLMNOPQRSTUVWXYZabcdefghijklmnopqrstuvwxyz0123456789+/".

Definition b64_digit (n : N) : ascii :=
  default "="%char (b64_alphabet !! N.to_nat n).

(** [base64.b64encode(bs).decode('utf-8')]. *)
Fixpoint b64encode (bs : list byte) : string :=
  match bs with
  | [] => EmptyString
  | [a] =>
      let n := Byte.to_N a in
      String (b64_digit (n / 4)) (String (b64_digit ((n mod 4) * 16)) "==")
  | [a; b] =>
      let n := Byte.to_N a in
      let m := Byte.to_N b in
      String (b64_digit (n / 4))
        (String (b64_digit ((n mod 4) * 16 + m / 16))
           (String (b64_digit ((m mod 16) * 4)) "="))
  | a :: b :: c :: rest =>
      let n := Byte.to_N a in
      let m := Byte.to_N b in
      let k := Byte.to_N c in
      String (b64_digit (n / 4))
        (String (b64_digit ((n mod 4) * 16 + m / 16))
           (String (b64_digit ((m mod 16) * 4 + k / 64))
              (String (b64_digit (k mod 64)) (b64encode rest))))
  end%N.

(** ** External collaborators *)

(** One detection of the OWLv2 post-processing: box, score, label index. *)
Record Detection := {
  det_box : Box;
  det_score : Q;
  det_label : nat
}.

(** PIL, SAM2 and OWLv2 as the workflow uses them. Every call may raise. *)
Record Providers := {
  PILImage : Type;
  Annotation : Type;
  Predictor : Type;
  (* [Image.open(node.resolve_image()).convert("RGB")] *)
  open_node_image : ImageNode → Outcome PILImage;
  (* [Image.open(path).convert("RGB")] *)
  open_path : string → Outcome PILImage;
  (* [pil_image.save(buffered, format=format); buffered.getvalue()] *)
  pil_save : PILImage → string → Outcome (list byte);
  (* [Image.fromarray(ann[0][-1].astype(np.uint8))] *)
  mask_fromarray : Annotation → Outcome PILImage;
  (* [Image.composite(img, Image.new("RGB", img.size), mask)] *)
  composite_on_blank : PILImage → PILImage → Outcome PILImage;
  (* [masked_image.crop(box)] *)
  pil_crop : PILImage → Box → Outcome PILImage;
  (* [SAM2ImagePredictor.from_pretrained(name, device="cpu", **settings)] *)
  sam_from_pretrained : Value → gmap string Value → Outcome Predictor;
  (* [predictor.set_image(img)] *)
  sam_set_image : Predictor → PILImage → Outcome unit;
  (* [predictor.predict(box=box)] after [set_image(img)] *)
  sam_predict : Predictor → PILImage → Box → Outcome Annotation;
  (* [Owlv2ProcessorWithNMS.from_pretrained(...)], [Owlv2ForObjectDetection.from_pretrained(...)] *)
  owl_processor_from_pretrained : Outcome unit;
  owl_model_from_pretrained : Outcome unit;
  (* processor, forward pass and [post_process_object_detection_with_nms] *)
  owl_detect : PILImage → list string → Value → Value → Outcome (list Detection);
  (* [round(x, 2)] *)
  round2 : Q → Q
}.

(** The attributes of the workflow instance: the optional multimodal LLM,
    whose [complete(prompt, image_documents)] returns the text or raises. *)
Record Workflow := {
  multi_modal_llm : option (string → list ImageNode → Outcome string)
}.

(** ** Class constants (lines 58-78) *)

Definition newline : ascii := "010"%char.

(** The dict of lines 58-74, as a dict and as the display that is written. *)
Definition default_predictor_dict : gmap string Value :=
  {[ "model_name" := VStr "facebook/sam2-hiera-small"; "sam_settings" := VDict ∅ ]}.

Definition default_predictor_display : DictDisplay :=
  [ ("model_name", VStr "facebook/sam2-hiera-small"); ("sam_settings", VDict ∅) ].

(** The trailing comma after the display makes the class attribute a
    one-element tuple holding the dict. *)
Definition _default_predictor_configuration : list DictDisplay :=
  [ default_predictor_display ].

Definition _object_detection_configuration : gmap string Value :=
  {[ "confidence" := VNum (1 # 10)%Q; "nms_threshold" := VNum (3 # 10)%Q ]}.

Definition elicitation_prompt : string :=
  "Find the most important entities in the image and produce a list of short prompts to use for an object detection model. Put each single prompt on a new line. Emit only the prompts.".

Definition description_prompt : string := "Describe the image above in a few words.".

Definition bbox_failure_reason : string := "Bounding box creation failed due to an error.".

(** *** What the library makes of the values an event is built from *)

(** The keys of the dict a display builds, in insertion order: a key written
    twice keeps its first place. *)
Fixpoint display_keys (items : DictDisplay) : list string :=
  match items with
  | [] => []
  | (k, _) :: rest => k :: filter (λ k', k' ≠ k) (display_keys rest)
  end.

(** [dict(t)] for a tuple [t] of dicts. Every element is read as a
    (key, value) pair: iterating a dict gives its keys, so an element must
    have exactly two keys, and the first becomes a key whose value is the
    second. An element of another length is refused ([ValueError]). *)
Definition dict_of_tuple (t : list DictDisplay) : option (gmap string Value) :=
  foldl (λ acc display,
           match acc, display_keys display with
           | Some d, [k; v] => Some (<[k := VStr v]> d)
           | _, _ => None
           end) (Some ∅) t.

(** A field declared [dict | None], when the event is built: a dict is kept
    as the object it is; a tuple goes through [dict(...)], which gives a
    new dict, held by the event only, or is refused with a validation
    error. A start event that names a dict of [validated] holds a reference
    no caller can have. *)
Definition dict_field (value : SegConf + list DictDisplay) : M SegConf :=
  match value with
  | inl (ConfDict r) => ret (ConfDict r)
  | inl (ConfValidated r) => raise DanglingReference
  | inr t =>
      match dict_of_tuple t with
      | Some d => do r <- alloc_validated d; ret (ConfValidated r)
      | None => raise (ValueError "value is not a valid dict")
      end
  end.

(** [StopEvent(reason=...)]: the constructor is [__init__(self, result=None)],
    so the keyword [reason] is refused. *)
Definition StopEvent_with_reason (reason : string) : M StopEvent.t :=
  raise (TypeError "StopEvent.__init__() got an unexpected keyword argument 'reason'").

Definition set_relationship (k : NodeRelationship) (v : RelatedNodeType) (n : ImageNode) : ImageNode :=
  {| node_id := node_id n; image := image n; mimetype := mimetype n;
     image_mimetype := image_mimetype n; metadata := metadata n;
     relationships := <[k := v]> (relationships n) |}.

Definition region_of_detection (round : Q → Q) (d : Detection) : ImageRegion :=
  let '(a, b, c, e) := det_box d in
  {| x1 := round a; y1 := round b; x2 := round c; y2 := round e;
     label := LabelIndex (det_label d); score := det_score d |}.

(** ** The workflow *)

Section ImageNodeParserWorkflow.
Context (P : Providers) (self : Workflow).

(** [self.multi_modal_llm.complete(prompt, docs)]; the call is logged. *)
Definition llm_complete (prompt : string) (docs : list ImageNode) : M string :=
  match multi_modal_llm self with
  | None => raise (AttributeError "complete")
  | Some complete =>
      λ w, (complete prompt docs, with_llm_calls (llm_calls w ++ [(prompt, docs)]) w)
  end.

(** [image_to_base64] (lines 373-387). *)
Definition image_to_base64 (pil_image : PILImage P) (format : string) : M string :=
  do buffered <- call (pil_save P pil_image format);
  ret (b64encode buffered).

(** [ImageNode(...)] and [ImageDocument(...)]: a new node, no relationship. *)
Definition new_image_node (img mt imt : option string) (md : gmap string MetaValue) : M ImageNode :=
  do id <- fresh_node_id;
  ret {| node_id := id; image := img; mimetype := mt; image_mimetype := imt;
         metadata := md; relationships := ∅ |}.

(** [get_or_create_owl_v2_processor] and [get_or_create_owl_v2] (lines 85-93). *)
Definition get_or_create_owl_v2_processor : M unit :=
  λ w, if owl_processor_loaded w then (Return tt, w)
       else match owl_processor_from_pretrained P with
            | Raise e => (Raise e, w)
            | Return _ => (Return tt, with_owl_processor_loaded true w)
            end.

Definition get_or_create_owl_v2 : M unit :=
  λ w, if owl_model_loaded w then (Return tt, w)
       else match owl_model_from_pretrained P with
            | Raise e => (Raise e, w)
            | Return _ => (Return tt, with_owl_model_loaded true w)
            end.

(** *** Stage 1: [load_image] (lines 95-124) *)

(** [ImageDocument(image=..., mimetype=mt, image_mimetype=mt)] with the
    caller's [mimetype]: the field is a [str], and [None] is refused. *)
Definition new_image_document (payload : string) (mt : option string) : M ImageNode :=
  match mt with
  | Some _ => new_image_node (Some payload) mt mt ∅
  | None => raise (ValueError "none is not an allowed value")
  end.

Definition load_image (start_event : StartEvent.t) : M (ImageLoadedEvent.t + StopEvent.t) :=
  let sam_configuration : SegConf + list DictDisplay :=
    match StartEvent.segmentation_configuration start_event with
    | Some c => inl c
    | None => inr _default_predictor_configuration
    end in
  let object_detection_configuration := _object_detection_configuration in
  match StartEvent.image start_event with
  | Some (ObjImageNode r) =>
      do conf <- dict_field sam_configuration;
      ret (inl {| ImageLoadedEvent.image := r;
                  ImageLoadedEvent.segmentation_configuration := conf;
                  ImageLoadedEvent.object_detection_configuration := None |})
  | _ =>
      match StartEvent.base64_image start_event with
      | Some payload =>
          match StartEvent.mimetype start_event with
          | None => raise (AttributeError "mimetype")
          | Some mt =>
              do document <- new_image_document payload mt;
              do r <- alloc_node document;
              do conf <- dict_field sam_configuration;
              ret (inl {| ImageLoadedEvent.image := r;
                          ImageLoadedEvent.segmentation_configuration := conf;
                          ImageLoadedEvent.object_detection_configuration := None |})
          end
      | None =>
          match StartEvent.image_path start_event with
          | Some path =>
              do img <- call (open_path P path);
              do payload <- image_to_base64 img "JPEG";
              do document <- new_image_node (Some payload) (Some "image/jpg") (Some "image/jpg") ∅;
              do r <- alloc_node document;
              do conf <- dict_field sam_configuration;
              ret (inl {| ImageLoadedEvent.image := r;
                          ImageLoadedEvent.segmentation_configuration := conf;
                          ImageLoadedEvent.object_detection_configuration :=
                            Some object_detection_configuration |})
          | None => ret (inr {| StopEvent.result := None; StopEvent.reason := None |})
          end
      end
  end.

(** *** [_detect_bboxes_with_owlv2] (lines 241-297)

    The processor call, the forward pass and the post-processing with NMS
    are one external call, [owl_detect]; the [print] of each detection to
    standard output is left out. *)

Definition _detect_bboxes_with_owlv2 (image_node : ref) (prompt confidence nms_threshold : Value)
  : M (list ImageRegion) :=
  do node <- deref_node image_node;
  do img <- call (open_node_image P node);
  do_ get_or_create_owl_v2_processor;
  do_ get_or_create_owl_v2;
  do prompt_text <- match prompt with
                    | VStr s => ret s
                    | _ => raise (AttributeError "split")
                    end;
  let texts := map strip (split_on newline prompt_text) in
  do results <- call (owl_detect P img texts confidence nms_threshold);
  ret (map (region_of_detection (round2 P)) results).

(** *** Stage 2: [create_bboxes] (lines 126-159) *)

(** The body of the [try]: what it leaves in the local [bbox_list], if it
    assigns it at all. *)
Definition create_bboxes_try (ev : ImageLoadedEvent.t) : M (option (list ImageRegion)) :=
  let conf := ImageLoadedEvent.segmentation_configuration ev in
  do has_bbox_list <- conf_contains conf "bbox_list";
  if has_bbox_list then ret None
  else
    do has_prompt <- conf_contains conf "prompt";
    do_ (if has_prompt then ret tt
         else
           do root <- deref_node (ImageLoadedEvent.image ev);
           do prompt <- llm_complete elicitation_prompt [root];
           conf_setitem conf "prompt" (VStr prompt));
    do prompt <- conf_getitem conf "prompt";
    do odc <- match ImageLoadedEvent.object_detection_configuration ev with
              | Some d => ret d
              | None => raise (AttributeError "get")
              end;
    let confidence := default (VNum (1 # 10)%Q) (odc !! "confidence") in
    let nms_threshold := default (VNum (3 # 10)%Q) (odc !! "nms_threshold") in
    do bbox_list <- _detect_bboxes_with_owlv2 (ImageLoadedEvent.image ev) prompt confidence nms_threshold;
    ret (Some bbox_list).

(** The handler logs, builds the stop event and returns it from the step;
    otherwise the step goes on to line 159. *)
Definition create_bboxes (ev : ImageLoadedEvent.t) : M (BBoxCreatedEvent.t + StopEvent.t) :=
  do stopped <-
    try_except
      (do _bbox_list <- create_bboxes_try ev; ret None)
      (λ e,
        do_ logging_error "Failed to create bounding boxes" e;
        do stop <- StopEvent_with_reason bbox_failure_reason;
        ret (Some stop));
  match stopped with
  | Some stop => ret (inr stop)
  | None =>
      ret (inl {| BBoxCreatedEvent.image := ImageLoadedEvent.image ev;
                  BBoxCreatedEvent.segmentation_configuration :=
                    ImageLoadedEvent.segmentation_configuration ev;
                  BBoxCreatedEvent.object_detection_configuration := None |})
  end.

(** *** [_parse_image_node_with_sam2] (lines 300-356) *)

(** First loop (lines 318-320): one prediction per region, in list order. *)
Fixpoint predict_boxes (predictor : Predictor P) (img : PILImage P) (bboxes : list ImageRegion)
  : M (list (Annotation P)) :=
  match bboxes with
  | [] => ret []
  | bbox :: rest =>
      do ann <- call (sam_predict P predictor img (box_of bbox));
      do anns <- predict_boxes predictor img rest;
      ret (ann :: anns)
  end.

(** Mask, composite and crop of one region (lines 325-328): outside the [try]. *)
Definition masked_crop (img : PILImage P) (ann : Annotation P) (bbox : ImageRegion)
  : Outcome (PILImage P) :=
  match mask_fromarray P ann with
  | Raise e => Raise e
  | Return mask =>
      match composite_on_blank P img mask with
      | Raise e => Raise e
      | Return masked_image => pil_crop P masked_image (box_of bbox)
      end
  end.

(** The body of the [try] (lines 344-348): encode the crop and build the chunk. *)
Definition build_chunk (image_node : ImageNode) (cropped_image : PILImage P) (bbox : ImageRegion)
  : M ImageNode :=
  let metadata : gmap string MetaValue := {[ "region" := MetaRegion (box_of bbox) ]} in
  do payload <- image_to_base64 cropped_image "JPEG";
  do fresh_chunk <- new_image_node (Some payload) (mimetype image_node) None metadata;
  do source <- call (_ref_doc_id image_node);
  let image_chunk :=
    set_relationship PARENT (One (as_related_node_info image_node))
      (set_relationship SOURCE (One source) fresh_chunk) in
  do_ send_event (ImageChunkGenerated image_chunk);
  ret image_chunk.

(** One iteration of the second loop (lines 324-351): the chunk appended to
    [image_chunks], or nothing when the [except] branch ran. *)
Definition crop_chunk (image_node : ImageNode) (img : PILImage P)
    (ann : Annotation P) (bbox : ImageRegion) : M (option ImageNode) :=
  do cropped_image <- call (masked_crop img ann bbox);
  try_except
    (do image_chunk <- build_chunk image_node cropped_image bbox; ret (Some image_chunk))
    (λ e, do_ send_event (WorkflowRuntimeError e); ret None).

Fixpoint crop_chunks (image_node : ImageNode) (img : PILImage P)
    (pairs : list (Annotation P * ImageRegion)) : M (list ImageNode) :=
  match pairs with
  | [] => ret []
  | (ann, bbox) :: rest =>
      do produced <- crop_chunk image_node img ann bbox;
      do image_chunks <- crop_chunks image_node img rest;
      ret (option_list produced ++ image_chunks)
  end.

(** Lines 353-354: the CHILD collection of the root, extended in place. *)
Definition register_children (root : ref) (image_chunks : list ImageNode) : M unit :=
  do image_node <- deref_node root;
  do children_collection <-
    match relationships image_node !! CHILD with
    | None => ret []
    | Some (Many infos) => ret infos
    | Some (One _) => raise (TypeError "unsupported operand type(s) for +: 'RelatedNodeInfo' and 'list'")
    end;
  store_node root
    (set_relationship CHILD
       (Many (children_collection ++ map as_related_node_info (tail image_chunks)))
       image_node).

(** The root node is read once: nothing writes to it before line 353. The
    torch context managers of line 314 have no counterpart here. *)
Definition _parse_image_node_with_sam2 (root : ref) (configuration : SegConf) : M (list ImageNode) :=
  do image_node <- deref_node root;
  do img <- call (open_node_image P image_node);
  do sam_settings <- conf_get configuration "sam_settings" (VDict ∅);
  do model_name <- conf_getitem configuration "model_name";
  do settings <- match sam_settings with
                 | VDict d => ret d
                 | _ => raise (TypeError "argument after ** must be a mapping")
                 end;
  do predictor <- call (sam_from_pretrained P model_name settings);
  do_ call (sam_set_image P predictor img);
  do bbox_value <- conf_getitem configuration "bbox_list";
  do bbox_list <- as_regions bbox_value;
  do annotations <- predict_boxes predictor img bbox_list;
  do bbox_value' <- conf_getitem configuration "bbox_list";
  do bbox_list' <- as_regions bbox_value';
  do image_chunks <- crop_chunks image_node img (zip annotations bbox_list');
  do_ register_children root image_chunks;
  ret image_chunks.

(** *** Stage 3: [parse_image] (lines 162-182) *)

Definition parse_image (ev : BBoxCreatedEvent.t) : M (ImageParsedEvent.t + StopEvent.t) :=
  do parsed <- _parse_image_node_with_sam2 (BBoxCreatedEvent.image ev)
                 (BBoxCreatedEvent.segmentation_configuration ev);
  if bool_decide (length parsed = 0) then
    ret (inr {| StopEvent.result :=
                  Some {| Result.source := BBoxCreatedEvent.image ev;
                          Result.chunks := [];
                          Result.descriptions := None |};
                StopEvent.reason := None |})
  else
    ret (inl {| ImageParsedEvent.source := BBoxCreatedEvent.image ev;
                ImageParsedEvent.chunks := parsed |}).

(** *** Stage 4: [describe_image] (lines 184-238) *)

(** The body of the [try] (lines 206-225) for one chunk. *)
Definition describe_chunk_try (source : ref) (image_chunk : ImageNode) : M TextNode :=
  do document <- new_image_node (image image_chunk) (mimetype image_chunk) (mimetype image_chunk) ∅;
  do image_description <- llm_complete description_prompt [document];
  do id <- fresh_node_id;
  do source_obj <- deref_node source;
  do source_info <- call (_ref_doc_id source_obj);
  ret {| text_node_id := id;
         text := image_description;
         text_mimetype := Some "text/plain";
         text_relationships :=
           <[PARENT := One (as_related_node_info image_chunk)]>
             (<[SOURCE := One source_info]> ∅) |}.

(** One iteration of the loop: the entry appended to [image_descriptions]. *)
Definition describe_chunk (source : ref) (image_chunk : ImageNode) : M (option TextNode) :=
  try_except
    (do node <- describe_chunk_try source image_chunk; ret (Some node))
    (λ _, ret None).

Fixpoint describe_chunks (source : ref) (chunks : list ImageNode) : M (list (option TextNode)) :=
  match chunks with
  | [] => ret []
  | image_chunk :: rest =>
      do d <- describe_chunk source image_chunk;
      do ds <- describe_chunks source rest;
      ret (d :: ds)
  end.

Definition describe_image (ev : ImageParsedEvent.t) : M StopEvent.t :=
  do image_descriptions <-
    match multi_modal_llm self with
    | Some _ => describe_chunks (ImageParsedEvent.source ev) (ImageParsedEvent.chunks ev)
    | None => ret []
    end;
  ret {| StopEvent.result :=
           Some {| Result.source := ImageParsedEvent.source ev;
                   Result.chunks := ImageParsedEvent.chunks ev;
                   Result.descriptions := Some image_descriptions |};
         StopEvent.reason := None |}.

(** *** The driver: each step's event goes to the step that accepts it; a
    [StopEvent] ends the run, an exception that leaves a step ends it too. *)

Definition run (start_event : StartEvent.t) : M StopEvent.t :=
  do loaded <- load_image start_event;
  match loaded with
  | inr stop => ret stop
  | inl image_loaded_event =>
      do boxes <- create_bboxes image_loaded_event;
      match boxes with
      | inr stop => ret stop
      | inl bounding_boxes_created_event =>
          do parsed <- parse_image bounding_boxes_created_event;
          match parsed with
          | inr stop => ret stop
          | inl image_parsed_event => describe_image image_parsed_event
          end
      end
  end.

End ImageNodeParserWorkflow.

(** ** A concrete instance, to run the pipeline on examples *)

(** Images are a description of their content and whether they are empty.
    As in PIL, a crop box with right < left or lower < upper is refused, a
    box of zero width or height gives an empty image, and an empty image
    cannot be written as JPEG. *)
Definition demo_crop (img : string * bool) (box : Box) : Outcome (string * bool) :=
  let '(a, b, c, d) := box in
  if Qle_bool a c && Qle_bool b d
  then Return (fst img +:+ "[crop]", snd img || Qeq_bool a c || Qeq_bool b d)
  else Raise (ValueError "Coordinate 'right' is less than 'left'").

Definition demo_save (img : string * bool) (format : string) : Outcome (list byte) :=
  if snd img then Raise (RuntimeError "cannot write empty image as JPEG")
  else Return (String.list_byte_of_string (format +:+ ":" +:+ fst img)).

Definition demo_open (n : ImageNode) : Outcome (string * bool) :=
  match image n with
  | Some payload => Return (payload, false)
  | None => Raise (ValueError "No image found in the chunk.")
  end.

(** A detector that finds one region per prompt line. *)
Definition demo_detect (img : string * bool) (texts : list string) (confidence nms : Value)
  : Outcome (list Detection) :=
  Return (imap (λ i _, {| det_box := (10 # 1, 10 # 1, 50 # 1, 50 # 1)%Q;
                          det_score := (9 # 10)%Q; det_label := i |}) texts).

Definition demo_providers : Providers :=
  {| PILImage := string * bool;
     Annotation := Box;
     Predictor := unit;
     open_node_image := demo_open;
     open_path := λ path, Return ("pixels of " +:+ path, false);
     pil_save := demo_save;
     mask_fromarray := λ _, Return ("mask", false);
     composite_on_blank := λ img _, Return img;
     pil_crop := demo_crop;
     sam_from_pretrained := λ _ _, Return tt;
     sam_set_image := λ _ _, Return tt;
     sam_predict := λ _ _ box, Return box;
     owl_processor_from_pretrained := Return tt;
     owl_model_from_pretrained := Return tt;
     owl_detect := demo_detect;
     round2 := λ q, q |}.

(** A detector that always raises. *)
Definition failing_detector_providers : Providers :=
  {| PILImage := string * bool;
     Annotation := Box;
     Predictor := unit;
     open_node_image := demo_open;
     open_path := λ path, Return ("pixels of " +:+ path, false);
     pil_save := demo_save;
     mask_fromarray := λ _, Return ("mask", false);
     composite_on_blank := λ img _, Return img;
     pil_crop := demo_crop;
     sam_from_pretrained := λ _ _, Return tt;
     sam_set_image := λ _ _, Return tt;
     sam_predict := λ _ _ box, Return box;
     owl_processor_from_pretrained := Return tt;
     owl_model_from_pretrained := Return tt;
     owl_detect := λ _ _ _ _, Raise (RuntimeError "CUDA out of memory");
     round2 := λ q, q |}.

(** An LLM that proposes one prompt and describes every image but the
    ones whose payload it is told to refuse. *)
Definition demo_llm (refused : list string) (prompt : string) (docs : list ImageNode) : Outcome string :=
  if existsb (λ d, match image d with
                   | Some p => bool_decide (p ∈ refused)
                   | None => false
                   end) docs
  then Raise (RuntimeError "content filtered")
  else if bool_decide (prompt = elicitation_prompt) then Return "chair"
  else Return "a chair".

Definition demo_workflow (refused : list string) : Workflow :=
  {| multi_modal_llm := Some (demo_llm refused) |}.

Definition no_llm_workflow : Workflow := {| multi_modal_llm := None |}.

Definition empty_world : World :=
  {| dicts := ∅; validated := ∅; nodes := ∅; next_id := 0; llm_calls := []; sent_events := [];
     logged_errors := []; owl_processor_loaded := false; owl_model_loaded := false |}.

Definition region (a b c d : Z) : ImageRegion :=
  {| x1 := inject_Z a; y1 := inject_Z b; x2 := inject_Z c; y2 := inject_Z d;
     label := LabelText "chair"; score := (9 # 10)%Q |}.

(** A prebuilt PNG root whose SOURCE is a document, stored at reference 0,
    and a caller configuration at reference 1 that supplies the regions. *)
Definition demo_root : ImageNode :=
  {| node_id := "root"; image := Some "cGl4ZWxz"; mimetype := Some "image/png";
     image_mimetype := Some "image/png"; metadata := ∅;
     relationships :=
       {[ SOURCE := One {| related_node_id := "document-1"; related_metadata := ∅ |} ]} |}.

Definition demo_configuration (bboxes : list ImageRegion) : gmap string Value :=
  {[ "model_name" := VStr "facebook/sam2-hiera-small"; "bbox_list" := VRegions bboxes ]}.

Definition demo_world (bboxes : list ImageRegion) : World :=
  with_nodes (λ _, {[ 0 := demo_root ]})
    (with_dicts (λ _, {[ 1 := demo_configuration bboxes ]}) empty_world).

Definition demo_start (conf : option SegConf) : StartEvent.t :=
  {| StartEvent.segmentation_configuration := conf;
     StartEvent.object_detection_configuration := None;
     StartEvent.image := Some (ObjImageNode 0);
     StartEvent.base64_image := None;
     StartEvent.mimetype := None;
     StartEvent.image_path := None |}.

Definition path_start (conf : option SegConf) (det : option (gmap string Value)) : StartEvent.t :=
  {| StartEvent.segmentation_configuration := conf;
     StartEvent.object_detection_configuration := det;
     StartEvent.image := None;
     StartEvent.base64_image := None;
     StartEvent.mimetype := None;
     StartEvent.image_path := Some "./images/ikea.png" |}.

(** A caller configuration with a prompt and no region list, at reference 1. *)
Definition prompt_configuration : gmap string Value :=
  {[ "model_name" := VStr "facebook/sam2-hiera-small"; "prompt" := VStr "chair" ]}.

Definition world_with_configuration (d : gmap string Value) : World :=
  with_dicts (λ _, {[ 1 := d ]}) empty_world.

(** Three chunks to describe; the payload of the second is one the demo LLM
    refuses. *)
Definition demo_chunk (id payload : string) : ImageNode :=
  {| node_id := id; image := Some payload; mimetype := Some "image/png";
     image_mimetype := None; metadata := ∅; relationships := ∅ |}.

Definition demo_parsed : ImageParsedEvent.t :=
  {| ImageParsedEvent.source := 0;
     ImageParsedEvent.chunks :=
       [demo_chunk "chunk-1" "YQ=="; demo_chunk "chunk-2" "Yg=="; demo_chunk "chunk-3" "Yw=="] |}.

(** ** Vocabulary of the properties *)

(** The calls to the LLM that ask for a chunk description. *)
Definition description_calls (w : World) : list (string * list ImageNode) :=
  filter (λ c, c.1 = description_prompt) (llm_calls w).

(** Stage 2 fails: the body of its [try] raises. *)
Definition stage2_raises (P : Providers) (self : Workflow) (ev : ImageLoadedEvent.t) (w : World) : Prop :=
  ∃ e w', create_bboxes_try P self ev w = (Raise e, w').

(** A computation leaves an observation of the world unchanged, whether it
    returns or raises. *)
Definition preserves {X A : Type} (f : World → X) (m : M A) : Prop :=
  ∀ w, f (m w).2 = f w.

(** The chunks among the events stage 3 sent, in order. *)
Definition generated_chunks (events : list SentEvent) : list ImageNode :=
  omap (λ ev, match ev with
              | ImageChunkGenerated c => Some c
              | WorkflowRuntimeError _ => None
              end) events.

(** A mimetype that declares JPEG content. *)
Definition declares_jpeg (mt : option string) : Prop :=
  mt = Some "image/jpeg" ∨ mt = Some "image/jpg".

(** Merging as the specification words it: caller keys win, the other keys
    keep their default. *)
Definition merged_over_defaults (caller defaults : gmap string Value) : gmap string Value :=
  caller ∪ defaults.

(** What [build_chunk] makes of a crop of region [bbox] of the root
    [image_node]: a JPEG payload in base64, the root's mimetype, the region
    as metadata, SOURCE by the lineage rule and PARENT the root. *)
Definition chunk_of (P : Providers) (image_node : ImageNode) (bbox : ImageRegion)
    (cropped : PILImage P) (c : ImageNode) : Prop :=
  ∃ bytes id source,
    pil_save P cropped "JPEG" = Return bytes ∧
    _ref_doc_id image_node = Return source ∧
    c = set_relationship PARENT (One (as_related_node_info image_node))
          (set_relationship SOURCE (One source)
             {| node_id := id; image := Some (b64encode bytes);
                mimetype := mimetype image_node; image_mimetype := None;
                metadata := {[ "region" := MetaRegion (box_of bbox) ]};
                relationships := ∅ |}).

(** A chunk stage 3 produced for the root [image_node]. *)
Definition stage3_chunk (P : Providers) (image_node : ImageNode) (c : ImageNode) : Prop :=
  ∃ bbox cropped, chunk_of P image_node bbox cropped c.

(** The entry of [descriptions] that belongs to chunk [c]: the LLM is asked
    about a document with the chunk's payload and mimetype; the entry is a
    text node with the LLM's text when the call and the lineage resolution
    of the source both succeed, and [None] when either raises. *)
Definition description_entry (llm : string → list ImageNode → Outcome string)
    (source : option ImageNode) (c : ImageNode) (d : option TextNode) : Prop :=
  ∃ document,
    image document = image c ∧
    mimetype document = mimetype c ∧
    image_mimetype document = mimetype c ∧
    match llm description_prompt [document], source with
    | Return txt, Some src =>
        match _ref_doc_id src with
        | Return info =>
            ∃ id, d = Some {| text_node_id := id; text := txt;
                              text_mimetype := Some "text/plain";
                              text_relationships :=
                                <[PARENT := One (as_related_node_info c)]>
                                  (<[SOURCE := One info]> ∅) |}
        | Raise _ => d = None
        end
    | _, _ => d = None
    end.

(** A region whose prediction, mask, composite and crop all succeed. *)
Definition region_croppable (P : Providers) (predictor : Predictor P) (img : PILImage P)
    (bbox : ImageRegion) : Prop :=
  ∃ ann cropped,
    sam_predict P predictor img (box_of bbox) = Return ann ∧
    masked_crop P img ann bbox = Return cropped.

(** What stage 3 sends for a region that was cropped: the chunk built from
    the crop, or the diagnostic of what the [try] body raised (the JPEG
    encoding or the lineage resolution). *)
Definition region_event (P : Providers) (image_node : ImageNode) (img : PILImage P)
    (ann : Annotation P) (bbox : ImageRegion) (ev : SentEvent) : Prop :=
  ∃ cropped,
    masked_crop P img ann bbox = Return cropped ∧
    match ev with
    | ImageChunkGenerated c => chunk_of P image_node bbox cropped c
    | WorkflowRuntimeError e =>
        pil_save P cropped "JPEG" = Raise e ∨ _ref_doc_id image_node = Raise e
    end.

Definition region_outcome (P : Providers) (image_node : ImageNode) (predictor : Predictor P)
    (img : PILImage P) (bbox : ImageRegion) (ev : SentEvent) : Prop :=
  ∃ ann,
    sam_predict P predictor img (box_of bbox) = Return ann ∧
    region_event P image_node img ann bbox ev.

(** Stage 3 up to its loops: the root is live and opens as [img], the
    configuration is a dict with a model name, settings that are a mapping
    and a region list, the predictor loads and accepts the image, and the
    root's CHILD slot, if set, holds a list. *)
Record stage3_set_up (P : Providers) (root r : ref) (w : World) (image_node : ImageNode)
    (img : PILImage P) (predictor : Predictor P) (bboxes : list ImageRegion) : Prop := {
  set_up_root : nodes w !! root = Some image_node;
  set_up_image : open_node_image P image_node = Return img;
  set_up_predictor :
    ∃ d model_name settings,
      dicts w !! r = Some d ∧
      d !! "model_name" = Some model_name ∧
      default (VDict ∅) (d !! "sam_settings") = VDict settings ∧
      d !! "bbox_list" = Some (VRegions bboxes) ∧
      sam_from_pretrained P model_name settings = Return predictor;
  set_up_set_image : sam_set_image P predictor img = Return tt;
  set_up_children : ∀ info, relationships image_node !! CHILD ≠ Some (One info)
}.

(** The claim of a merge at stage 1, as the specification words it: what
    stage 2 receives is the caller's configuration merged over the default
    one, for segmentation and for detection. *)
Definition stage1_merges_over_defaults (P : Providers) (se : StartEvent.t) (w : World) : Prop :=
  ∀ ev w1 r caller_segmentation caller_detection,
    load_image P se w = (Return (inl ev), w1) →
    StartEvent.segmentation_configuration se = Some (ConfDict r) →
    dicts w !! r = Some caller_segmentation →
    StartEvent.object_detection_configuration se = Some caller_detection →
    (∃ r' d,
       ImageLoadedEvent.segmentation_configuration ev = ConfDict r' ∧
       dicts w1 !! r' = Some d ∧
       d = merged_over_defaults caller_segmentation default_predictor_dict) ∧
    ImageLoadedEvent.object_detection_configuration ev =
      Some (merged_over_defaults caller_detection _object_detection_configuration).

(** The claim that a per-region failure never leaves stage 3: once the
    stage is set up and every region has its prediction, the stage returns. *)
Definition region_failures_stay_local (P : Providers) (root r : ref) (w : World) : Prop :=
  ∀ image_node img predictor bboxes,
    stage3_set_up P root r w image_node img predictor bboxes →
    Forall (λ bbox, ∃ ann, sam_predict P predictor img (box_of bbox) = Return ann) bboxes →
    ∃ chunks w', _parse_image_node_with_sam2 P root (ConfDict r) w = (Return chunks, w').

(** The configuration dict at [r] has no [bbox_list] key. *)
Definition no_bbox_list (r : ref) (w : World) : Prop :=
  ∃ d, dicts w !! r = Some d ∧ d !! "bbox_list" = None.

(** The dict that validation made, at [r], has no [bbox_list] key. *)
Definition no_validated_bbox_list (r : ref) (w : World) : Prop :=
  ∃ d, validated w !! r = Some d ∧ d !! "bbox_list" = None.

(** A computation keeps an invariant of the world, however it ends. *)
Definition maintains {A} (I : World → Prop) (m : M A) : Prop :=
  ∀ w out w', I w → m w = (out, w') → I w'.

(** A computation raises from the world [w]. *)
Definition raises {A} (m : M A) (w : World) : Prop := ∃ e w', m w = (Raise e, w').

(** [sep.join(lines)] for a one-character separator. *)
Fixpoint join_on (sep : ascii) (lines : list string) : string :=
  match lines with
  | [] => EmptyString
  | [line] => line
  | line :: rest => line +:+ String sep (join_on sep rest)
  end.

(** [t] is [line] without its leading and trailing white space: [line] is
    white space, then [t], then white space, and [t] neither starts nor
    ends with white space. *)
Definition stripped_of (line t : string) : Prop :=
  ∃ leading trailing : list ascii,
    String.list_ascii_of_string line = leading ++ String.list_ascii_of_string t ++ trailing ∧
    Forall (λ c, is_space c = true) leading ∧
    Forall (λ c, is_space c = true) trailing ∧
    (∀ c, head (String.list_ascii_of_string t) = Some c → is_space c = false) ∧
    (∀ c, last (String.list_ascii_of_string t) = Some c → is_space c = false).

(** The position of a character in the base64 alphabet. *)
Definition b64_index (c : ascii) : option N :=
  (λ p, N.of_nat p.1) <$> list_find (λ x, x = c) b64_alphabet.

(** What stage 1 hands to stage 2 for the prebuilt root and the caller's
    configuration at reference 1, without and with the class defaults of
    the detector. *)
Definition demo_loaded (det : option (gmap string Value)) : ImageLoadedEvent.t :=
  {| ImageLoadedEvent.image := 0;
     ImageLoadedEvent.segmentation_configuration := ConfDict 1;
     ImageLoadedEvent.object_detection_configuration := det |}.

(** The prebuilt root with a caller configuration that holds a prompt and no
    region list. *)
Definition prompt_world : World :=
  with_nodes (λ _, {[ 0 := demo_root ]}) (world_with_configuration prompt_configuration).

(** The shapes of an outcome that the examples tell apart. *)
Definition returns {A} (o : Outcome A) : Prop :=
  match o with Return _ => True | Raise _ => False end.

Definition returns_list_of {A} (n : nat) (o : Outcome (list A)) : Prop :=
  match o with Return l => length l = n | Raise _ => False end.

Definition has_result (o : Outcome StopEvent.t) : Prop :=
  match o with
  | Return {| StopEvent.result := Some _ |} => True
  | _ => False
  end.

Definition has_described_chunk (o : Outcome StopEvent.t) : Prop :=
  match o with
  | Return {| StopEvent.result :=
                Some {| Result.chunks := _ :: _;
                        Result.descriptions := Some (Some _ :: _) |} |} => True
  | _ => False
  end.

(** ** Reasoning about steps *)

Lemma bind_Return_inv {A B} (m : M A) (k : A → M B) w b w' :
  bind m k w = (Return b, w') →
  ∃ a w1, m w = (Return a, w1) ∧ k a w1 = (Return b, w').
Proof.
  unfold bind. destruct (m w) as [[e|a] w1]; [discriminate|]. eauto.
Qed.

Lemma bind_Return {A B} (m : M A) (k : A → M B) w a w1 :
  m w = (Return a, w1) → bind m k w = k a w1.
Proof. unfold bind. by intros ->. Qed.

Lemma bind_Raise {A B} (m : M A) (k : A → M B) w e w1 :
  m w = (Raise e, w1) → bind m k w = (Raise e, w1).
Proof. unfold bind. by intros ->. Qed.

Lemma ret_inv {A} (a b : A) w w' : ret a w = (Return b, w') → a = b ∧ w = w'.
Proof. unfold ret. by intros [= -> ->]. Qed.

Lemma call_inv {A} (o : Outcome A) a w w' : call o w = (Return a, w') → o = Return a ∧ w = w'.
Proof. unfold call. by intros [= -> ->]. Qed.

Lemma try_except_Return_inv {A} (body : M A) (handler : Exn → M A) w a w' :
  try_except body handler w = (Return a, w') →
  body w = (Return a, w') ∨ ∃ e w1, body w = (Raise e, w1) ∧ handler e w1 = (Return a, w').
Proof.
  unfold try_except. destruct (body w) as [[e|a0] w1]; [|left]; eauto.
Qed.

Lemma raises_bind {A B} (m : M A) (k : A → M B) w :
  (∀ a w1, m w = (Return a, w1) → raises (k a) w1) → raises (bind m k) w.
Proof.
  intros Hk. unfold raises, bind. destruct (m w) as [[e|a] w1]; [eauto|]. by apply Hk.
Qed.

Lemma raises_bind_l {A B} (m : M A) (k : A → M B) w :
  raises m w → raises (bind m k) w.
Proof. intros (e & w' & Hm). exists e, w'. by apply bind_Raise. Qed.

Section Preservation.
Context {X : Type} (f : World → X).

Lemma preserves_ret {A} (a : A) : preserves f (ret a).
Proof. by intros w. Qed.

Lemma preserves_raise {A} e : preserves f (raise (A:=A) e).
Proof. by intros w. Qed.

Lemma preserves_call {A} (o : Outcome A) : preserves f (call o).
Proof. by intros w. Qed.

Lemma preserves_bind {A B} (m : M A) (k : A → M B) :
  preserves f m → (∀ a, preserves f (k a)) → preserves f (bind m k).
Proof.
  intros Hm Hk w. unfold bind. specialize (Hm w).
  destruct (m w) as [[e|a] w1]; simpl in *; [done|].
  by rewrite Hk.
Qed.

Lemma preserves_try_except {A} (body : M A) (handler : Exn → M A) :
  preserves f body → (∀ e, preserves f (handler e)) → preserves f (try_except body handler).
Proof.
  intros Hm Hk w. unfold try_except. specialize (Hm w).
  destruct (body w) as [[e|a] w1]; simpl in *; [|done].
  by rewrite Hk.
Qed.

Lemma preserves_deref_dict r : preserves f (deref_dict r).
Proof. intros w. unfold deref_dict. by destruct (dicts w !! r). Qed.

Lemma preserves_deref_validated r : preserves f (deref_validated r).
Proof. intros w. unfold deref_validated. by destruct (validated w !! r). Qed.

Lemma preserves_deref_node r : preserves f (deref_node r).
Proof. intros w. unfold deref_node. by destruct (nodes w !! r). Qed.

Lemma preserves_conf_contains conf key : preserves f (conf_contains conf key).
Proof.
  destruct conf; simpl;
    (apply preserves_bind;
     [apply preserves_deref_dict || apply preserves_deref_validated
     |intros; apply preserves_ret]).
Qed.

Lemma preserves_conf_getitem conf key : preserves f (conf_getitem conf key).
Proof.
  destruct conf; simpl;
    (apply preserves_bind;
     [apply preserves_deref_dict || apply preserves_deref_validated|intros d];
     destruct (d !! key); [apply preserves_ret|apply preserves_raise]).
Qed.

Lemma preserves_conf_get conf key dflt : preserves f (conf_get conf key dflt).
Proof.
  destruct conf; simpl;
    (apply preserves_bind;
     [apply preserves_deref_dict || apply preserves_deref_validated
     |intros; apply preserves_ret]).
Qed.

Lemma preserves_as_regions v : preserves f (as_regions v).
Proof. destruct v; simpl; (apply preserves_ret || apply preserves_raise). Qed.

End Preservation.

Create HintDb frame.
#[global] Hint Resolve preserves_ret preserves_raise preserves_call
  preserves_deref_dict preserves_deref_validated preserves_deref_node preserves_conf_contains
  preserves_conf_getitem preserves_conf_get preserves_as_regions : frame.

(** Walks a computation: binds and handlers are split, branches are taken
    apart, and a leaf is closed by a known frame fact. *)
Ltac frame_leaf := solve [ eauto with frame | intros ?; reflexivity ].

Ltac frame :=
  repeat first
    [ frame_leaf
    | apply preserves_bind; [|intros ?]
    | apply preserves_try_except; [|intros ?]
    | match goal with
      | |- preserves _ (match ?x with _ => _ end) => destruct x
      | |- preserves _ (if ?x then _ else _) => destruct x
      end ].

(** Frame facts of the steps, for an observation [f] of the world that does
    not depend on the fields a step writes. *)
Section Frames.
Context (P : Providers) (self : Workflow).
Context {X : Type} (f : World → X).
Hypothesis f_next_id : ∀ n w, f (with_next_id n w) = f w.
Hypothesis f_sent_events : ∀ l w, f (with_sent_events l w) = f w.
Hypothesis f_logged_errors : ∀ l w, f (with_logged_errors l w) = f w.
Hypothesis f_owl_processor : ∀ b w, f (with_owl_processor_loaded b w) = f w.
Hypothesis f_owl_model : ∀ b w, f (with_owl_model_loaded b w) = f w.
Hypothesis f_nodes : ∀ g w, f (with_nodes g w) = f w.
Hypothesis f_dicts : ∀ g w, f (with_dicts g w) = f w.
Hypothesis f_llm_calls : ∀ l w, f (with_llm_calls l w) = f w.
Hypothesis f_other_llm_call :
  ∀ c w, c.1 ≠ description_prompt → f (with_llm_calls (llm_calls w ++ [c]) w) = f w.
Hypothesis f_validated : ∀ g w, f (with_validated g w) = f w.

Lemma preserves_fresh_node_id : preserves f fresh_node_id.
Proof. intros w. apply f_next_id. Qed.

Lemma preserves_send_event ev : preserves f (send_event ev).
Proof. intros w. apply f_sent_events. Qed.

Lemma preserves_logging_error msg e : preserves f (logging_error msg e).
Proof. intros w. apply f_logged_errors. Qed.

Lemma preserves_store_node r n : preserves f (store_node r n).
Proof. intros w. apply f_nodes. Qed.

Lemma preserves_alloc_node n : preserves f (alloc_node n).
Proof. intros w. apply f_nodes. Qed.

Lemma preserves_alloc_validated d : preserves f (alloc_validated d).
Proof. intros w. apply f_validated. Qed.

Lemma preserves_conf_setitem conf key v : preserves f (conf_setitem conf key v).
Proof.
  destruct conf; simpl.
  - apply preserves_bind; [apply preserves_deref_dict|intros d w]. apply f_dicts.
  - apply preserves_bind; [apply preserves_deref_validated|intros d w]. apply f_validated.
Qed.

Lemma preserves_conf_setitem_validated r key v :
  preserves f (conf_setitem (ConfValidated r) key v).
Proof.
  simpl. apply preserves_bind; [apply preserves_deref_validated|intros d w]. apply f_validated.
Qed.

Lemma preserves_StopEvent_with_reason reason : preserves f (StopEvent_with_reason reason).
Proof. apply preserves_raise. Qed.

Lemma preserves_get_or_create_owl_v2_processor : preserves f (get_or_create_owl_v2_processor P).
Proof.
  intros w. unfold get_or_create_owl_v2_processor.
  destruct (owl_processor_loaded w); [done|].
  destruct (owl_processor_from_pretrained P); [done|]. apply f_owl_processor.
Qed.

Lemma preserves_get_or_create_owl_v2 : preserves f (get_or_create_owl_v2 P).
Proof.
  intros w. unfold get_or_create_owl_v2.
  destruct (owl_model_loaded w); [done|].
  destruct (owl_model_from_pretrained P); [done|]. apply f_owl_model.
Qed.

Lemma preserves_llm_complete prompt docs : preserves f (llm_complete self prompt docs).
Proof.
  unfold llm_complete. destruct (multi_modal_llm self); [|apply preserves_raise].
  intros w. apply f_llm_calls.
Qed.

Lemma preserves_elicitation docs : preserves f (llm_complete self elicitation_prompt docs).
Proof.
  unfold llm_complete. destruct (multi_modal_llm self); [|apply preserves_raise].
  intros w. by apply f_other_llm_call.
Qed.

Hint Resolve preserves_fresh_node_id preserves_send_event preserves_logging_error
  preserves_store_node preserves_alloc_node preserves_alloc_validated preserves_conf_setitem
  preserves_StopEvent_with_reason
  preserves_get_or_create_owl_v2_processor preserves_get_or_create_owl_v2 : frame.

Lemma preserves_image_to_base64 img format : preserves f (image_to_base64 P img format).
Proof. unfold image_to_base64. frame. Qed.

Lemma preserves_new_image_node img mt imt md : preserves f (new_image_node img mt imt md).
Proof. unfold new_image_node. frame. Qed.

Lemma preserves_dict_field value : preserves f (dict_field value).
Proof. unfold dict_field. frame. Qed.

Lemma preserves_new_image_document payload mt : preserves f (new_image_document payload mt).
Proof. unfold new_image_document. frame. Qed.

Hint Resolve preserves_image_to_base64 preserves_new_image_node preserves_dict_field
  preserves_new_image_document : frame.

Lemma preserves_load_image se : preserves f (load_image P se).
Proof. unfold load_image. frame. Qed.

Lemma preserves__detect_bboxes_with_owlv2 root prompt confidence nms :
  preserves f (_detect_bboxes_with_owlv2 P root prompt confidence nms).
Proof. unfold _detect_bboxes_with_owlv2. frame. Qed.

Lemma preserves_predict_boxes predictor img bboxes :
  preserves f (predict_boxes P predictor img bboxes).
Proof. induction bboxes as [|bbox rest IH]; simpl; frame. Qed.

Lemma preserves_build_chunk image_node cropped bbox :
  preserves f (build_chunk P image_node cropped bbox).
Proof. unfold build_chunk. frame. Qed.

Hint Resolve preserves_build_chunk preserves_predict_boxes : frame.

Lemma preserves_crop_chunk image_node img ann bbox :
  preserves f (crop_chunk P image_node img ann bbox).
Proof. unfold crop_chunk. frame. Qed.

Hint Resolve preserves_crop_chunk : frame.

Lemma preserves_crop_chunks image_node img pairs :
  preserves f (crop_chunks P image_node img pairs).
Proof. induction pairs as [|[ann bbox] rest IH]; simpl; frame. Qed.

Lemma preserves_register_children root image_chunks :
  preserves f (register_children root image_chunks).
Proof. unfold register_children. frame. Qed.

Hint Resolve preserves_crop_chunks preserves_register_children : frame.

Lemma preserves__parse_image_node_with_sam2 root conf :
  preserves f (_parse_image_node_with_sam2 P root conf).
Proof. unfold _parse_image_node_with_sam2. frame. Qed.

Hint Resolve preserves__parse_image_node_with_sam2 : frame.

Lemma preserves_parse_image ev : preserves f (parse_image P ev).
Proof. unfold parse_image. frame. Qed.

Lemma preserves_describe_chunk source image_chunk :
  preserves f (describe_chunk self source image_chunk).
Proof.
  unfold describe_chunk, describe_chunk_try. pose proof preserves_llm_complete. frame.
Qed.

Hint Resolve preserves_describe_chunk : frame.

Lemma preserves_describe_chunks source chunks :
  preserves f (describe_chunks self source chunks).
Proof. induction chunks as [|c rest IH]; simpl; frame. Qed.

Hint Resolve preserves_describe_chunks : frame.

Lemma preserves_describe_image ev : preserves f (describe_image self ev).
Proof. unfold describe_image. frame. Qed.

Lemma preserves_create_bboxes_try ev : preserves f (create_bboxes_try P self ev).
Proof.
  unfold create_bboxes_try.
  pose proof preserves_elicitation. pose proof preserves__detect_bboxes_with_owlv2. frame.
Qed.

Lemma preserves_create_bboxes ev : preserves f (create_bboxes P self ev).
Proof. unfold create_bboxes. pose proof preserves_create_bboxes_try. frame. Qed.

End Frames.

(** ** Stage 3: what a returned chunk list says *)

Section Stage3.
Context (P : Providers).

Lemma preserves_eq {X A} (f : World → X) (m : M A) w out w' :
  preserves f m → m w = (out, w') → f w' = f w.
Proof. intros Hm Hw. specialize (Hm w). by rewrite Hw in Hm. Qed.

Lemma deref_node_inv r n w w' :
  deref_node r w = (Return n, w') → nodes w !! r = Some n ∧ w' = w.
Proof. unfold deref_node. destruct (nodes w !! r); by intros [= <- <-]. Qed.

Lemma build_chunk_inv image_node cropped bbox w c w' :
  build_chunk P image_node cropped bbox w = (Return c, w') →
  chunk_of P image_node bbox cropped c.
Proof.
  unfold build_chunk, image_to_base64, new_image_node. intros H.
  apply bind_Return_inv in H as (payload & w1 & H1 & H).
  apply bind_Return_inv in H1 as (bytes & w0 & Hsave & H1).
  apply call_inv in Hsave as [Hsave ->]. apply ret_inv in H1 as [<- ->].
  apply bind_Return_inv in H as (fresh_chunk & w2 & H2 & H).
  apply bind_Return_inv in H2 as (id & w3 & _ & H2). apply ret_inv in H2 as [<- ->].
  apply bind_Return_inv in H as (source & w4 & Hsrc & H).
  apply call_inv in Hsrc as [Hsrc ->].
  apply bind_Return_inv in H as ([] & w5 & _ & H). apply ret_inv in H as [<- _].
  by exists bytes, id, source.
Qed.

Lemma crop_chunk_inv image_node img ann bbox w produced w' :
  crop_chunk P image_node img ann bbox w = (Return produced, w') →
  ∀ c, produced = Some c → ∃ cropped, chunk_of P image_node bbox cropped c.
Proof.
  unfold crop_chunk. intros H c ->.
  apply bind_Return_inv in H as (cropped & w1 & _ & H).
  apply try_except_Return_inv in H as [H|(e & w2 & _ & H)].
  - apply bind_Return_inv in H as (c' & w2 & H & Hret).
    apply ret_inv in Hret as [[= ->] _]. exists cropped. by eapply build_chunk_inv.
  - apply bind_Return_inv in H as (? & ? & _ & H). by apply ret_inv in H as [? _].
Qed.

Lemma crop_chunks_inv image_node img pairs w chunks w' :
  crop_chunks P image_node img pairs w = (Return chunks, w') →
  Forall (stage3_chunk P image_node) chunks.
Proof.
  revert w chunks w'. induction pairs as [|[ann bbox] rest IH]; simpl; intros w chunks w' H.
  - apply ret_inv in H as [<- _]. constructor.
  - apply bind_Return_inv in H as (produced & w1 & Hone & H).
    apply bind_Return_inv in H as (more & w2 & Hrest & H).
    apply ret_inv in H as [<- _]. apply Forall_app. split; [|by eapply IH].
    destruct produced as [c|]; simpl; [|constructor].
    constructor; [|constructor].
    destruct (crop_chunk_inv _ _ _ _ _ _ _ Hone c eq_refl) as [cropped Hc].
    by exists bbox, cropped.
Qed.

(** The shape of a run of [_parse_image_node_with_sam2] that returns. *)
Lemma parse_Return_inv root conf w chunks w' :
  _parse_image_node_with_sam2 P root conf w = (Return chunks, w') →
  ∃ image_node w2,
    nodes w !! root = Some image_node ∧
    Forall (stage3_chunk P image_node) chunks ∧
    nodes w2 = nodes w ∧
    register_children root chunks w2 = (Return tt, w').
Proof.
  unfold _parse_image_node_with_sam2. intros H.
  apply bind_Return_inv in H as (image_node & w0 & Hroot & H).
  apply deref_node_inv in Hroot as [Hroot ->].
  apply bind_Return_inv in H as (img & w1 & Hw1 & H).
  apply bind_Return_inv in H as (sam_settings & w2 & Hw2 & H).
  apply bind_Return_inv in H as (model_name & w3 & Hw3 & H).
  apply bind_Return_inv in H as (settings & w4 & Hw4 & H).
  apply bind_Return_inv in H as (predictor & w5 & Hw5 & H).
  apply bind_Return_inv in H as (? & w6 & Hw6 & H).
  apply bind_Return_inv in H as (bbox_value & w7 & Hw7 & H).
  apply bind_Return_inv in H as (bbox_list & w8 & Hw8 & H).
  apply bind_Return_inv in H as (annotations & w9 & Hw9 & H).
  apply bind_Return_inv in H as (bbox_value' & w10 & Hw10 & H).
  apply bind_Return_inv in H as (bbox_list' & w11 & Hw11 & H).
  apply bind_Return_inv in H as (image_chunks & w12 & Hcrop & H).
  apply bind_Return_inv in H as ([] & w13 & Hreg & H).
  apply ret_inv in H as [<- <-].
  exists image_node, w12. split_and!; [done|by eapply crop_chunks_inv| |done].
  assert (∀ {A} (m : M A) wa out wb,
    preserves nodes m → m wa = (out, wb) → nodes wb = nodes wa) as step
    by (intros; by eapply preserves_eq).
  rewrite (step _ _ _ _ _ (preserves_crop_chunks P nodes ltac:(done) ltac:(done) _ _ _) Hcrop).
  rewrite (step _ _ _ _ _ (preserves_as_regions nodes _) Hw11).
  rewrite (step _ _ _ _ _ (preserves_conf_getitem nodes _ _) Hw10).
  rewrite (step _ _ _ _ _ (preserves_predict_boxes P nodes _ _ _) Hw9).
  rewrite (step _ _ _ _ _ (preserves_as_regions nodes _) Hw8).
  rewrite (step _ _ _ _ _ (preserves_conf_getitem nodes _ _) Hw7).
  rewrite (step _ _ _ _ _ (preserves_call nodes _) Hw6).
  rewrite (step _ _ _ _ _ (preserves_call nodes _) Hw5).
  assert (w4 = w3) as -> by (destruct sam_settings; cbv in Hw4; congruence).
  rewrite (step _ _ _ _ _ (preserves_conf_getitem nodes _ _) Hw3).
  rewrite (step _ _ _ _ _ (preserves_conf_get nodes _ _ _) Hw2).
  by rewrite (step _ _ _ _ _ (preserves_call nodes _) Hw1).
Qed.

End Stage3.

(** ** Properties of stage 3 *)

(** C3. Every chunk that [_parse_image_node_with_sam2] returns has the root
    image node as PARENT, and as SOURCE what the lineage rule gives for the
    root: the root's own recorded source when it has one, the root itself
    otherwise. *)
Theorem chunk_lineage (P : Providers) root conf w chunks w' :
  _parse_image_node_with_sam2 P root conf w = (Return chunks, w') →
  ∃ image_node,
    nodes w !! root = Some image_node ∧
    ∀ c, c ∈ chunks →
      relationships c !! PARENT = Some (One (as_related_node_info image_node)) ∧
      ∃ source,
        relationships c !! SOURCE = Some (One source) ∧
        (relationships image_node !! SOURCE = Some (One source) ∨
         relationships image_node !! SOURCE = None ∧
         source = as_related_node_info image_node).
Proof.
  intros H. apply parse_Return_inv in H as (image_node & w2 & Hroot & Hchunks & _ & _).
  exists image_node. split; [done|]. intros c Hc.
  rewrite Forall_forall in Hchunks.
  destruct (Hchunks c Hc) as (bbox & cropped & bytes & id & source & _ & Hsrc & ->).
  simpl. split; [by rewrite lookup_insert_eq|].
  exists source. split.
  - rewrite lookup_insert_ne by done. by rewrite lookup_insert_eq.
  - unfold _ref_doc_id, source_node in Hsrc.
    destruct (relationships image_node !! SOURCE) as [[s|l]|]; simplify_eq; auto.
Qed.

(** What a registration that returns has stored at the root. *)
Lemma register_children_inv root image_chunks w w' image_node :
  register_children root image_chunks w = (Return tt, w') →
  nodes w !! root = Some image_node →
  ∃ children,
    (relationships image_node !! CHILD = Some (Many children) ∨
     relationships image_node !! CHILD = None ∧ children = []) ∧
    nodes w' =
      <[root := set_relationship CHILD
                  (Many (children ++ map as_related_node_info (tail image_chunks)))
                  image_node]> (nodes w).
Proof.
  unfold register_children. intros Hreg Hroot.
  apply bind_Return_inv in Hreg as (n & w3 & Hn & Hreg).
  apply deref_node_inv in Hn as [Hn ->].
  assert (n = image_node) as -> by congruence.
  apply bind_Return_inv in Hreg as (children & w4 & Hchildren & Hreg).
  exists children.
  unfold store_node in Hreg. injection Hreg as <-.
  destruct (relationships image_node !! CHILD) as [[info|infos]|];
    [discriminate Hchildren| |]; apply ret_inv in Hchildren as [<- <-];
    (split; [auto|]); done.
Qed.

(** C6. When [_parse_image_node_with_sam2] returns, the node stored at the
    root has, in its CHILD slot, the root's former collection (empty if it
    had none) followed by the references of all returned chunks but the
    first, in order. Nothing else of the root has changed, neither another
    relationship nor a field, and no other node of the store has. *)
Theorem children_registration (P : Providers) root conf w chunks w' :
  _parse_image_node_with_sam2 P root conf w = (Return chunks, w') →
  ∃ image_node children registered,
    nodes w !! root = Some image_node ∧
    (relationships image_node !! CHILD = Some (Many children) ∨
     relationships image_node !! CHILD = None ∧ children = []) ∧
    nodes w' !! root = Some registered ∧
    relationships registered !! CHILD =
      Some (Many (children ++ map as_related_node_info (tail chunks))) ∧
    (∀ k, k ≠ CHILD → relationships registered !! k = relationships image_node !! k) ∧
    (node_id registered = node_id image_node ∧
     image registered = image image_node ∧
     mimetype registered = mimetype image_node ∧
     image_mimetype registered = image_mimetype image_node ∧
     metadata registered = metadata image_node) ∧
    (∀ r, r ≠ root → nodes w' !! r = nodes w !! r).
Proof.
  intros H. apply parse_Return_inv in H as (image_node & w2 & Hroot & _ & Hnodes & Hreg).
  rewrite <- Hnodes in Hroot.
  destruct (register_children_inv _ _ _ _ _ Hreg Hroot) as (children & Hchildren & Hstored).
  rewrite Hnodes in Hroot, Hstored.
  exists image_node, children. eexists. split; [done|]. split; [done|].
  rewrite Hstored. split; [by rewrite lookup_insert_eq|]. simpl.
  split; [by rewrite lookup_insert_eq|].
  split; [by intros k Hk; rewrite lookup_insert_ne|].
  split; [done|].
  intros r Hr. by rewrite lookup_insert_ne.
Qed.

(** C10. Every chunk that [_parse_image_node_with_sam2] returns carries the
    base64 of a crop saved as JPEG, and declares the mimetype of the root
    node, copied as it is: a root that does not declare JPEG gives chunks
    that do not declare JPEG although their content is JPEG. *)
Theorem chunk_content_is_jpeg_mimetype_is_copied (P : Providers) root conf w chunks w' :
  _parse_image_node_with_sam2 P root conf w = (Return chunks, w') →
  ∃ image_node,
    nodes w !! root = Some image_node ∧
    ∀ c, c ∈ chunks →
      (∃ cropped bytes,
         pil_save P cropped "JPEG" = Return bytes ∧ image c = Some (b64encode bytes)) ∧
      mimetype c = mimetype image_node ∧
      (¬ declares_jpeg (mimetype image_node) → ¬ declares_jpeg (mimetype c)).
Proof.
  intros H. apply parse_Return_inv in H as (image_node & w2 & Hroot & Hchunks & _ & _).
  exists image_node. split; [done|]. intros c Hc.
  rewrite Forall_forall in Hchunks.
  destruct (Hchunks c Hc) as (bbox & cropped & bytes & id & source & Hsave & _ & ->).
  simpl. split_and!; [by exists cropped, bytes|done|done].
Qed.

(** ** Properties of stage 4 *)

Section Stage4.
Context (self : Workflow) (llm : string → list ImageNode → Outcome string).
Hypothesis llm_configured : multi_modal_llm self = Some llm.

Lemma describe_chunk_total source c w :
  ∃ d w',
    describe_chunk self source c w = (Return d, w') ∧
    description_entry llm (nodes w !! source) c d ∧
    nodes w' = nodes w ∧
    length (llm_calls w') = S (length (llm_calls w)).
Proof.
  unfold describe_chunk, try_except, describe_chunk_try, new_image_node, llm_complete.
  rewrite llm_configured. unfold bind at 1 2 3. simpl.
  set (document := {| node_id := _ |}).
  assert (∀ w1 : World, length (llm_calls w ++ [(description_prompt, [document])]) = S (length (llm_calls w))) as Hlen
    by (intros; rewrite length_app; simpl; lia).
  destruct (llm description_prompt [document]) as [e|txt] eqn:Hcall.
  { eexists None, _. split; [reflexivity|]. split; [|split; [done|by apply Hlen]].
    exists document. by rewrite Hcall. }
  unfold bind, fresh_node_id, deref_node, call. simpl.
  destruct (nodes w !! source) as [src|] eqn:Hsrc.
  - destruct (_ref_doc_id src) as [e|info] eqn:Hinfo.
    + eexists None, _. split; [reflexivity|]. split; [|split; [done|by apply Hlen]].
      exists document. by rewrite Hcall, Hinfo.
    + eexists (Some _), _. split; [reflexivity|]. split; [|split; [done|by apply Hlen]].
      exists document. rewrite Hcall, Hinfo. split_and!; [done..|]. by eexists.
  - eexists None, _. split; [reflexivity|]. split; [|split; [done|by apply Hlen]].
    exists document. by rewrite Hcall.
Qed.

Lemma describe_chunks_total source chunks w :
  ∃ ds w',
    describe_chunks self source chunks w = (Return ds, w') ∧
    Forall2 (description_entry llm (nodes w !! source)) chunks ds ∧
    nodes w' = nodes w ∧
    length (llm_calls w') = length (llm_calls w) + length chunks.
Proof.
  revert w. induction chunks as [|c rest IH]; intros w; simpl.
  - exists [], w. split_and!; [done|constructor|done|lia].
  - destruct (describe_chunk_total source c w) as (d & w1 & Hd & Hentry & Hnodes & Hcalls).
    destruct (IH w1) as (ds & w2 & Hds & Hentries & Hnodes' & Hcalls').
    exists (d :: ds), w2. split_and!.
    + erewrite bind_Return by exact Hd. by erewrite bind_Return by exact Hds.
    + constructor; [done|]. by rewrite <- Hnodes.
    + congruence.
    + lia.
Qed.

End Stage4.

(** C4. With an LLM configured, [describe_image] returns a result whose
    [descriptions] has one entry per chunk, position by position: a chunk
    whose captioning call raises gets [None] at its position, the LLM is
    called once for every chunk whatever the earlier calls did, and the
    step itself never raises. *)
Theorem descriptions_align_with_chunks (self : Workflow) llm ev w :
  multi_modal_llm self = Some llm →
  ∃ ds w',
    describe_image self ev w =
      (Return {| StopEvent.result :=
                   Some {| Result.source := ImageParsedEvent.source ev;
                           Result.chunks := ImageParsedEvent.chunks ev;
                           Result.descriptions := Some ds |};
                 StopEvent.reason := None |}, w') ∧
    length ds = length (ImageParsedEvent.chunks ev) ∧
    length (llm_calls w') = length (llm_calls w) + length (ImageParsedEvent.chunks ev) ∧
    Forall2 (description_entry llm (nodes w !! ImageParsedEvent.source ev))
      (ImageParsedEvent.chunks ev) ds.
Proof.
  intros llm_configured.
  destruct (describe_chunks_total self llm llm_configured
              (ImageParsedEvent.source ev) (ImageParsedEvent.chunks ev) w)
    as (ds & w' & Hds & Hentries & _ & Hcalls).
  exists ds, w'. split_and!; [|by apply Forall2_length in Hentries|done|done].
  unfold describe_image. rewrite llm_configured. by erewrite bind_Return by exact Hds.
Qed.

(** ** Properties of a run *)

Lemma description_calls_other c w :
  c.1 ≠ description_prompt →
  description_calls (with_llm_calls (llm_calls w ++ [c]) w) = description_calls w.
Proof.
  intros Hc. unfold description_calls. simpl.
  rewrite filter_app, filter_cons_False by done. by rewrite filter_nil, app_nil_r.
Qed.

(** C5. When stage 3 produces no chunk, the run ends there with the result
    [{source, chunks: []}] (no [descriptions] key), in the world stage 3
    left: [describe_image] does not run, and the run has added no
    description call to the LLM's log. *)
Theorem empty_parse_stops_before_captioning (P : Providers) (self : Workflow)
    se w ev1 w1 ev2 w2 w3 :
  load_image P se w = (Return (inl ev1), w1) →
  create_bboxes P self ev1 w1 = (Return (inl ev2), w2) →
  _parse_image_node_with_sam2 P (BBoxCreatedEvent.image ev2)
    (BBoxCreatedEvent.segmentation_configuration ev2) w2 = (Return [], w3) →
  run P self se w =
    (Return {| StopEvent.result :=
                 Some {| Result.source := BBoxCreatedEvent.image ev2;
                         Result.chunks := [];
                         Result.descriptions := None |};
               StopEvent.reason := None |}, w3) ∧
  description_calls w3 = description_calls w.
Proof.
  intros Hload Hboxes Hparse. split.
  - unfold run. erewrite bind_Return by exact Hload. cbv beta iota.
    erewrite bind_Return by exact Hboxes. cbv beta iota.
    unfold parse_image. erewrite bind_Return by (erewrite bind_Return by exact Hparse; reflexivity).
    reflexivity.
  - rewrite (preserves_eq _ _ _ _ _
               (preserves__parse_image_node_with_sam2 P description_calls
                  ltac:(done) ltac:(done) ltac:(done) _ _) Hparse).
    rewrite (preserves_eq _ _ _ _ _
               (preserves_create_bboxes P self description_calls
                  ltac:(done) ltac:(done) ltac:(done) ltac:(done) description_calls_other
                  ltac:(done) _)
               Hboxes).
    exact (preserves_eq _ _ _ _ _
             (preserves_load_image P description_calls ltac:(done) ltac:(done) ltac:(done) _)
             Hload).
Qed.

(** What [create_bboxes] makes of the two ways its [try] body can end: the
    handler logs the exception and raises its own from the constructor of
    the stop event. *)
Lemma create_bboxes_of_raise (P : Providers) (self : Workflow) ev w e w1 :
  create_bboxes_try P self ev w = (Raise e, w1) →
  create_bboxes P self ev w =
    (Raise (TypeError "StopEvent.__init__() got an unexpected keyword argument 'reason'"),
     with_logged_errors (logged_errors w1 ++ [("Failed to create bounding boxes", e)]) w1).
Proof.
  intros Htry. unfold create_bboxes. erewrite bind_Raise; [reflexivity|].
  unfold try_except. erewrite bind_Raise by exact Htry.
  unfold bind, logging_error. reflexivity.
Qed.

Lemma create_bboxes_of_return (P : Providers) (self : Workflow) ev w bbox_list w1 :
  create_bboxes_try P self ev w = (Return bbox_list, w1) →
  create_bboxes P self ev w =
    (Return (inl {| BBoxCreatedEvent.image := ImageLoadedEvent.image ev;
                    BBoxCreatedEvent.segmentation_configuration :=
                      ImageLoadedEvent.segmentation_configuration ev;
                    BBoxCreatedEvent.object_detection_configuration := None |}), w1).
Proof.
  intros Htry. unfold create_bboxes. erewrite bind_Return.
  2:{ unfold try_except. erewrite bind_Return by exact Htry. reflexivity. }
  reflexivity.
Qed.

(** A step that returns from [create_bboxes] returns the event for stage 3,
    from a [try] body that returned. *)
Lemma create_bboxes_Return_inv (P : Providers) (self : Workflow) ev w r w' :
  create_bboxes P self ev w = (Return r, w') →
  ∃ bbox_list,
    create_bboxes_try P self ev w = (Return bbox_list, w') ∧
    r = inl {| BBoxCreatedEvent.image := ImageLoadedEvent.image ev;
               BBoxCreatedEvent.segmentation_configuration :=
                 ImageLoadedEvent.segmentation_configuration ev;
               BBoxCreatedEvent.object_detection_configuration := None |}.
Proof.
  intros H. destruct (create_bboxes_try P self ev w) as [[e|bbox_list] w1] eqn:Htry.
  - erewrite create_bboxes_of_raise in H by exact Htry. discriminate H.
  - erewrite create_bboxes_of_return in H by exact Htry. injection H as <- <-. by eexists.
Qed.

(** When the body of stage 2's [try] raises, the run ends with the
    [TypeError] of the handler: no stop event is returned. *)
Lemma run_raises_when_stage2_raises (P : Providers) (self : Workflow) se w ev w1 :
  load_image P se w = (Return (inl ev), w1) →
  stage2_raises P self ev w1 →
  ∃ w', run P self se w =
          (Raise (TypeError "StopEvent.__init__() got an unexpected keyword argument 'reason'"),
           w').
Proof.
  intros Hload (e & w2 & Hraise).
  eexists. unfold run. erewrite bind_Return by exact Hload. cbv beta iota.
  by erewrite bind_Raise by (by apply create_bboxes_of_raise).
Qed.

(** What the validation of the configuration field returns. *)
Lemma dict_field_inv value w conf w' :
  dict_field value w = (Return conf, w') →
  (∃ r, value = inl (ConfDict r) ∧ conf = ConfDict r ∧ w' = w) ∨
  (∃ t d, value = inr t ∧ dict_of_tuple t = Some d ∧
          conf = ConfValidated (fresh (dom (validated w))) ∧
          w' = with_validated (λ h, <[fresh (dom (validated w)) := d]> h) w).
Proof.
  unfold dict_field. destruct value as [[r|r]|t].
  - intros H. apply ret_inv in H as [<- <-]. left. by exists r.
  - discriminate.
  - destruct (dict_of_tuple t) as [d|] eqn:Ht; [|discriminate].
    intros H. apply bind_Return_inv in H as (r & w1 & Halloc & H).
    unfold alloc_validated in Halloc. injection Halloc as <- <-.
    apply ret_inv in H as [<- <-]. right. by exists t, d.
Qed.

(** The stage-1 event of a run that loads an image: the configuration field
    is validated last, in a world [w0] whose dicts are those of the start;
    the input form decides the detection configuration and, for a path, the
    root that is made. *)
Lemma load_image_Return_inv (P : Providers) se w ev w1 :
  load_image P se w = (Return (inl ev), w1) →
  ∃ w0,
    dict_field (match StartEvent.segmentation_configuration se with
                | Some c => inl c
                | None => inr _default_predictor_configuration
                end) w0 =
      (Return (ImageLoadedEvent.segmentation_configuration ev), w1) ∧
    dicts w0 = dicts w ∧
    validated w0 = validated w ∧
    (((∃ r, StartEvent.image se = Some (ObjImageNode r)) ∧
      w0 = w ∧
      ImageLoadedEvent.object_detection_configuration ev = None) ∨
     ((∀ r, StartEvent.image se ≠ Some (ObjImageNode r)) ∧
      is_Some (StartEvent.base64_image se) ∧
      ImageLoadedEvent.object_detection_configuration ev = None) ∨
     ((∀ r, StartEvent.image se ≠ Some (ObjImageNode r)) ∧
      StartEvent.base64_image se = None ∧
      ImageLoadedEvent.object_detection_configuration ev = Some _object_detection_configuration ∧
      ∃ root,
        nodes w0 !! ImageLoadedEvent.image ev = Some root ∧
        mimetype root = Some "image/jpg" ∧
        relationships root = ∅ ∧
        nodes w !! ImageLoadedEvent.image ev = None ∧
        (∃ img bytes, pil_save P img "JPEG" = Return bytes ∧
                      image root = Some (b64encode bytes)))).
Proof.
  unfold load_image. cbv zeta. intros H.
  destruct (StartEvent.image se) as [[r|]|] eqn:Himage.
  { apply bind_Return_inv in H as (conf & w0 & Hfield & H).
    apply ret_inv in H as [[= <-] <-]. exists w. simpl.
    split_and!; [done..|]. left. split_and!; [by exists r|done..]. }
  all: destruct (StartEvent.base64_image se) as [payload|] eqn:Hb64;
    [ destruct (StartEvent.mimetype se) as [mt|]; [|discriminate H];
      apply bind_Return_inv in H as (document & wa & Hdoc & H);
      apply bind_Return_inv in H as (r & wb & Hr & H);
      apply bind_Return_inv in H as (conf & wc & Hfield & H);
      apply ret_inv in H as [[= <-] <-]; exists wb; simpl;
      split; [exact Hfield|];
      pose proof (preserves_eq _ _ _ _ _
                    (preserves_new_image_document dicts ltac:(done) _ _) Hdoc) as Hd1;
      pose proof (preserves_eq _ _ _ _ _
                    (preserves_new_image_document validated ltac:(done) _ _) Hdoc) as Hv1;
      unfold alloc_node in Hr; injection Hr as <- <-; simpl;
      split; [done|]; split; [done|]; right; left;
      split_and!; [by intros ?|by eexists|done]
    | destruct (StartEvent.image_path se) as [path|]; [|by apply ret_inv in H as [? _]];
      apply bind_Return_inv in H as (img & wa & Ha & H); apply call_inv in Ha as [_ <-];
      apply bind_Return_inv in H as (payload & wb & Hb & H);
      unfold image_to_base64 in Hb;
      apply bind_Return_inv in Hb as (bytes & wb' & Hsave & Hb);
      apply call_inv in Hsave as [Hsave <-]; apply ret_inv in Hb as [<- <-];
      apply bind_Return_inv in H as (document & wc & Hc & H);
      unfold new_image_node, bind, fresh_node_id, ret in Hc; injection Hc as <- <-;
      apply bind_Return_inv in H as (r & wd & Hd & H);
      unfold alloc_node in Hd; injection Hd as <- <-;
      apply bind_Return_inv in H as (conf & we & Hfield & H);
      apply ret_inv in H as [[= <-] <-]; eexists; simpl;
      (split; [exact Hfield|]); simpl;
      split; [done|]; split; [done|]; right; right;
      split_and!; [by intros ?|done|done|];
      eexists; split; [by rewrite lookup_insert_eq|]; split_and!; [done..| |by eauto];
      apply not_elem_of_dom, is_fresh ].
Qed.

(** What the validation makes of the class default. *)
Lemma validated_default :
  dict_of_tuple _default_predictor_configuration = Some {[ "model_name" := VStr "sam_settings" ]}.
Proof. reflexivity. Qed.

(** Where the configuration of the stage-1 event comes from: it is the
    caller's dict, or the new dict that validation makes of the class
    default, which holds one entry, [model_name], whose value is the name
    of the second key of the default. *)
Lemma load_image_configuration_origin (P : Providers) se w ev w1 :
  load_image P se w = (Return (inl ev), w1) →
  (∃ r, StartEvent.segmentation_configuration se = Some (ConfDict r) ∧
        ImageLoadedEvent.segmentation_configuration ev = ConfDict r ∧
        validated w1 = validated w) ∨
  (StartEvent.segmentation_configuration se = None ∧
   ∃ r, ImageLoadedEvent.segmentation_configuration ev = ConfValidated r ∧
        validated w !! r = None ∧
        validated w1 = <[r := {[ "model_name" := VStr "sam_settings" ]}]> (validated w)).
Proof.
  intros Hload.
  apply load_image_Return_inv in Hload as (w0 & Hfield & _ & Hv & _).
  apply dict_field_inv in Hfield as [(r & Hvalue & -> & ->)|(t & d & Hvalue & Hd & -> & ->)].
  - left. exists r. destruct (StartEvent.segmentation_configuration se); [|discriminate].
    injection Hvalue as ->. done.
  - right. destruct (StartEvent.segmentation_configuration se); [discriminate|].
    injection Hvalue as <-. split; [done|].
    rewrite validated_default in Hd. injection Hd as <-.
    eexists. split; [done|]. rewrite <- Hv. split; [|done].
    apply not_elem_of_dom, is_fresh.
Qed.

(** A caller's configuration reaches stage 2 as the object it is, which is
    a dict of the caller. *)
Lemma load_image_configuration_carried (P : Providers) se w ev w1 c :
  load_image P se w = (Return (inl ev), w1) →
  StartEvent.segmentation_configuration se = Some c →
  ImageLoadedEvent.segmentation_configuration ev = c ∧
  (∃ r, c = ConfDict r) ∧
  validated w1 = validated w.
Proof.
  intros Hload Hc.
  apply load_image_Return_inv in Hload as (w0 & Hfield & _ & Hv & _).
  rewrite Hc in Hfield.
  apply dict_field_inv in Hfield as [(r & [= ->] & -> & ->)|(t & d & [=] & _)].
  split_and!; [done|by exists r|done].
Qed.

(** No dict of the caller changes at stage 1. *)
Lemma load_image_dicts (P : Providers) se w out w1 :
  load_image P se w = (out, w1) → dicts w1 = dicts w.
Proof.
  intros Hload.
  exact (preserves_eq _ _ _ _ _
           (preserves_load_image P dicts ltac:(done) ltac:(done) ltac:(done) _) Hload).
Qed.

(** Without a caller's configuration, stage 2 receives a new dict that
    holds one entry, [model_name], whose value is the name of the second
    key of the default. *)
Lemma load_image_default_configuration (P : Providers) se w ev w1 :
  load_image P se w = (Return (inl ev), w1) →
  StartEvent.segmentation_configuration se = None →
  ∃ r,
    ImageLoadedEvent.segmentation_configuration ev = ConfValidated r ∧
    validated w !! r = None ∧
    validated w1 = <[r := {[ "model_name" := VStr "sam_settings" ]}]> (validated w).
Proof.
  intros Hload Hnone.
  apply load_image_Return_inv in Hload as (w0 & Hfield & _ & Hv & _).
  rewrite Hnone in Hfield.
  apply dict_field_inv in Hfield as [(r & [=] & _)|(t & d & [= <-] & Hd & -> & ->)].
  rewrite validated_default in Hd. injection Hd as <-.
  eexists. split; [done|]. rewrite <- Hv. split; [|done].
  apply not_elem_of_dom, is_fresh.
Qed.

Lemma conf_contains_dict r key w d :
  dicts w !! r = Some d →
  conf_contains (ConfDict r) key w = (Return (bool_decide (is_Some (d !! key))), w).
Proof. intros Hd. unfold conf_contains, bind, deref_dict. by rewrite Hd. Qed.

Lemma conf_setitem_dict r key v w d :
  dicts w !! r = Some d →
  conf_setitem (ConfDict r) key v w =
    (Return tt, with_dicts (λ h, <[r := <[key := v]> d]> h) w).
Proof. intros Hd. unfold conf_setitem, bind, deref_dict. by rewrite Hd. Qed.

Lemma create_bboxes_try_writes_prompt (P : Providers) (self : Workflow) ev w r d root complete prompt_text :
  ImageLoadedEvent.segmentation_configuration ev = ConfDict r →
  dicts w !! r = Some d →
  d !! "bbox_list" = None →
  d !! "prompt" = None →
  nodes w !! ImageLoadedEvent.image ev = Some root →
  multi_modal_llm self = Some complete →
  complete elicitation_prompt [root] = Return prompt_text →
  dicts (create_bboxes_try P self ev w).2 = <[r := <["prompt" := VStr prompt_text]> d]> (dicts w).
Proof.
  intros Hconf Hd Hbbox Hprompt Hroot Hllm Hcall.
  unfold create_bboxes_try. rewrite Hconf.
  erewrite bind_Return by (by apply conf_contains_dict).
  rewrite Hbbox, bool_decide_eq_false_2 by (by intros [? ?]).
  erewrite bind_Return by (by apply conf_contains_dict).
  rewrite Hprompt, bool_decide_eq_false_2 by (by intros [? ?]).
  set (w1 := with_llm_calls (llm_calls w ++ [(elicitation_prompt, [root])]) w).
  erewrite (bind_Return _ _ w tt (with_dicts (λ h, <[r := <["prompt" := VStr prompt_text]> d]> h) w1)).
  2:{ erewrite bind_Return by (unfold deref_node; rewrite Hroot; reflexivity).
      erewrite (bind_Return _ _ w prompt_text w1)
        by (unfold llm_complete; rewrite Hllm, Hcall; reflexivity).
      by apply conf_setitem_dict. }
  match goal with
  | |- dicts (?m ?w0).2 = _ =>
      assert (preserves dicts m) as Hrest
  end.
  { pose proof (preserves__detect_bboxes_with_owlv2 P dicts ltac:(done) ltac:(done)). frame. }
  by rewrite Hrest.
Qed.

Lemma create_bboxes_dicts (P : Providers) (self : Workflow) ev w :
  dicts (create_bboxes P self ev w).2 = dicts (create_bboxes_try P self ev w).2.
Proof.
  unfold create_bboxes, try_except, bind.
  by destruct (create_bboxes_try P self ev w) as [[e|a] w1].
Qed.

(** C9. When the caller's segmentation configuration is a dict with
    neither [bbox_list] nor [prompt] and the elicitation call returns a
    text, the run writes that text under [prompt] into the caller's own
    dict object: whatever way the run ends, the store then holds the
    caller's dict with that one key added, and no other dict has changed. *)
Theorem elicited_prompt_is_written_to_caller_dict (P : Providers) (self : Workflow)
    se w r d ev w1 root complete prompt_text outcome w' :
  StartEvent.segmentation_configuration se = Some (ConfDict r) →
  dicts w !! r = Some d →
  d !! "bbox_list" = None →
  d !! "prompt" = None →
  load_image P se w = (Return (inl ev), w1) →
  nodes w1 !! ImageLoadedEvent.image ev = Some root →
  multi_modal_llm self = Some complete →
  complete elicitation_prompt [root] = Return prompt_text →
  run P self se w = (outcome, w') →
  dicts w' = <[r := <["prompt" := VStr prompt_text]> d]> (dicts w).
Proof.
  intros Hse Hd Hbbox Hprompt Hload Hroot Hllm Hcall Hrun.
  destruct (load_image_configuration_carried _ _ _ _ _ _ Hload Hse) as (Hconf & _ & _).
  pose proof (load_image_dicts _ _ _ _ _ Hload) as Hdicts.
  assert (dicts w1 !! r = Some d) as Hd1 by (by rewrite Hdicts).
  pose proof (create_bboxes_try_writes_prompt P self ev w1 r d root complete prompt_text
                Hconf Hd1 Hbbox Hprompt Hroot Hllm Hcall) as Hwrite.
  rewrite <- create_bboxes_dicts, Hdicts in Hwrite.
  unfold run in Hrun. erewrite bind_Return in Hrun by exact Hload. cbv beta iota in Hrun.
  unfold bind at 1 in Hrun.
  destruct (create_bboxes P self ev w1) as [[e|[ev2|stop]] w2]; simpl in Hwrite.
  - by injection Hrun as <- <-.
  - rewrite <- Hwrite. eapply preserves_eq; [|exact Hrun].
    pose proof (preserves_parse_image P dicts ltac:(done) ltac:(done) ltac:(done)).
    pose proof (preserves_describe_image self dicts ltac:(done) ltac:(done)).
    frame.
  - by injection Hrun as <- <-.
Qed.

(** ** Stage 3: failures inside the [try] are local *)

Section Stage3Local.
Context (P : Providers).

Lemma predict_boxes_total predictor img bboxes w :
  Forall (λ bbox, ∃ ann, sam_predict P predictor img (box_of bbox) = Return ann) bboxes →
  ∃ anns,
    predict_boxes P predictor img bboxes w = (Return anns, w) ∧
    Forall2 (λ bbox ann, sam_predict P predictor img (box_of bbox) = Return ann) bboxes anns.
Proof.
  induction 1 as [|bbox rest [ann Hann] _ (anns & Hrest & Hall)]; simpl.
  - by exists [].
  - exists (ann :: anns). split; [|by constructor].
    erewrite bind_Return by (unfold call; rewrite Hann; reflexivity).
    by erewrite bind_Return by exact Hrest.
Qed.

Lemma crop_chunk_local image_node img ann bbox cropped w :
  masked_crop P img ann bbox = Return cropped →
  ∃ ev w',
    crop_chunk P image_node img ann bbox w = (Return (head (generated_chunks [ev])), w') ∧
    sent_events w' = sent_events w ++ [ev] ∧
    nodes w' = nodes w ∧
    region_event P image_node img ann bbox ev.
Proof.
  intros Hcrop. unfold crop_chunk.
  erewrite bind_Return by (unfold call; rewrite Hcrop; reflexivity).
  unfold try_except, build_chunk, image_to_base64.
  destruct (pil_save P cropped "JPEG") as [e|bytes] eqn:Hsave.
  { exists (WorkflowRuntimeError e). eexists. unfold bind, call. simpl.
    split_and!; [reflexivity..|]. exists cropped. auto. }
  destruct (_ref_doc_id image_node) as [e|source] eqn:Hsource.
  { exists (WorkflowRuntimeError e). eexists.
    unfold bind, call, new_image_node, bind, fresh_node_id, ret. simpl.
    split_and!; [reflexivity..|]. exists cropped. auto. }
  eexists (ImageChunkGenerated _). eexists.
  unfold bind, call, new_image_node, bind, fresh_node_id, ret, send_event. simpl.
  split_and!; [reflexivity..|]. exists cropped. split; [done|]. by eexists _, _, _.
Qed.

Lemma crop_chunks_local image_node img pairs w :
  Forall (λ p, ∃ cropped, masked_crop P img p.1 p.2 = Return cropped) pairs →
  ∃ events w',
    crop_chunks P image_node img pairs w = (Return (generated_chunks events), w') ∧
    sent_events w' = sent_events w ++ events ∧
    nodes w' = nodes w ∧
    Forall2 (λ p ev, region_event P image_node img p.1 p.2 ev) pairs events.
Proof.
  intros Hall. revert w.
  induction Hall as [|[ann bbox] rest [cropped Hcrop] _ IH]; intros w; simpl.
  - exists [], w. split_and!; [done|by rewrite app_nil_r|done|constructor].
  - destruct (crop_chunk_local image_node img ann bbox cropped w Hcrop)
      as (ev & w1 & Hone & Hsent & Hnodes & Hev).
    destruct (IH w1) as (events & w2 & Hrest & Hsent' & Hnodes' & Hevs).
    exists (ev :: events), w2. split_and!.
    + erewrite bind_Return by exact Hone.
      erewrite bind_Return by exact Hrest.
      unfold ret. by destruct ev.
    + by rewrite Hsent', Hsent, <- app_assoc.
    + congruence.
    + by constructor.
Qed.

End Stage3Local.

Lemma register_children_total root image_chunks w image_node :
  nodes w !! root = Some image_node →
  (∀ info, relationships image_node !! CHILD ≠ Some (One info)) →
  ∃ w', register_children root image_chunks w = (Return tt, w') ∧
        sent_events w' = sent_events w.
Proof.
  intros Hroot Hchildren. unfold register_children.
  erewrite bind_Return by (unfold deref_node; rewrite Hroot; reflexivity).
  destruct (relationships image_node !! CHILD) as [[info|infos]|] eqn:Hchild;
    [by destruct (Hchildren info)| |];
    (erewrite bind_Return by reflexivity); by eexists.
Qed.

(** A region whose mask, composite or crop raises ends the second loop. *)
Lemma crop_chunks_raises (P : Providers) image_node img pairs w :
  Exists (λ p, ∃ e, masked_crop P img p.1 p.2 = Raise e) pairs →
  raises (crop_chunks P image_node img pairs) w.
Proof.
  intros Hex. revert w.
  induction Hex as [[ann bbox] rest [e He]|[ann bbox] rest _ IH]; intros w; simpl.
  - apply raises_bind_l. exists e, w. unfold crop_chunk.
    apply bind_Raise. unfold call. simpl in He. by rewrite He.
  - apply raises_bind. intros produced w1 _. apply raises_bind_l, IH.
Qed.

(** Once stage 3 is set up and every region has its prediction, the stage
    is at its second loop over the predictions zipped with the regions. *)
Lemma parse_reaches_second_loop (P : Providers) root r w image_node img predictor bboxes :
  stage3_set_up P root r w image_node img predictor bboxes →
  Forall (λ bbox, ∃ ann, sam_predict P predictor img (box_of bbox) = Return ann) bboxes →
  ∃ anns,
    Forall2 (λ bbox ann, sam_predict P predictor img (box_of bbox) = Return ann) bboxes anns ∧
    _parse_image_node_with_sam2 P root (ConfDict r) w =
      bind (crop_chunks P image_node img (zip anns bboxes))
        (λ image_chunks, do_ register_children root image_chunks; ret image_chunks) w.
Proof.
  intros [Hroot Himg (d & model_name & settings & Hd & Hname & Hsettings & Hlist & Hsam) Hset _]
    Hpredictions.
  destruct (predict_boxes_total P predictor img bboxes w Hpredictions) as (anns & Hpredict & Hanns).
  exists anns. split; [done|].
  unfold _parse_image_node_with_sam2.
  erewrite bind_Return by (unfold deref_node; rewrite Hroot; reflexivity).
  erewrite bind_Return by (unfold call; rewrite Himg; reflexivity).
  erewrite bind_Return by (unfold conf_get, bind, deref_dict; rewrite Hd; reflexivity).
  erewrite bind_Return by (unfold conf_getitem, bind, deref_dict; rewrite Hd, Hname; reflexivity).
  rewrite Hsettings.
  erewrite bind_Return by reflexivity.
  erewrite bind_Return by (unfold call; rewrite Hsam; reflexivity).
  erewrite bind_Return by (unfold call; rewrite Hset; reflexivity).
  erewrite bind_Return by (unfold conf_getitem, bind, deref_dict; rewrite Hd, Hlist; reflexivity).
  erewrite bind_Return by reflexivity.
  erewrite bind_Return by exact Hpredict.
  erewrite bind_Return by (unfold conf_getitem, bind, deref_dict; rewrite Hd, Hlist; reflexivity).
  by erewrite bind_Return by reflexivity.
Qed.

(** C8, as amended. Stage 3 being set up and every region of the list
    having its prediction:
    - if the mask, composite and crop of every region succeed, the stage
      returns; each region, in list order, sends exactly one event, the
      chunk built from it or the diagnostic of what the [try] body raised
      for it (the JPEG encoding, the lineage resolution), and the returned
      chunks are those that were sent, in order: a region whose encoding
      fails is skipped and the regions after it are still processed;
    - if the mask, composite or crop of some region raises, the stage
      raises: those steps are outside the [try]. *)
Theorem encode_failures_are_local (P : Providers) root r w image_node img predictor bboxes :
  stage3_set_up P root r w image_node img predictor bboxes →
  Forall (λ bbox, ∃ ann, sam_predict P predictor img (box_of bbox) = Return ann) bboxes →
  (Forall (region_croppable P predictor img) bboxes →
   ∃ events w',
     _parse_image_node_with_sam2 P root (ConfDict r) w = (Return (generated_chunks events), w') ∧
     sent_events w' = sent_events w ++ events ∧
     Forall2 (region_outcome P image_node predictor img) bboxes events) ∧
  (Exists (λ bbox, ∃ ann e,
             sam_predict P predictor img (box_of bbox) = Return ann ∧
             masked_crop P img ann bbox = Raise e) bboxes →
   raises (_parse_image_node_with_sam2 P root (ConfDict r)) w).
Proof.
  intros Hset Hpredictions. unfold raises.
  destruct (parse_reaches_second_loop P root r w image_node img predictor bboxes Hset Hpredictions)
    as (anns & Hanns & ->).
  destruct Hset as [Hroot _ _ _ Hchildren].
  split.
  - intros Hall.
    destruct (crop_chunks_local P image_node img (zip anns bboxes) w)
      as (events & w1 & Hcrop & Hsent & Hnodes & Hevents).
    { apply Forall_forall. intros [ann bbox] Hin. simpl.
      apply list_elem_of_lookup in Hin as [i Hi].
      apply lookup_zip_with_Some in Hi as (a & b & [= <- <-] & Ha & Hb).
      rewrite Forall_forall in Hall. destruct (Hall bbox) as (ann' & cropped & Hann' & Hcropped).
      { by eapply list_elem_of_lookup_2. }
      pose proof (Forall2_lookup_lr _ _ _ _ _ _ Hanns Hb Ha) as Hann. simpl in Hann.
      exists cropped. congruence. }
    destruct (register_children_total root (generated_chunks events) w1 image_node)
      as (w2 & Hregister & Hsent2); [congruence|done|].
    exists events, w2. split_and!.
    + erewrite bind_Return by exact Hcrop. by erewrite bind_Return by exact Hregister.
    + congruence.
    + clear -Hanns Hevents.
      revert anns events Hanns Hevents.
      induction bboxes as [|bbox rest IH]; intros anns events Hanns Hevents.
      * apply Forall2_nil_inv_l in Hanns as ->. simpl in Hevents.
        apply Forall2_nil_inv_l in Hevents as ->. constructor.
      * apply Forall2_cons_inv_l in Hanns as (ann & anns' & Hann & Hanns' & ->).
        simpl in Hevents.
        apply Forall2_cons_inv_l in Hevents as (ev & events' & Hev & Hevents' & ->).
        constructor; [by exists ann|by eapply IH].
  - intros Hex. apply (raises_bind_l (crop_chunks P image_node img (zip anns bboxes))).
    apply crop_chunks_raises.
    apply Exists_exists in Hex as (bbox & Hin & ann & e & Hann & He).
    apply list_elem_of_lookup in Hin as [i Hi].
    destruct (Forall2_lookup_l _ _ _ _ _ Hanns Hi) as (ann' & Hi' & Hann').
    apply Exists_exists. exists (ann', bbox). split.
    + apply list_elem_of_lookup. exists i. apply lookup_zip_with_Some. eauto.
    + exists e. simpl. congruence.
Qed.

(** C7, as amended. At stage 1 a segmentation configuration that the
    caller supplies is handed to stage 2 as the caller's own object, and no
    dict of the store is changed: nothing is merged into it. For the path
    input form the loaded event carries the default detection
    configuration, [confidence = 0.1] and [nms_threshold = 0.3], whatever
    detection configuration the caller supplied. *)
Theorem load_image_configuration (P : Providers) se w ev w1 :
  load_image P se w = (Return (inl ev), w1) →
  (∀ c, StartEvent.segmentation_configuration se = Some c →
        ImageLoadedEvent.segmentation_configuration ev = c) ∧
  dicts w1 = dicts w ∧
  ((∀ r, StartEvent.image se ≠ Some (ObjImageNode r)) →
   StartEvent.base64_image se = None →
   ImageLoadedEvent.object_detection_configuration ev = Some _object_detection_configuration) ∧
  _object_detection_configuration !! "confidence" = Some (VNum (1 # 10)%Q) ∧
  _object_detection_configuration !! "nms_threshold" = Some (VNum (3 # 10)%Q).
Proof.
  intros Hload. split_and!.
  - intros c Hc. by destruct (load_image_configuration_carried _ _ _ _ _ _ Hload Hc).
  - by eapply load_image_dicts.
  - intros Himage Hbase64.
    apply load_image_Return_inv in Hload
      as (w0 & _ & _ & _ & [([r Hr] & _)|[(_ & [payload Hp] & _)|(_ & _ & Hodc & _)]]).
    + by destruct (Himage r).
    + congruence.
    + done.
  - reflexivity.
  - reflexivity.
Qed.

(** ** Stage 2 and the region list *)

Section Stage2.
Context (P : Providers) (self : Workflow).

Lemma maintains_bind {A B} I (m : M A) (k : A → M B) :
  maintains I m → (∀ a, maintains I (k a)) → maintains I (bind m k).
Proof.
  intros Hm Hk w out w' HI. unfold bind.
  destruct (m w) as [[e|a] w1] eqn:Hmw.
  - intros [= <- <-]. by eapply Hm.
  - apply Hk. by eapply Hm.
Qed.

Lemma maintains_preserved {A} r (m : M A) : preserves dicts m → maintains (no_bbox_list r) m.
Proof.
  intros Hm w out w' (d & Hd & Hbbox) Hrun. exists d.
  by rewrite (preserves_eq _ _ _ _ _ Hm Hrun).
Qed.

Lemma maintains_set_prompt r conf v : maintains (no_bbox_list r) (conf_setitem conf "prompt" v).
Proof.
  intros w out w' (d & Hd & Hbbox). destruct conf as [r'|r']; simpl.
  - unfold bind, deref_dict. destruct (dicts w !! r') as [d'|] eqn:Hd'.
    + intros [= <- <-]. unfold no_bbox_list. simpl.
      destruct (decide (r' = r)) as [->|Hne].
      * exists (<["prompt" := v]> d'). rewrite lookup_insert_eq. split; [done|].
        rewrite lookup_insert_ne by done. congruence.
      * exists d. by rewrite lookup_insert_ne.
    + intros [= <- <-]. by exists d.
  - unfold bind, deref_validated. destruct (validated w !! r') as [d'|].
    + intros [= <- <-]. by exists d.
    + intros [= <- <-]. by exists d.
Qed.

Lemma maintains_validated_preserved {A} r (m : M A) :
  preserves validated m → maintains (no_validated_bbox_list r) m.
Proof.
  intros Hm w out w' (d & Hd & Hbbox) Hrun. exists d.
  by rewrite (preserves_eq _ _ _ _ _ Hm Hrun).
Qed.

Lemma maintains_validated_set_prompt r conf v :
  maintains (no_validated_bbox_list r) (conf_setitem conf "prompt" v).
Proof.
  intros w out w' (d & Hd & Hbbox). destruct conf as [r'|r']; simpl.
  - unfold bind, deref_dict. destruct (dicts w !! r') as [d'|].
    + intros [= <- <-]. by exists d.
    + intros [= <- <-]. by exists d.
  - unfold bind, deref_validated. destruct (validated w !! r') as [d'|] eqn:Hd'.
    + intros [= <- <-]. unfold no_validated_bbox_list. simpl.
      destruct (decide (r' = r)) as [->|Hne].
      * exists (<["prompt" := v]> d'). rewrite lookup_insert_eq. split; [done|].
        rewrite lookup_insert_ne by done. congruence.
      * exists d. by rewrite lookup_insert_ne.
    + intros [= <- <-]. by exists d.
Qed.

(** A run of the [try] body of [create_bboxes] that starts without a
    [bbox_list] key ends without one: the body writes [prompt] only. *)
Lemma create_bboxes_try_leaves_bbox_list_absent ev r :
  maintains (no_bbox_list r) (create_bboxes_try P self ev).
Proof.
  assert (∀ prompt confidence nms,
            preserves dicts (_detect_bboxes_with_owlv2 P (ImageLoadedEvent.image ev)
                               prompt confidence nms)) as Hdetect
    by (intros; by apply preserves__detect_bboxes_with_owlv2).
  assert (∀ docs, preserves dicts (llm_complete self elicitation_prompt docs)) as Hllm
    by (intros; by apply preserves_elicitation).
  unfold create_bboxes_try. cbv zeta.
  repeat first
    [ apply maintains_set_prompt
    | apply maintains_preserved; solve [frame]
    | apply maintains_bind; [|intros ?]
    | match goal with |- maintains _ (if ?b then _ else _) => destruct b end ].
Qed.

Lemma create_bboxes_try_leaves_validated_bbox_list_absent ev r :
  maintains (no_validated_bbox_list r) (create_bboxes_try P self ev).
Proof.
  assert (∀ prompt confidence nms,
            preserves validated (_detect_bboxes_with_owlv2 P (ImageLoadedEvent.image ev)
                                   prompt confidence nms)) as Hdetect
    by (intros; by apply preserves__detect_bboxes_with_owlv2).
  assert (∀ docs, preserves validated (llm_complete self elicitation_prompt docs)) as Hllm
    by (intros; by apply preserves_elicitation).
  unfold create_bboxes_try. cbv zeta.
  repeat first
    [ apply maintains_validated_set_prompt
    | apply maintains_validated_preserved; solve [frame]
    | apply maintains_bind; [|intros ?]
    | match goal with |- maintains _ (if ?b then _ else _) => destruct b end ].
Qed.

(** One step of a computation whose continuation is shown to raise: the
    fact [Hd] about the dicts is carried over the step. *)
Ltac raises_step Hd :=
  apply raises_bind;
  let H := fresh "Hstep" in
  intros ? ? H; apply (preserves_eq dicts) in H; [|solve [frame]];
  rewrite <- H in Hd; clear H.

(** Without a [bbox_list] key, [_parse_image_node_with_sam2] raises before
    its first loop. *)
Lemma parse_raises_without_bbox_list root r d w :
  dicts w !! r = Some d →
  d !! "bbox_list" = None →
  raises (_parse_image_node_with_sam2 P root (ConfDict r)) w.
Proof.
  intros Hd Hbbox. unfold _parse_image_node_with_sam2.
  do 7 raises_step Hd.
  exists (KeyError "bbox_list"). eexists.
  apply bind_Raise. unfold conf_getitem, bind, deref_dict. by rewrite Hd, Hbbox.
Qed.

Ltac raises_step_validated Hd :=
  apply raises_bind;
  let H := fresh "Hstep" in
  intros ? ? H; apply (preserves_eq validated) in H; [|solve [frame]];
  rewrite <- H in Hd; clear H.

(** So it does on a dict that validation made. *)
Lemma parse_raises_without_validated_bbox_list root r d w :
  validated w !! r = Some d →
  d !! "bbox_list" = None →
  raises (_parse_image_node_with_sam2 P root (ConfValidated r)) w.
Proof.
  intros Hd Hbbox. unfold _parse_image_node_with_sam2.
  do 7 raises_step_validated Hd.
  exists (KeyError "bbox_list"). eexists.
  apply bind_Raise. unfold conf_getitem, bind, deref_validated. by rewrite Hd, Hbbox.
Qed.

(** When stage 2 starts without a region list and hands over to stage 3,
    whatever the detector returned, stage 3 raises: the regions stage 2
    detected are not what stage 3 iterates over. *)
Lemma stage3_raises_after_detection ev w ev2 w2 :
  conf_contains (ImageLoadedEvent.segmentation_configuration ev) "bbox_list" w = (Return false, w) →
  create_bboxes P self ev w = (Return (inl ev2), w2) →
  ∃ e w3, parse_image P ev2 w2 = (Raise e, w3).
Proof.
  intros Hcontains Hboxes.
  unfold create_bboxes in Hboxes.
  apply bind_Return_inv in Hboxes as (stopped & w0 & Hboxes & Hret).
  destruct stopped as [stop|]; [by apply ret_inv in Hret as [? _]|].
  apply ret_inv in Hret as [[= <-] ->].
  apply try_except_Return_inv in Hboxes as [Hbody|(e & w1 & _ & Hhandler)].
  2:{ apply bind_Return_inv in Hhandler as (? & ? & _ & H).
      apply bind_Return_inv in H as (? & ? & H & _). discriminate H. }
  apply bind_Return_inv in Hbody as (bbox_list & w1 & Htry & Hret).
  apply ret_inv in Hret as [_ ->].
  destruct (ImageLoadedEvent.segmentation_configuration ev) as [r|r] eqn:Hconf.
  - unfold conf_contains, bind, deref_dict in Hcontains.
    destruct (dicts w !! r) as [d|] eqn:Hd; [|discriminate].
    injection Hcontains as Hcontains. apply bool_decide_eq_false in Hcontains.
    assert (d !! "bbox_list" = None) as Hbbox.
    { destruct (d !! "bbox_list"); [by destruct Hcontains|done]. }
    destruct (create_bboxes_try_leaves_bbox_list_absent ev r w _ _
                (ex_intro _ d (conj Hd Hbbox)) Htry) as (d' & Hd' & Hbbox').
    destruct (parse_raises_without_bbox_list (ImageLoadedEvent.image ev) r d' w2 Hd' Hbbox')
      as (e & w3 & Hparse).
    exists e, w3. unfold parse_image. simpl. by erewrite bind_Raise by exact Hparse.
  - unfold conf_contains, bind, deref_validated in Hcontains.
    destruct (validated w !! r) as [d|] eqn:Hd; [|discriminate].
    injection Hcontains as Hcontains. apply bool_decide_eq_false in Hcontains.
    assert (d !! "bbox_list" = None) as Hbbox.
    { destruct (d !! "bbox_list"); [by destruct Hcontains|done]. }
    destruct (create_bboxes_try_leaves_validated_bbox_list_absent ev r w _ _
                (ex_intro _ d (conj Hd Hbbox)) Htry) as (d' & Hd' & Hbbox').
    destruct (parse_raises_without_validated_bbox_list (ImageLoadedEvent.image ev) r d' w2
                Hd' Hbbox') as (e & w3 & Hparse).
    exists e, w3. unfold parse_image. simpl. by erewrite bind_Raise by exact Hparse.
Qed.

(** A detector that raises makes the [try] body of stage 2 raise, whenever
    the configuration has no region list. *)
Lemma detector_failure_raises_in_stage2 ev w :
  conf_contains (ImageLoadedEvent.segmentation_configuration ev) "bbox_list" w = (Return false, w) →
  (∀ img texts confidence nms, ∃ e, owl_detect P img texts confidence nms = Raise e) →
  stage2_raises P self ev w.
Proof.
  intros Hcontains Hdetector. unfold stage2_raises.
  destruct (create_bboxes_try P self ev w) as [[e|bbox_list] w'] eqn:Htry; [eauto|].
  exfalso. unfold create_bboxes_try in Htry.
  erewrite bind_Return in Htry by exact Hcontains.
  apply bind_Return_inv in Htry as (has_prompt & w1 & _ & Htry).
  apply bind_Return_inv in Htry as ([] & w2 & _ & Htry).
  apply bind_Return_inv in Htry as (prompt & w3 & _ & Htry).
  apply bind_Return_inv in Htry as (odc & w4 & _ & Htry).
  apply bind_Return_inv in Htry as (regions & w5 & Hdetect & _).
  unfold _detect_bboxes_with_owlv2 in Hdetect.
  apply bind_Return_inv in Hdetect as (node & w6 & _ & Hdetect).
  apply bind_Return_inv in Hdetect as (img & w7 & _ & Hdetect).
  apply bind_Return_inv in Hdetect as ([] & w8 & _ & Hdetect).
  apply bind_Return_inv in Hdetect as ([] & w9 & _ & Hdetect).
  apply bind_Return_inv in Hdetect as (prompt_text & w10 & _ & Hdetect).
  apply bind_Return_inv in Hdetect as (results & w11 & Hcall & _).
  apply call_inv in Hcall as [Hcall _].
  destruct (Hdetector img (map strip (split_on newline prompt_text))
              (default (VNum (1 # 10)%Q) (odc !! "confidence"))
              (default (VNum (3 # 10)%Q) (odc !! "nms_threshold"))) as [e He].
  congruence.
Qed.

(** So does a prompt elicitation that raises, whenever the configuration
    has neither a region list nor a prompt. *)
Lemma elicitation_failure_raises_in_stage2 ev w complete :
  conf_contains (ImageLoadedEvent.segmentation_configuration ev) "bbox_list" w = (Return false, w) →
  conf_contains (ImageLoadedEvent.segmentation_configuration ev) "prompt" w = (Return false, w) →
  multi_modal_llm self = Some complete →
  (∀ docs, ∃ e, complete elicitation_prompt docs = Raise e) →
  stage2_raises P self ev w.
Proof.
  intros Hbbox Hprompt Hllm Hraises. unfold stage2_raises.
  unfold create_bboxes_try. cbv zeta.
  erewrite bind_Return by exact Hbbox. cbv beta iota.
  erewrite bind_Return by exact Hprompt. cbv beta iota.
  unfold bind at 1 2. unfold deref_node at 1.
  destruct (nodes w !! ImageLoadedEvent.image ev) as [root|]; [|eauto].
  unfold llm_complete at 1. rewrite Hllm.
  destruct (Hraises [root]) as [e ->]. eauto.
Qed.

End Stage2.

(** ** Evaluations: counterexamples to the claims that fail *)

(** C1, at the failing input: a run from a path, with a caller
    configuration that names the model and the prompt and holds no region
    list. Stage 2 detects one region and returns its event; the
    configuration that event carries still has no [bbox_list]; stage 3
    raises [KeyError] on it and the run ends with that exception. The
    lemma [stage3_raises_after_detection] shows the same for every run
    that reaches stage 3 through the detector. *)
Theorem detected_regions_do_not_reach_stage3 :
  ∃ ev w1 ev2 w2,
    load_image demo_providers (path_start (Some (ConfDict 1)) None)
      (world_with_configuration prompt_configuration) = (Return (inl ev), w1) ∧
    (create_bboxes_try demo_providers (demo_workflow []) ev w1).1 =
      Return (Some [ {| x1 := 10 # 1; y1 := 10 # 1; x2 := 50 # 1; y2 := 50 # 1;
                        label := LabelIndex 0; score := 9 # 10 |}%Q ]) ∧
    create_bboxes demo_providers (demo_workflow []) ev w1 = (Return (inl ev2), w2) ∧
    conf_contains (BBoxCreatedEvent.segmentation_configuration ev2) "bbox_list" w2 =
      (Return false, w2) ∧
    (parse_image demo_providers ev2 w2).1 = Raise (KeyError "bbox_list") ∧
    (run demo_providers (demo_workflow []) (path_start (Some (ConfDict 1)) None)
       (world_with_configuration prompt_configuration)).1 = Raise (KeyError "bbox_list").
Proof.
  eexists _, _, _, _.
  split; [vm_compute; reflexivity|].
  split; [vm_compute; reflexivity|].
  split; [vm_compute; reflexivity|].
  split; [vm_compute; reflexivity|].
  split; vm_compute; reflexivity.
Qed.

(** C2, at the failing input: a run from a path whose configuration holds
    the prompt, with a detector that raises. The [try] body of stage 2
    raises the detector's exception; the handler logs it and then builds
    the stop event with a keyword its constructor does not take, so the
    handler itself raises [TypeError] and the run ends with that
    exception: the run returns no failure reason, and nothing else. The
    lemma [run_raises_when_stage2_raises] shows the same for every run
    whose stage 2 fails. *)
Theorem detection_failure_raises_from_the_handler :
  ∃ ev w1,
    load_image failing_detector_providers (path_start (Some (ConfDict 1)) None)
      (world_with_configuration prompt_configuration) = (Return (inl ev), w1) ∧
    (create_bboxes_try failing_detector_providers (demo_workflow []) ev w1).1 =
      Raise (RuntimeError "CUDA out of memory") ∧
    (run failing_detector_providers (demo_workflow []) (path_start (Some (ConfDict 1)) None)
       (world_with_configuration prompt_configuration)).1 =
      Raise (TypeError "StopEvent.__init__() got an unexpected keyword argument 'reason'") ∧
    logged_errors
      (run failing_detector_providers (demo_workflow []) (path_start (Some (ConfDict 1)) None)
         (world_with_configuration prompt_configuration)).2 =
      [("Failed to create bounding boxes", RuntimeError "CUDA out of memory")].
Proof.
  eexists _, _.
  split; [vm_compute; reflexivity|].
  split; [vm_compute; reflexivity|].
  split; vm_compute; reflexivity.
Qed.

(** With no caller configuration at all, the default reaches stage 2 as a
    new dict whose only entry maps [model_name] to the name of the second
    key: stage 2 elicits a prompt and writes it there, the detector runs,
    and stage 3 raises [KeyError] on the missing [bbox_list]. *)
Example default_configuration_fails_in_stage3 :
  (run demo_providers (demo_workflow []) (path_start None None) empty_world).1 =
    Raise (KeyError "bbox_list") ∧
  validated (run demo_providers (demo_workflow []) (path_start None None) empty_world).2 =
    {[ 0 := {[ "model_name" := VStr "sam_settings"; "prompt" := VStr "chair" ]} ]}.
Proof. split; vm_compute; reflexivity. Qed.

(** C7 fails as worded: from a path, with a caller segmentation
    configuration that only sets [prompt] and a caller detection
    configuration that sets [confidence = 0.5], stage 2 receives a
    segmentation configuration without the default [model_name] and a
    detection configuration whose confidence is the default 0.1. *)
Lemma load_image_does_not_merge :
  ¬ stage1_merges_over_defaults demo_providers
      (path_start (Some (ConfDict 1)) (Some {[ "confidence" := VNum (1 # 2)%Q ]}))
      (world_with_configuration {[ "prompt" := VStr "chair" ]}).
Proof.
  intros Hmerge.
  destruct (load_image demo_providers
              (path_start (Some (ConfDict 1)) (Some {[ "confidence" := VNum (1 # 2)%Q ]}))
              (world_with_configuration {[ "prompt" := VStr "chair" ]})) as [out w1] eqn:Hload.
  vm_compute in Hload. injection Hload as <- <-.
  edestruct Hmerge as [_ Hdet]; [reflexivity..|].
  apply (f_equal (λ o, o ≫= (.!! "confidence"))) in Hdet.
  vm_compute in Hdet. discriminate Hdet.
Qed.

(** C8 fails as worded: with two regions supplied by the caller, the first
    of which has its right edge left of its left edge, the crop of the
    first raises outside the [try]; stage 3 raises [ValueError], sends no
    event at all, the second region is never processed, and the exception
    leaves the run. *)
Lemma crop_failure_aborts_stage3 :
  (_parse_image_node_with_sam2 demo_providers 0 (ConfDict 1)
     (demo_world [region 50 10 10 50; region 10 10 50 50])).1 =
    Raise (ValueError "Coordinate 'right' is less than 'left'") ∧
  sent_events
    (_parse_image_node_with_sam2 demo_providers 0 (ConfDict 1)
       (demo_world [region 50 10 10 50; region 10 10 50 50])).2 = [] ∧
  (run demo_providers (demo_workflow []) (demo_start (Some (ConfDict 1)))
     (demo_world [region 50 10 10 50; region 10 10 50 50])).1 =
    Raise (ValueError "Coordinate 'right' is less than 'left'") ∧
  ¬ region_failures_stay_local demo_providers 0 1
      (demo_world [region 50 10 10 50; region 10 10 50 50]).
Proof.
  split; [vm_compute; reflexivity|]. split; [vm_compute; reflexivity|].
  split; [vm_compute; reflexivity|].
  intros Hlocal.
  destruct (Hlocal demo_root ("cGl4ZWxz", false) tt [region 50 10 10 50; region 10 10 50 50])
    as (chunks & w' & Hparse).
  - constructor; try reflexivity; [|done].
    exists (demo_configuration [region 50 10 10 50; region 10 10 50 50]),
      (VStr "facebook/sam2-hiera-small"), ∅.
    split_and!; reflexivity.
  - repeat constructor; by eexists.
  - vm_compute in Hparse. discriminate Hparse.
Qed.

(** ** Witnesses: the hypotheses of the theorems hold on concrete runs *)

(** Evaluates the computation an equation [H : m w = (out, w')] is about and
    replaces [out] and [w'] by what it gives. *)
Ltac evaluate H :=
  let Hnf := fresh "Hnf" in
  pose proof H as Hnf; vm_compute in Hnf;
  first [ discriminate Hnf | injection Hnf as <- <- ].

(** C3 on a prebuilt root whose SOURCE is a document: both chunks point to
    the root as PARENT and to the document as SOURCE. *)
Lemma chunk_lineage_witness :
  ∃ chunks w',
    _parse_image_node_with_sam2 demo_providers 0 (ConfDict 1)
      (demo_world [region 10 10 50 50; region 0 0 7 7]) = (Return chunks, w') ∧
    length chunks = 2 ∧
    ∀ c, c ∈ chunks →
      relationships c !! PARENT = Some (One (as_related_node_info demo_root)) ∧
      relationships c !! SOURCE =
        Some (One {| related_node_id := "document-1"; related_metadata := ∅ |}).
Proof.
  destruct (_parse_image_node_with_sam2 demo_providers 0 (ConfDict 1)
              (demo_world [region 10 10 50 50; region 0 0 7 7])) as [out w'] eqn:Hparse.
  evaluate Hparse.
  eexists _, _. split; [reflexivity|]. split; [reflexivity|].
  intros c Hc.
  destruct (chunk_lineage demo_providers _ _ _ _ _ Hparse) as (image_node & Hroot & Hall).
  injection Hroot as <-.
  destruct (Hall c Hc) as (Hparent & source & Hsource & Hrule).
  split; [exact Hparent|].
  destruct Hrule as [Hrec|[Hnone _]]; [|discriminate Hnone].
  injection Hrec as <-. exact Hsource.
Defined.

(** C4 on three chunks, the second of which the LLM refuses. *)
Lemma descriptions_align_with_chunks_witness :
  multi_modal_llm (demo_workflow ["Yg=="]) = Some (demo_llm ["Yg=="]) ∧
  ∃ ds w',
    describe_image (demo_workflow ["Yg=="]) demo_parsed (demo_world []) =
      (Return {| StopEvent.result :=
                   Some {| Result.source := 0;
                           Result.chunks := ImageParsedEvent.chunks demo_parsed;
                           Result.descriptions := Some ds |};
                 StopEvent.reason := None |}, w') ∧
    length ds = 3 ∧
    length (llm_calls w') = 3 ∧
    Forall2 (description_entry (demo_llm ["Yg=="]) (Some demo_root))
      (ImageParsedEvent.chunks demo_parsed) ds.
Proof.
  split; [reflexivity|].
  exact (descriptions_align_with_chunks (demo_workflow ["Yg=="]) (demo_llm ["Yg=="])
           demo_parsed (demo_world []) eq_refl).
Defined.

(** C5 on a run whose caller supplies an empty region list. *)
Lemma empty_parse_stops_before_captioning_witness :
  ∃ ev1 w1 ev2 w2 w3,
    load_image demo_providers (demo_start (Some (ConfDict 1))) (demo_world []) =
      (Return (inl ev1), w1) ∧
    create_bboxes demo_providers (demo_workflow []) ev1 w1 = (Return (inl ev2), w2) ∧
    _parse_image_node_with_sam2 demo_providers (BBoxCreatedEvent.image ev2)
      (BBoxCreatedEvent.segmentation_configuration ev2) w2 = (Return [], w3) ∧
    run demo_providers (demo_workflow []) (demo_start (Some (ConfDict 1))) (demo_world []) =
      (Return {| StopEvent.result :=
                   Some {| Result.source := BBoxCreatedEvent.image ev2; Result.chunks := [];
                           Result.descriptions := None |};
                 StopEvent.reason := None |}, w3) ∧
    description_calls w3 = description_calls (demo_world []).
Proof.
  destruct (load_image demo_providers (demo_start (Some (ConfDict 1))) (demo_world []))
    as [out w1] eqn:Hload.
  evaluate Hload.
  match type of Hload with
  | _ = (Return (inl ?ev1), ?w1) =>
      destruct (create_bboxes demo_providers (demo_workflow []) ev1 w1) as [out w2] eqn:Hboxes
  end.
  evaluate Hboxes.
  match type of Hboxes with
  | _ = (Return (inl ?ev2), ?w2) =>
      destruct (_parse_image_node_with_sam2 demo_providers (BBoxCreatedEvent.image ev2)
                  (BBoxCreatedEvent.segmentation_configuration ev2) w2)
        as [out w3] eqn:Hparse
  end.
  evaluate Hparse.
  eexists _, _, _, _, _.
  split; [exact Hload|]. split; [exact Hboxes|]. split; [exact Hparse|].
  exact (empty_parse_stops_before_captioning demo_providers (demo_workflow [])
           _ _ _ _ _ _ _ Hload Hboxes Hparse).
Defined.

(** C6 on three regions: the root, which had no CHILD collection, ends
    with the references of the second and third chunk. *)
Lemma children_registration_witness :
  ∃ chunks w' registered,
    _parse_image_node_with_sam2 demo_providers 0 (ConfDict 1)
      (demo_world [region 10 10 50 50; region 0 0 7 7; region 1 1 9 9]) = (Return chunks, w') ∧
    length chunks = 3 ∧
    nodes w' !! 0 = Some registered ∧
    relationships registered !! CHILD =
      Some (Many (map as_related_node_info (tail chunks))) ∧
    relationships registered !! SOURCE = relationships demo_root !! SOURCE.
Proof.
  assert (returns_list_of 3
            (_parse_image_node_with_sam2 demo_providers 0 (ConfDict 1)
               (demo_world [region 10 10 50 50; region 0 0 7 7; region 1 1 9 9])).1)
    as Hshape by (vm_compute; reflexivity).
  destruct (_parse_image_node_with_sam2 demo_providers 0 (ConfDict 1)
              (demo_world [region 10 10 50 50; region 0 0 7 7; region 1 1 9 9]))
    as [[e|chunks] w'] eqn:Hparse; [destruct Hshape|].
  destruct (children_registration demo_providers _ _ _ _ _ Hparse)
    as (image_node & children & registered & Hroot & Hchildren & Hstored & Hchild & Hothers & _).
  assert (image_node = demo_root) as -> by (by injection Hroot).
  destruct Hchildren as [Hsome|[_ ->]]; [discriminate Hsome|].
  exists chunks, w', registered. split; [reflexivity|]. split; [exact Hshape|].
  split; [exact Hstored|]. split; [exact Hchild|]. by apply Hothers.
Defined.

(** C9 on a run from a path whose caller configuration only names the
    model: the run ends with [KeyError] in stage 3, and the caller's dict
    holds the elicited prompt. *)
Lemma elicited_prompt_is_written_to_caller_dict_witness :
  ∃ w',
    run demo_providers (demo_workflow []) (path_start (Some (ConfDict 1)) None)
      (world_with_configuration {[ "model_name" := VStr "facebook/sam2-hiera-small" ]}) =
      (Raise (KeyError "bbox_list"), w') ∧
    dicts w' =
      <[1 := <["prompt" := VStr "chair"]>
               {[ "model_name" := VStr "facebook/sam2-hiera-small" ]}]>
        (dicts (world_with_configuration {[ "model_name" := VStr "facebook/sam2-hiera-small" ]})).
Proof.
  destruct (run demo_providers (demo_workflow []) (path_start (Some (ConfDict 1)) None)
              (world_with_configuration {[ "model_name" := VStr "facebook/sam2-hiera-small" ]}))
    as [out w'] eqn:Hrun.
  destruct (load_image demo_providers (path_start (Some (ConfDict 1)) None)
              (world_with_configuration {[ "model_name" := VStr "facebook/sam2-hiera-small" ]}))
    as [loaded w1] eqn:Hload.
  evaluate Hrun. evaluate Hload.
  eexists. split; [reflexivity|].
  exact (elicited_prompt_is_written_to_caller_dict demo_providers (demo_workflow [])
           (path_start (Some (ConfDict 1)) None)
           (world_with_configuration {[ "model_name" := VStr "facebook/sam2-hiera-small" ]})
           1 {[ "model_name" := VStr "facebook/sam2-hiera-small" ]} _ _ _
           (demo_llm []) "chair" _ _
           eq_refl eq_refl eq_refl eq_refl Hload eq_refl eq_refl eq_refl Hrun).
Defined.

(** C10 on a PNG root: both chunks declare [image/png] and carry JPEG. *)
Lemma chunk_content_is_jpeg_mimetype_is_copied_witness :
  ∃ chunks w',
    _parse_image_node_with_sam2 demo_providers 0 (ConfDict 1)
      (demo_world [region 10 10 50 50; region 0 0 7 7]) = (Return chunks, w') ∧
    length chunks = 2 ∧
    ∀ c, c ∈ chunks →
      (∃ cropped bytes,
         demo_save cropped "JPEG" = Return bytes ∧ image c = Some (b64encode bytes)) ∧
      mimetype c = Some "image/png" ∧
      ¬ declares_jpeg (mimetype c).
Proof.
  destruct (_parse_image_node_with_sam2 demo_providers 0 (ConfDict 1)
              (demo_world [region 10 10 50 50; region 0 0 7 7])) as [out w'] eqn:Hparse.
  evaluate Hparse.
  eexists _, _. split; [reflexivity|]. split; [reflexivity|].
  intros c Hc.
  destruct (chunk_content_is_jpeg_mimetype_is_copied demo_providers _ _ _ _ _ Hparse)
    as (image_node & Hroot & Hall).
  injection Hroot as <-.
  destruct (Hall c Hc) as (Hjpeg & Hmime & Hdeclared).
  split; [exact Hjpeg|]. split; [exact Hmime|].
  apply Hdeclared. intros [H|H]; discriminate H.
Defined.

(** C7 (amended) on the run of the counterexample: the caller's dict is
    passed on as it is, the detection configuration is the default. *)
Lemma load_image_configuration_witness :
  ∃ ev w1,
    load_image demo_providers
      (path_start (Some (ConfDict 1)) (Some {[ "confidence" := VNum (1 # 2)%Q ]}))
      (world_with_configuration {[ "prompt" := VStr "chair" ]}) = (Return (inl ev), w1) ∧
    ImageLoadedEvent.segmentation_configuration ev = ConfDict 1 ∧
    dicts w1 = dicts (world_with_configuration {[ "prompt" := VStr "chair" ]}) ∧
    ImageLoadedEvent.object_detection_configuration ev = Some _object_detection_configuration.
Proof.
  destruct (load_image demo_providers
              (path_start (Some (ConfDict 1)) (Some {[ "confidence" := VNum (1 # 2)%Q ]}))
              (world_with_configuration {[ "prompt" := VStr "chair" ]}))
    as [out w1] eqn:Hload.
  evaluate Hload.
  eexists _, _. split; [reflexivity|].
  destruct (load_image_configuration demo_providers _ _ _ _ Hload)
    as (Hseg & Hdicts & Hdet & _ & _).
  split; [exact (Hseg _ eq_refl)|]. split; [exact Hdicts|].
  apply Hdet; [intros r H; discriminate H|reflexivity].
Defined.

(** C8 (amended) on three regions, the second of zero width: its crop is
    empty and cannot be written as JPEG. The stage returns and sends three
    events, one per region. *)
Lemma encode_failures_are_local_witness :
  stage3_set_up demo_providers 0 1
    (demo_world [region 10 10 50 50; region 5 5 5 9; region 0 0 7 7])
    demo_root ("cGl4ZWxz", false) tt [region 10 10 50 50; region 5 5 5 9; region 0 0 7 7] ∧
  Forall (region_croppable demo_providers tt ("cGl4ZWxz", false))
    [region 10 10 50 50; region 5 5 5 9; region 0 0 7 7] ∧
  ∃ events w',
    _parse_image_node_with_sam2 demo_providers 0 (ConfDict 1)
      (demo_world [region 10 10 50 50; region 5 5 5 9; region 0 0 7 7]) =
      (Return (generated_chunks events), w') ∧
    sent_events w' =
      sent_events (demo_world [region 10 10 50 50; region 5 5 5 9; region 0 0 7 7]) ++ events ∧
    Forall2 (region_outcome demo_providers demo_root tt ("cGl4ZWxz", false))
      [region 10 10 50 50; region 5 5 5 9; region 0 0 7 7] events.
Proof.
  assert (stage3_set_up demo_providers 0 1
            (demo_world [region 10 10 50 50; region 5 5 5 9; region 0 0 7 7])
            demo_root ("cGl4ZWxz", false) tt
            [region 10 10 50 50; region 5 5 5 9; region 0 0 7 7]) as Hset.
  { constructor; try reflexivity; [|done].
    exists (demo_configuration [region 10 10 50 50; region 5 5 5 9; region 0 0 7 7]),
      (VStr "facebook/sam2-hiera-small"), ∅.
    split_and!; reflexivity. }
  assert (Forall (region_croppable demo_providers tt ("cGl4ZWxz", false))
            [region 10 10 50 50; region 5 5 5 9; region 0 0 7 7]) as Hall.
  { repeat constructor; eexists _, _; split; reflexivity. }
  split; [exact Hset|]. split; [exact Hall|].
  refine (proj1 (encode_failures_are_local demo_providers 0 1 _ _ _ _ _ Hset _) Hall).
  eapply Forall_impl; [exact Hall|]. intros bbox (ann & _ & Hann & _). by exists ann.
Defined.

(** The run of that witness, evaluated: the second region leaves a
    diagnostic, the first and the third a chunk each. *)
Example encode_failure_skips_one_chunk :
  ∃ c1 c3,
    sent_events
      (_parse_image_node_with_sam2 demo_providers 0 (ConfDict 1)
         (demo_world [region 10 10 50 50; region 5 5 5 9; region 0 0 7 7])).2 =
      [ImageChunkGenerated c1;
       WorkflowRuntimeError (RuntimeError "cannot write empty image as JPEG");
       ImageChunkGenerated c3] ∧
    (_parse_image_node_with_sam2 demo_providers 0 (ConfDict 1)
       (demo_world [region 10 10 50 50; region 5 5 5 9; region 0 0 7 7])).1 =
      Return [c1; c3].
Proof. eexists _, _. split; vm_compute; reflexivity. Qed.

(** The run of the witness of C4, evaluated: the second entry is [None],
    the first and the third are text nodes whose PARENT is their chunk. *)
Example refused_chunk_leaves_a_placeholder :
  ∃ t1 t3 w',
    describe_image (demo_workflow ["Yg=="]) demo_parsed (demo_world []) =
      (Return {| StopEvent.result :=
                   Some {| Result.source := 0;
                           Result.chunks := ImageParsedEvent.chunks demo_parsed;
                           Result.descriptions := Some [Some t1; None; Some t3] |};
                 StopEvent.reason := None |}, w') ∧
    text t1 = "a chair" ∧
    text_relationships t1 !! PARENT =
      Some (One (as_related_node_info (demo_chunk "chunk-1" "YQ=="))) ∧
    text_relationships t3 !! PARENT =
      Some (One (as_related_node_info (demo_chunk "chunk-3" "Yw=="))).
Proof. eexists _, _, _. split_and!; vm_compute; reflexivity. Qed.

(** ** Further properties of the steps *)

Lemma bind_inv {A B} (m : M A) (k : A → M B) w out w' :
  bind m k w = (out, w') →
  (∃ e, m w = (Raise e, w') ∧ out = Raise e) ∨
  (∃ a w1, m w = (Return a, w1) ∧ k a w1 = (out, w')).
Proof.
  unfold bind. destruct (m w) as [[e|a] w1]; [|by eauto].
  intros [= <- <-]. eauto.
Qed.

Lemma run_after_load (P : Providers) (self : Workflow) se w ev w1 :
  load_image P se w = (Return (inl ev), w1) →
  run P self se w =
    bind (create_bboxes P self ev)
      (λ boxes,
         match boxes with
         | inr stop => ret stop
         | inl bounding_boxes_created_event =>
             do parsed <- parse_image P bounding_boxes_created_event;
             match parsed with
             | inr stop => ret stop
             | inl image_parsed_event => describe_image self image_parsed_event
             end
         end) w1.
Proof. intros Hload. unfold run. by erewrite bind_Return by exact Hload. Qed.

(** X1. [create_bboxes] never ends a run with a stop event. When the body
    of its [try] returns, it returns the event for stage 3, with the image
    and the configuration of the event it received, and logs nothing. When
    the body raises, it logs that exception once and raises [TypeError]
    from the handler: the exception of the body never leaves the step, and
    no failure reason is returned. *)
Theorem create_bboxes_returns_its_event_or_raises (P : Providers) (self : Workflow) ev w :
  (∃ bbox_list w',
     create_bboxes_try P self ev w = (Return bbox_list, w') ∧
     create_bboxes P self ev w =
       (Return (inl {| BBoxCreatedEvent.image := ImageLoadedEvent.image ev;
                       BBoxCreatedEvent.segmentation_configuration :=
                         ImageLoadedEvent.segmentation_configuration ev;
                       BBoxCreatedEvent.object_detection_configuration := None |}), w') ∧
     logged_errors w' = logged_errors w) ∨
  (∃ e w1 w',
     create_bboxes_try P self ev w = (Raise e, w1) ∧
     create_bboxes P self ev w =
       (Raise (TypeError "StopEvent.__init__() got an unexpected keyword argument 'reason'"),
        w') ∧
     logged_errors w' = logged_errors w ++ [("Failed to create bounding boxes", e)]).
Proof.
  assert (preserves logged_errors (create_bboxes_try P self ev)) as Hlog.
  { apply preserves_create_bboxes_try; done. }
  destruct (create_bboxes_try P self ev w) as [[e|bbox_list] w1] eqn:Htry;
    pose proof (preserves_eq _ _ _ _ _ Hlog Htry) as Hsame.
  - right. eexists e, w1, _. split; [done|]. split; [by apply create_bboxes_of_raise|].
    simpl. by rewrite Hsame.
  - left. eexists bbox_list, w1. split; [done|]. split; [by eapply create_bboxes_of_return|done].
Qed.

Lemma create_bboxes_skips_detection_aux (P : Providers) (self : Workflow) ev r d w :
  ImageLoadedEvent.segmentation_configuration ev = ConfDict r →
  dicts w !! r = Some d →
  is_Some (d !! "bbox_list") →
  create_bboxes P self ev w =
    (Return (inl {| BBoxCreatedEvent.image := ImageLoadedEvent.image ev;
                    BBoxCreatedEvent.segmentation_configuration := ConfDict r;
                    BBoxCreatedEvent.object_detection_configuration := None |}), w).
Proof.
  intros Hconf Hd Hbbox. rewrite <- Hconf.
  apply (create_bboxes_of_return P self ev w None).
  unfold create_bboxes_try. rewrite Hconf. cbv zeta.
  erewrite bind_Return by (by apply conf_contains_dict).
  by rewrite bool_decide_eq_true_2.
Qed.

(** X2. When the configuration dict already holds [bbox_list], stage 2 does
    nothing: it returns the event for stage 3 in the very world it started
    from, so no LLM call is made, no model is loaded and no dict written. *)
Theorem create_bboxes_skips_detection (P : Providers) (self : Workflow) ev r d w :
  ImageLoadedEvent.segmentation_configuration ev = ConfDict r →
  dicts w !! r = Some d →
  is_Some (d !! "bbox_list") →
  create_bboxes P self ev w =
    (Return (inl {| BBoxCreatedEvent.image := ImageLoadedEvent.image ev;
                    BBoxCreatedEvent.segmentation_configuration := ConfDict r;
                    BBoxCreatedEvent.object_detection_configuration := None |}), w).
Proof. apply create_bboxes_skips_detection_aux. Qed.

(** X3. When the configuration dict holds [prompt] (and no [bbox_list]),
    stage 2 does not ask the LLM and does not write to any dict, however
    the detection ends. *)
Theorem create_bboxes_keeps_given_prompt (P : Providers) (self : Workflow) ev r d w :
  ImageLoadedEvent.segmentation_configuration ev = ConfDict r →
  dicts w !! r = Some d →
  d !! "bbox_list" = None →
  is_Some (d !! "prompt") →
  llm_calls (create_bboxes P self ev w).2 = llm_calls w ∧
  dicts (create_bboxes P self ev w).2 = dicts w.
Proof.
  intros Hconf Hd Hbbox Hprompt.
  assert (∀ {X} (f : World → X),
            (∀ l w, f (with_logged_errors l w) = f w) →
            (∀ b w, f (with_owl_processor_loaded b w) = f w) →
            (∀ b w, f (with_owl_model_loaded b w) = f w) →
            f (create_bboxes P self ev w).2 = f w) as Hframe.
  { intros X f Hlog Hproc Hmodel.
    assert (f (create_bboxes_try P self ev w).2 = f w) as Htry.
    { unfold create_bboxes_try. rewrite Hconf. cbv zeta.
      erewrite bind_Return by (by apply conf_contains_dict).
      rewrite Hbbox, bool_decide_eq_false_2 by (by intros [? ?]).
      erewrite bind_Return by (by apply conf_contains_dict).
      rewrite bool_decide_eq_true_2 by done.
      match goal with |- f (?m w).2 = _ => assert (preserves f m) as Hm end.
      { pose proof (preserves__detect_bboxes_with_owlv2 P f Hproc Hmodel). frame. }
      apply Hm. }
    destruct (create_bboxes_try P self ev w) as [[e|bbox_list] w1] eqn:Hrun.
    - erewrite create_bboxes_of_raise by exact Hrun. simpl. by rewrite Hlog.
    - by erewrite create_bboxes_of_return by exact Hrun. }
  split; by apply Hframe.
Qed.

(** The [try] body of stage 2 cannot return without a detection
    configuration, unless the configuration holds [bbox_list]. *)
Lemma stage2_raises_without_detection_configuration (P : Providers) (self : Workflow) ev w :
  ImageLoadedEvent.object_detection_configuration ev = None →
  conf_contains (ImageLoadedEvent.segmentation_configuration ev) "bbox_list" w = (Return false, w) →
  stage2_raises P self ev w.
Proof.
  intros Hodc Hbbox. unfold stage2_raises, create_bboxes_try. cbv zeta.
  erewrite bind_Return by exact Hbbox. cbv beta iota.
  apply raises_bind. intros has_prompt w1 _.
  apply raises_bind. intros [] w2 _.
  apply raises_bind. intros prompt w3 _.
  rewrite Hodc. by eexists _, _.
Qed.

Lemma conf_contains_validated r key w d :
  validated w !! r = Some d →
  conf_contains (ConfValidated r) key w = (Return (bool_decide (is_Some (d !! key))), w).
Proof. intros Hd. unfold conf_contains, bind, deref_validated. by rewrite Hd. Qed.

(** X4. The documented default segmentation configuration does not reach
    the stages. When the caller supplies none, stage 2 receives a new dict
    that holds a single entry, [model_name], whose value is the string
    [sam_settings]: the default model name and the default settings are
    lost. Such a run never returns: whatever the input form, the LLM and
    the models do, it raises. No dict of the caller is touched. *)
Theorem default_configuration_is_lost (P : Providers) (self : Workflow) se w ev w1 :
  StartEvent.segmentation_configuration se = None →
  load_image P se w = (Return (inl ev), w1) →
  (∃ r, ImageLoadedEvent.segmentation_configuration ev = ConfValidated r ∧
        validated w !! r = None ∧
        validated w1 !! r = Some {[ "model_name" := VStr "sam_settings" ]}) ∧
  dicts w1 = dicts w ∧
  raises (run P self se) w.
Proof.
  intros Hnone Hload.
  destruct (load_image_default_configuration _ _ _ _ _ Hload Hnone) as (r & Hconf & Hfresh & Hv).
  assert (validated w1 !! r = Some {[ "model_name" := VStr "sam_settings" ]}) as Hd
    by (by rewrite Hv, lookup_insert_eq).
  split; [by exists r|]. split; [by eapply load_image_dicts|].
  unfold raises. rewrite (run_after_load _ _ _ _ _ _ Hload).
  destruct (create_bboxes P self ev w1) as [[e|boxes] w2] eqn:Hboxes.
  { eexists _, _. by erewrite bind_Raise by exact Hboxes. }
  destruct (create_bboxes_Return_inv _ _ _ _ _ _ Hboxes) as (bbox_list & _ & ->).
  assert (conf_contains (ImageLoadedEvent.segmentation_configuration ev) "bbox_list" w1 =
            (Return false, w1)) as Hcontains.
  { rewrite Hconf. by erewrite conf_contains_validated by exact Hd. }
  destruct (stage3_raises_after_detection P self ev w1 _ w2 Hcontains Hboxes)
    as (e & w3 & Hparse).
  exists e, w3. erewrite bind_Return by exact Hboxes. cbv beta iota.
  by erewrite bind_Raise by exact Hparse.
Qed.

Lemma load_image_without_detection_configuration (P : Providers) se w ev w1 :
  load_image P se w = (Return (inl ev), w1) →
  (∃ r, StartEvent.image se = Some (ObjImageNode r)) ∨ is_Some (StartEvent.base64_image se) →
  ImageLoadedEvent.object_detection_configuration ev = None.
Proof.
  intros Hload Hform.
  apply load_image_Return_inv in Hload
    as (w0 & _ & _ & _ & [(_ & _ & Hodc)|[(_ & _ & Hodc)|(Himage & Hb64 & _)]]); [done..|].
  destruct Hform as [[r Hr]|[payload Hp]]; [by destruct (Himage r)|congruence].
Qed.

(** X5. A run from a prebuilt image node or from a base64 payload carries no
    detection configuration to stage 2. Unless the configuration holds
    [bbox_list], the [try] body of stage 2 then fails, with or without a
    prompt and whatever the detector would return, and the run ends with
    the [TypeError] of the handler after one logged error. *)
Theorem detection_needs_the_path_form (P : Providers) (self : Workflow) se w ev w1 :
  load_image P se w = (Return (inl ev), w1) →
  (∃ r, StartEvent.image se = Some (ObjImageNode r)) ∨ is_Some (StartEvent.base64_image se) →
  conf_contains (ImageLoadedEvent.segmentation_configuration ev) "bbox_list" w1 = (Return false, w1) →
  ∃ e w',
    run P self se w =
      (Raise (TypeError "StopEvent.__init__() got an unexpected keyword argument 'reason'"),
       w') ∧
    logged_errors w' = logged_errors w ++ [("Failed to create bounding boxes", e)].
Proof.
  intros Hload Hform Hbbox.
  destruct (stage2_raises_without_detection_configuration P self ev w1) as (e & w2 & Htry);
    [by eapply load_image_without_detection_configuration|done|].
  exists e. eexists. rewrite (run_after_load _ _ _ _ _ _ Hload).
  erewrite bind_Raise by (by apply create_bboxes_of_raise).
  split; [reflexivity|]. simpl.
  rewrite (preserves_eq _ _ _ _ _
             (preserves_create_bboxes_try P self logged_errors ltac:(done) ltac:(done)
                ltac:(done) ltac:(done) ltac:(done) _) Htry).
  by rewrite (preserves_eq _ _ _ _ _
                (preserves_load_image P logged_errors ltac:(done) ltac:(done) ltac:(done) _)
                Hload).
Qed.

(** ** Further properties of a run *)

(** The stages a run that returns went through. *)
Lemma run_Return_inv (P : Providers) (self : Workflow) se w stop w' :
  run P self se w = (Return stop, w') →
  load_image P se w = (Return (inr stop), w') ∨
  ∃ ev w1,
    load_image P se w = (Return (inl ev), w1) ∧
    (create_bboxes P self ev w1 = (Return (inr stop), w') ∨
     ∃ ev2 w2,
       create_bboxes P self ev w1 = (Return (inl ev2), w2) ∧
       (parse_image P ev2 w2 = (Return (inr stop), w') ∨
        ∃ ev3 w3,
          parse_image P ev2 w2 = (Return (inl ev3), w3) ∧
          describe_image self ev3 w3 = (Return stop, w'))).
Proof.
  unfold run. intros H.
  apply bind_Return_inv in H as ([ev|stop1] & w1 & Hload & H);
    [|apply ret_inv in H as [-> ->]; by left].
  right. exists ev, w1. split; [done|].
  apply bind_Return_inv in H as ([ev2|stop2] & w2 & Hboxes & H);
    [|apply ret_inv in H as [-> ->]; by left].
  right. exists ev2, w2. split; [done|].
  apply bind_Return_inv in H as ([ev3|stop3] & w3 & Hparse & H);
    [|apply ret_inv in H as [-> ->]; by left].
  right. by exists ev3, w3.
Qed.

Lemma load_image_stop_inv (P : Providers) se w stop w' :
  load_image P se w = (Return (inr stop), w') →
  stop = {| StopEvent.result := None; StopEvent.reason := None |} ∧ w' = w.
Proof.
  unfold load_image. cbv zeta. intros H.
  destruct (StartEvent.image se) as [[r|]|].
  { apply bind_Return_inv in H as (? & ? & _ & H). by apply ret_inv in H as [? _]. }
  all: destruct (StartEvent.base64_image se);
    [ destruct (StartEvent.mimetype se); [|discriminate H];
      apply bind_Return_inv in H as (? & ? & _ & H);
      apply bind_Return_inv in H as (? & ? & _ & H);
      apply bind_Return_inv in H as (? & ? & _ & H);
      by apply ret_inv in H as [? _]
    | destruct (StartEvent.image_path se);
      [ apply bind_Return_inv in H as (? & ? & _ & H);
        apply bind_Return_inv in H as (? & ? & _ & H);
        apply bind_Return_inv in H as (? & ? & _ & H);
        apply bind_Return_inv in H as (? & ? & _ & H);
        apply bind_Return_inv in H as (? & ? & _ & H);
        by apply ret_inv in H as [? _]
      | by apply ret_inv in H as [[= <-] <-] ] ].
Qed.

Lemma create_bboxes_never_stops (P : Providers) (self : Workflow) ev w stop w' :
  create_bboxes P self ev w ≠ (Return (inr stop), w').
Proof.
  intros H. by destruct (create_bboxes_Return_inv _ _ _ _ _ _ H) as (? & _ & [=]).
Qed.

Lemma parse_image_Return_inv (P : Providers) ev w r w' :
  parse_image P ev w = (Return r, w') →
  ∃ parsed,
    _parse_image_node_with_sam2 P (BBoxCreatedEvent.image ev)
      (BBoxCreatedEvent.segmentation_configuration ev) w = (Return parsed, w') ∧
    ((parsed = [] ∧
      r = inr {| StopEvent.result :=
                   Some {| Result.source := BBoxCreatedEvent.image ev;
                           Result.chunks := [];
                           Result.descriptions := None |};
                 StopEvent.reason := None |}) ∨
     (parsed ≠ [] ∧
      r = inl {| ImageParsedEvent.source := BBoxCreatedEvent.image ev;
                 ImageParsedEvent.chunks := parsed |})).
Proof.
  unfold parse_image. intros H.
  apply bind_Return_inv in H as (parsed & w1 & Hparse & H).
  exists parsed. destruct parsed as [|c rest]; simpl in H; apply ret_inv in H as [<- <-].
  - split; [done|]. by left.
  - split; [done|]. by right.
Qed.

(** [describe_image] always returns, with or without an LLM. *)
Lemma describe_image_total (self : Workflow) ev w :
  ∃ ds w',
    describe_image self ev w =
      (Return {| StopEvent.result :=
                   Some {| Result.source := ImageParsedEvent.source ev;
                           Result.chunks := ImageParsedEvent.chunks ev;
                           Result.descriptions := Some ds |};
                 StopEvent.reason := None |}, w') ∧
    length ds = match multi_modal_llm self with
                | Some _ => length (ImageParsedEvent.chunks ev)
                | None => 0
                end ∧
    (∀ llm, multi_modal_llm self = Some llm →
       Forall2 (description_entry llm (nodes w !! ImageParsedEvent.source ev))
         (ImageParsedEvent.chunks ev) ds).
Proof.
  destruct (multi_modal_llm self) as [llm|] eqn:Hllm.
  - destruct (describe_chunks_total self llm Hllm
                (ImageParsedEvent.source ev) (ImageParsedEvent.chunks ev) w)
      as (ds & w' & Hds & Hentries & _ & _).
    exists ds, w'. split_and!.
    + unfold describe_image. rewrite Hllm. by erewrite bind_Return by exact Hds.
    + by apply Forall2_length in Hentries.
    + by intros ? [= <-].
  - exists [], w. split_and!; [|done|done].
    unfold describe_image. by rewrite Hllm.
Qed.

(** X6. The results a run can return. A run that returns ends with one of
    four stop events: the empty one (no input: nothing was done, the world
    is unchanged), the one with the failure reason of stage 2, the result
    [{source, chunks: []}] without descriptions, or a result with at least
    one chunk and a [descriptions] list, which has one entry per chunk
    when an LLM is configured and is empty when none is. *)
Theorem run_result_shapes (P : Providers) (self : Workflow) se w stop w' :
  run P self se w = (Return stop, w') →
  (stop = {| StopEvent.result := None; StopEvent.reason := None |} ∧ w' = w) ∨
  stop = {| StopEvent.result := None; StopEvent.reason := Some bbox_failure_reason |} ∨
  (∃ source,
     stop = {| StopEvent.result :=
                 Some {| Result.source := source; Result.chunks := [];
                         Result.descriptions := None |};
               StopEvent.reason := None |}) ∨
  (∃ source chunks ds,
     chunks ≠ [] ∧
     length ds = match multi_modal_llm self with
                 | Some _ => length chunks
                 | None => 0
                 end ∧
     stop = {| StopEvent.result :=
                 Some {| Result.source := source; Result.chunks := chunks;
                         Result.descriptions := Some ds |};
               StopEvent.reason := None |}).
Proof.
  intros Hrun.
  apply run_Return_inv in Hrun
    as [Hload|(ev & w1 & Hload & [Hboxes|(ev2 & w2 & Hboxes & [Hparse|(ev3 & w3 & Hparse & Hdesc)])])].
  - left. by eapply load_image_stop_inv.
  - by destruct (create_bboxes_never_stops _ _ _ _ _ _ Hboxes).
  - right. right. left.
    apply parse_image_Return_inv in Hparse as (parsed & _ & [[_ [= ->]]|[_ [=]]]). by eexists.
  - right. right. right.
    apply parse_image_Return_inv in Hparse as (parsed & _ & [[_ [=]]|[Hne [= ->]]]).
    destruct (describe_image_total self
                {| ImageParsedEvent.source := BBoxCreatedEvent.image ev2;
                   ImageParsedEvent.chunks := parsed |} w3) as (ds & w4 & Hds & Hlen & _).
    rewrite Hds in Hdesc. injection Hdesc as <- <-.
    by exists (BBoxCreatedEvent.image ev2), parsed, ds.
Qed.

(** X7. A run returns a result with a [chunks] key only when the caller's
    segmentation configuration is a dict that already holds [bbox_list]:
    regions found by the detector never lead to a result. In such a run no
    dict is written. *)
Theorem results_need_caller_regions (P : Providers) (self : Workflow) se w stop w' res :
  run P self se w = (Return stop, w') →
  StopEvent.result stop = Some res →
  ∃ r d,
    StartEvent.segmentation_configuration se = Some (ConfDict r) ∧
    dicts w !! r = Some d ∧
    is_Some (d !! "bbox_list") ∧
    dicts w' = dicts w.
Proof.
  intros Hrun Hres.
  pose proof Hrun as Hstages.
  apply run_Return_inv in Hstages as [Hload|(ev & w1 & Hload & Hstages)].
  { apply load_image_stop_inv in Hload as [-> _]. discriminate Hres. }
  assert (∃ ev2 w2 r3 w3,
            create_bboxes P self ev w1 = (Return (inl ev2), w2) ∧
            parse_image P ev2 w2 = (Return r3, w3)) as (ev2 & w2 & r3 & w3 & Hboxes & Hparse).
  { destruct Hstages as [Hboxes|(ev2 & w2 & Hboxes & [Hparse|(ev3 & w3 & Hparse & _)])];
      [|by eauto 6..].
    by destruct (create_bboxes_never_stops _ _ _ _ _ _ Hboxes). }
  clear Hstages.
  pose proof (load_image_dicts _ _ _ _ _ Hload) as Hdicts.
  assert (∀ has, conf_contains (ImageLoadedEvent.segmentation_configuration ev) "bbox_list" w1 =
                   (Return has, w1) → has = true) as Hhas.
  { intros [] Hcontains; [done|].
    destruct (stage3_raises_after_detection P self ev w1 ev2 w2 Hcontains Hboxes)
      as (e & w4 & Hraise). congruence. }
  destruct (load_image_configuration_origin _ _ _ _ _ Hload)
    as [(r & Hse & Hconf & _)|(_ & r & Hconf & _ & Hv)].
  2:{ (* the dict made of the default holds no region list *)
      specialize (Hhas false). rewrite Hconf in Hhas.
      erewrite conf_contains_validated in Hhas by (by rewrite Hv, lookup_insert_eq).
      by specialize (Hhas eq_refl). }
  destruct (dicts w1 !! r) as [d|] eqn:Hd.
  2:{ (* the membership test raises: stage 2 fails *)
      assert (create_bboxes_try P self ev w1 = (Raise DanglingReference, w1)) as Htry.
      { unfold create_bboxes_try. cbv zeta. rewrite Hconf.
        erewrite bind_Raise; [reflexivity|].
        unfold conf_contains. erewrite bind_Raise; [reflexivity|].
        unfold deref_dict. by rewrite Hd. }
      erewrite create_bboxes_of_raise in Hboxes by exact Htry. discriminate Hboxes. }
  specialize (Hhas (bool_decide (is_Some (d !! "bbox_list")))).
  rewrite Hconf in Hhas. erewrite conf_contains_dict in Hhas by exact Hd.
  specialize (Hhas eq_refl). apply bool_decide_eq_true in Hhas.
  exists r, d. split_and!; [done|congruence|done|].
  rewrite <- Hdicts.
  rewrite (run_after_load _ _ _ _ _ _ Hload) in Hrun.
  erewrite bind_Return in Hrun
    by (by eapply (create_bboxes_skips_detection_aux P self ev r d w1)).
  eapply preserves_eq; [|exact Hrun].
  pose proof (preserves_parse_image P dicts ltac:(done) ltac:(done) ltac:(done)).
  pose proof (preserves_describe_image self dicts ltac:(done) ltac:(done)).
  frame.
Qed.

(** ** Further properties of stage 3 *)

(** An exception that leaves [bind m k] leaves an observation as it was,
    when [m] keeps it and [k] keeps it whenever it raises. *)
Lemma raise_keeps_bind {X A B} (f : World → X) (m : M A) (k : A → M B) :
  preserves f m →
  (∀ a w e w', k a w = (Raise e, w') → f w' = f w) →
  ∀ w e w', bind m k w = (Raise e, w') → f w' = f w.
Proof.
  intros Hm Hk w e w' H.
  apply bind_inv in H as [(e' & H & _)|(a & w1 & H & Hrest)].
  - by eapply preserves_eq.
  - rewrite (Hk _ _ _ _ Hrest). by eapply preserves_eq.
Qed.

Lemma register_children_raise root image_chunks w e w' :
  register_children root image_chunks w = (Raise e, w') → w' = w.
Proof.
  unfold register_children, bind, deref_node, store_node.
  destruct (nodes w !! root) as [image_node|]; [|by intros [= _ <-]].
  destruct (relationships image_node !! CHILD) as [[info|infos]|]; simpl;
    by intros [= <-] || by intros [=].
Qed.

(** X8. Stage 3 writes to the root node only as its last step. Whether
    [_parse_image_node_with_sam2] returns or raises, no configuration dict
    changes and no LLM call is made; when it raises, the node store is as
    it was: no child is registered for a stage that failed. *)
Theorem stage3_failure_registers_nothing (P : Providers) root conf w out w' :
  _parse_image_node_with_sam2 P root conf w = (out, w') →
  dicts w' = dicts w ∧
  llm_calls w' = llm_calls w ∧
  (∀ e, out = Raise e → nodes w' = nodes w).
Proof.
  intros Hparse. split_and!.
  - exact (preserves_eq _ _ _ _ _
             (preserves__parse_image_node_with_sam2 P dicts
                ltac:(done) ltac:(done) ltac:(done) _ _) Hparse).
  - exact (preserves_eq _ _ _ _ _
             (preserves__parse_image_node_with_sam2 P llm_calls
                ltac:(done) ltac:(done) ltac:(done) _ _) Hparse).
  - intros e ->. revert w e w' Hparse. unfold _parse_image_node_with_sam2.
    assert (∀ image_node img pairs,
              preserves nodes (crop_chunks P image_node img pairs)) as Hcrop
      by (intros; by apply preserves_crop_chunks).
    assert (∀ predictor img bboxes,
              preserves nodes (predict_boxes P predictor img bboxes)) as Hpredict
      by (intros; by apply preserves_predict_boxes).
    do 13 (apply (raise_keeps_bind nodes); [solve [frame]|intros ?]).
    intros w e w' H.
    apply bind_inv in H as [(e' & H & _)|(? & ? & _ & H)]; [|discriminate H].
    apply register_children_raise in H as ->. done.
Qed.

Lemma predict_boxes_length (P : Providers) predictor img bboxes w anns w' :
  predict_boxes P predictor img bboxes w = (Return anns, w') →
  length anns = length bboxes.
Proof.
  revert anns w w'. induction bboxes as [|bbox rest IH]; simpl; intros anns w w' H.
  - by apply ret_inv in H as [<- _].
  - apply bind_Return_inv in H as (ann & w1 & _ & H).
    apply bind_Return_inv in H as (anns' & w2 & Hrest & H).
    apply ret_inv in H as [<- _]. simpl. f_equal. by eapply IH.
Qed.

(** What a returning second loop has sent: one event per pair. *)
Lemma crop_chunks_events (P : Providers) image_node img pairs w chunks w' :
  crop_chunks P image_node img pairs w = (Return chunks, w') →
  ∃ events,
    sent_events w' = sent_events w ++ events ∧
    chunks = generated_chunks events ∧
    Forall2 (λ p ev, region_event P image_node img p.1 p.2 ev) pairs events.
Proof.
  revert w chunks w'. induction pairs as [|[ann bbox] rest IH]; simpl; intros w chunks w' H.
  - apply ret_inv in H as [<- <-]. exists []. by rewrite app_nil_r.
  - apply bind_Return_inv in H as (produced & w1 & Hone & H).
    apply bind_Return_inv in H as (more & w2 & Hrest & H).
    apply ret_inv in H as [<- <-].
    assert (∃ cropped, masked_crop P img ann bbox = Return cropped) as [cropped Hcropped].
    { unfold crop_chunk in Hone. apply bind_Return_inv in Hone as (cropped & ? & Hc & _).
      apply call_inv in Hc as [Hc _]. eauto. }
    destruct (crop_chunk_local P image_node img ann bbox cropped w Hcropped)
      as (ev & w1' & Hone' & Hsent & _ & Hev).
    rewrite Hone in Hone'. injection Hone' as -> <-.
    destruct (IH _ _ _ Hrest) as (events & Hsent' & -> & Hevents).
    exists (ev :: events). split_and!.
    + by rewrite Hsent', Hsent, <- app_assoc.
    + by destruct ev.
    + by constructor.
Qed.

Lemma generated_chunks_length events : length (generated_chunks events) ≤ length events.
Proof.
  induction events as [|[c|e] rest IH]; simpl; [lia| |];
    unfold generated_chunks in *; simpl; lia.
Qed.

(** X9. When stage 3 returns, it has sent exactly one event per region of
    [bbox_list], in list order: for a region either a chunk whose metadata
    records that region's box, or a diagnostic. The chunks it returns are
    the chunks it sent, in that order, so there are at most as many chunks
    as regions. *)
Theorem stage3_sends_one_event_per_region (P : Providers) root conf w chunks w' :
  _parse_image_node_with_sam2 P root conf w = (Return chunks, w') →
  ∃ bboxes events,
    conf_getitem conf "bbox_list" w = (Return (VRegions bboxes), w) ∧
    sent_events w' = sent_events w ++ events ∧
    chunks = generated_chunks events ∧
    length chunks ≤ length bboxes ∧
    Forall2 (λ bbox ev, ∀ c, ev = ImageChunkGenerated c →
                             metadata c = {[ "region" := MetaRegion (box_of bbox) ]})
      bboxes events.
Proof.
  unfold _parse_image_node_with_sam2. intros H.
  assert (∀ {A} (m : M A) wa a wb,
            preserves id m → m wa = (Return a, wb) → wb = wa) as pure
    by (intros A m wa a wb Hm Hrun; exact (preserves_eq id m wa _ wb Hm Hrun)).
  apply bind_Return_inv in H as (image_node & w0 & H0 & H).
  apply pure in H0 as ->; [|frame].
  apply bind_Return_inv in H as (img & w1 & H1 & H).
  apply pure in H1 as ->; [|frame].
  apply bind_Return_inv in H as (sam_settings & w2 & H2 & H).
  apply pure in H2 as ->; [|frame].
  apply bind_Return_inv in H as (model_name & w3 & H3 & H).
  apply pure in H3 as ->; [|frame].
  apply bind_Return_inv in H as (settings & w4 & H4 & H).
  apply pure in H4 as ->; [|frame].
  apply bind_Return_inv in H as (predictor & w5 & H5 & H).
  apply pure in H5 as ->; [|frame].
  apply bind_Return_inv in H as ([] & w6 & H6 & H).
  apply pure in H6 as ->; [|frame].
  apply bind_Return_inv in H as (bbox_value & w7 & Hvalue & H).
  pose proof (pure _ _ _ _ _ (preserves_conf_getitem id _ _) Hvalue) as ->.
  apply bind_Return_inv in H as (bboxes & w8 & Hregions & H).
  pose proof (pure _ _ _ _ _ (preserves_as_regions id _) Hregions) as ->.
  apply bind_Return_inv in H as (anns & w9 & Hpredict & H).
  pose proof (pure _ _ _ _ _ (preserves_predict_boxes P id _ _ _) Hpredict) as ->.
  apply bind_Return_inv in H as (bbox_value' & w10 & Hvalue' & H).
  pose proof (pure _ _ _ _ _ (preserves_conf_getitem id _ _) Hvalue') as ->.
  rewrite Hvalue in Hvalue'. injection Hvalue' as <-.
  apply bind_Return_inv in H as (bboxes' & w11 & Hregions' & H).
  pose proof (pure _ _ _ _ _ (preserves_as_regions id _) Hregions') as ->.
  rewrite Hregions in Hregions'. injection Hregions' as <-.
  apply bind_Return_inv in H as (image_chunks & w12 & Hcrop & H).
  apply bind_Return_inv in H as ([] & w13 & Hregister & H).
  apply ret_inv in H as [<- <-].
  assert (bbox_value = VRegions bboxes) as ->.
  { destruct bbox_value; simpl in Hregions; try discriminate Hregions.
    by apply ret_inv in Hregions as [-> _]. }
  apply crop_chunks_events in Hcrop as (events & Hsent & -> & Hevents).
  apply predict_boxes_length in Hpredict.
  assert (length events = length bboxes) as Hlen.
  { apply Forall2_length in Hevents. rewrite length_zip_with in Hevents. lia. }
  exists bboxes, events. split_and!; [done| |done| |].
  - rewrite <- Hsent.
    exact (preserves_eq _ _ _ _ _
             (preserves_register_children sent_events ltac:(done) _ _) Hregister).
  - rewrite <- Hlen. apply generated_chunks_length.
  - clear -Hevents Hpredict. revert anns events Hevents Hpredict.
    induction bboxes as [|bbox rest IH]; intros anns events Hevents Hlen.
    + destruct anns; [|discriminate Hlen]. simpl in Hevents.
      apply Forall2_nil_inv_l in Hevents as ->. constructor.
    + destruct anns as [|ann anns]; [discriminate Hlen|]. simpl in Hevents.
      apply Forall2_cons_inv_l in Hevents as (ev & events' & Hev & Hevents' & ->).
      constructor; [|eapply IH; [exact Hevents'|by injection Hlen]].
      intros c ->. destruct Hev as (cropped & _ & bytes & id & source & _ & _ & ->). done.
Qed.

(** ** Lineage across stages 3 and 4 *)

Lemma ref_doc_id_set_child v n : _ref_doc_id (set_relationship CHILD v n) = _ref_doc_id n.
Proof.
  unfold _ref_doc_id, source_node, as_related_node_info. simpl.
  by rewrite lookup_insert_ne.
Qed.

Lemma register_children_root root image_chunks w w' image_node :
  register_children root image_chunks w = (Return tt, w') →
  nodes w !! root = Some image_node →
  ∃ v, nodes w' !! root = Some (set_relationship CHILD v image_node).
Proof.
  unfold register_children. intros H Hroot.
  apply bind_Return_inv in H as (n & w1 & Hn & H).
  apply deref_node_inv in Hn as [Hn ->].
  assert (n = image_node) as -> by congruence.
  apply bind_Return_inv in H as (children & w2 & Hchildren & H).
  assert (w2 = w) as ->.
  { destruct (relationships image_node !! CHILD) as [[?|?]|];
      [discriminate Hchildren| |]; by apply ret_inv in Hchildren as [_ ->]. }
  unfold store_node in H. injection H as <-. simpl.
  eexists. by rewrite lookup_insert_eq.
Qed.

(** X10. In the result of a run, a description and its chunk agree on
    their lineage: the description's PARENT is the chunk, and its SOURCE is
    the chunk's SOURCE, although stage 4 resolves it on the root after
    stage 3 has changed the root's CHILD collection. *)
Theorem descriptions_share_the_source_of_their_chunk (P : Providers) (self : Workflow)
    se w stop w' res ds i c t :
  run P self se w = (Return stop, w') →
  StopEvent.result stop = Some res →
  Result.descriptions res = Some ds →
  Result.chunks res !! i = Some c →
  ds !! i = Some (Some t) →
  text_relationships t !! PARENT = Some (One (as_related_node_info c)) ∧
  text_relationships t !! SOURCE = relationships c !! SOURCE.
Proof.
  intros Hrun Hres Hds Hc Ht.
  apply run_Return_inv in Hrun
    as [Hload|(ev & w1 & Hload & [Hboxes|(ev2 & w2 & Hboxes & [Hparse|(ev3 & w3 & Hparse & Hdesc)])])].
  - apply load_image_stop_inv in Hload as [-> _]. discriminate Hres.
  - by destruct (create_bboxes_never_stops _ _ _ _ _ _ Hboxes).
  - apply parse_image_Return_inv in Hparse as (parsed & _ & [[_ [= ->]]|[_ [=]]]).
    simpl in Hres. injection Hres as <-. discriminate Hds.
  - apply parse_image_Return_inv in Hparse as (parsed & Hparse & [[_ [=]]|[_ [= ->]]]).
    destruct (describe_image_total self
                {| ImageParsedEvent.source := BBoxCreatedEvent.image ev2;
                   ImageParsedEvent.chunks := parsed |} w3) as (ds' & w4 & Hds' & Hlen & Hentries).
    rewrite Hds' in Hdesc. injection Hdesc as <- <-. simpl in *.
    injection Hres as <-. simpl in *. injection Hds as ->.
    destruct (multi_modal_llm self) as [llm|];
      [|apply nil_length_inv in Hlen as ->; discriminate Ht].
    specialize (Hentries llm eq_refl).
    apply parse_Return_inv in Hparse as (image_node & w2' & Hroot & Hchunks & Hnodes & Hregister).
    rewrite <- Hnodes in Hroot.
    destruct (register_children_root _ _ _ _ _ Hregister Hroot) as [v Hroot'].
    rewrite Hroot' in Hentries.
    pose proof (Forall2_lookup_lr _ _ _ _ _ _ Hentries Hc Ht) as (document & _ & _ & _ & Hentry).
    rewrite Forall_forall in Hchunks.
    destruct (Hchunks c) as (bbox & cropped & bytes & id & source & _ & Hsource & ->);
      [by eapply list_elem_of_lookup_2|].
    rewrite ref_doc_id_set_child, Hsource in Hentry.
    destruct (llm description_prompt [document]); [discriminate Hentry|].
    destruct Hentry as [tid [= ->]]. simpl. split.
    + by rewrite lookup_insert_eq.
    + rewrite !lookup_insert_ne by done. by rewrite !lookup_insert_eq.
Qed.

(** ** The detector's handles *)

(** X11. The OWLv2 processor and model are loaded at most once. After a
    detection that returned, both are marked as loaded, and from then on
    [get_or_create_owl_v2_processor] and [get_or_create_owl_v2] return
    without loading anything, whatever loading would do. *)
Theorem owl_handles_are_loaded_once (P : Providers) root prompt confidence nms w regions w' :
  _detect_bboxes_with_owlv2 P root prompt confidence nms w = (Return regions, w') →
  owl_processor_loaded w' = true ∧
  owl_model_loaded w' = true ∧
  ∀ P', get_or_create_owl_v2_processor P' w' = (Return tt, w') ∧
        get_or_create_owl_v2 P' w' = (Return tt, w').
Proof.
  unfold _detect_bboxes_with_owlv2. intros H.
  apply bind_Return_inv in H as (node & w0 & H0 & H).
  apply bind_Return_inv in H as (img & w1 & H1 & H).
  apply bind_Return_inv in H as ([] & w2 & Hprocessor & H).
  apply bind_Return_inv in H as ([] & w3 & Hmodel & H).
  apply bind_Return_inv in H as (prompt_text & w4 & Hprompt & H).
  apply bind_Return_inv in H as (results & w5 & Hcall & H).
  apply ret_inv in H as [_ <-]. apply call_inv in Hcall as [_ <-].
  assert (w4 = w3) as ->.
  { destruct prompt; simpl in Hprompt; try discriminate Hprompt.
    by apply ret_inv in Hprompt as [_ ->]. }
  assert (owl_processor_loaded w2 = true) as Hp.
  { unfold get_or_create_owl_v2_processor in Hprocessor.
    destruct (owl_processor_loaded w1) eqn:Hflag; [by injection Hprocessor as <-|].
    destruct (owl_processor_from_pretrained P); [discriminate Hprocessor|].
    by injection Hprocessor as <-. }
  assert (owl_model_loaded w3 = true ∧ owl_processor_loaded w3 = owl_processor_loaded w2)
    as [Hm Hsame].
  { unfold get_or_create_owl_v2 in Hmodel.
    destruct (owl_model_loaded w2) eqn:Hflag; [by injection Hmodel as <-|].
    destruct (owl_model_from_pretrained P); [discriminate Hmodel|].
    by injection Hmodel as <-. }
  rewrite Hsame in *. split_and!; [done..|].
  intros P'. unfold get_or_create_owl_v2_processor, get_or_create_owl_v2.
  by rewrite Hsame, Hp, Hm.
Qed.

(** ** The configuration dicts over a run *)

Lemma create_bboxes_try_dicts (P : Providers) (self : Workflow) ev w :
  dicts (create_bboxes_try P self ev w).2 = dicts w ∨
  ∃ r d prompt,
    ImageLoadedEvent.segmentation_configuration ev = ConfDict r ∧
    dicts w !! r = Some d ∧
    d !! "bbox_list" = None ∧
    d !! "prompt" = None ∧
    dicts (create_bboxes_try P self ev w).2 = <[r := <["prompt" := VStr prompt]> d]> (dicts w).
Proof.
  assert (∀ prompt confidence nms,
            preserves dicts (_detect_bboxes_with_owlv2 P (ImageLoadedEvent.image ev)
                               prompt confidence nms)) as Hdetect
    by (intros; by apply preserves__detect_bboxes_with_owlv2).
  assert (∀ docs, preserves dicts (llm_complete self elicitation_prompt docs)) as Hllm
    by (intros; by apply preserves_elicitation).
  unfold create_bboxes_try. cbv zeta.
  destruct (ImageLoadedEvent.segmentation_configuration ev) as [r|r] eqn:Hconf.
  2:{ left.
      pose proof (preserves_conf_setitem_validated dicts ltac:(done) r).
      match goal with |- dicts (?m w).2 = _ => assert (preserves dicts m) as Hm by frame end.
      apply Hm. }
  destruct (dicts w !! r) as [d|] eqn:Hd.
  2:{ left. erewrite bind_Raise; [reflexivity|].
      unfold conf_contains. erewrite bind_Raise; [reflexivity|].
      unfold deref_dict. by rewrite Hd. }
  erewrite bind_Return by (by apply conf_contains_dict).
  destruct (d !! "bbox_list") as [v|] eqn:Hbbox.
  { left. by rewrite bool_decide_eq_true_2. }
  rewrite bool_decide_eq_false_2 by (by intros [? ?]).
  erewrite bind_Return by (by apply conf_contains_dict).
  destruct (d !! "prompt") as [v|] eqn:Hprompt.
  { left. rewrite bool_decide_eq_true_2 by done.
    match goal with |- dicts (?m w).2 = _ => assert (preserves dicts m) as Hm by frame end.
    apply Hm. }
  rewrite bool_decide_eq_false_2 by (by intros [? ?]).
  destruct (nodes w !! ImageLoadedEvent.image ev) as [root|] eqn:Hroot.
  2:{ left. erewrite bind_Raise; [reflexivity|]. erewrite bind_Raise; [reflexivity|].
      unfold deref_node. by rewrite Hroot. }
  destruct (llm_complete self elicitation_prompt [root] w) as [[e|prompt] w1] eqn:Hcall;
    pose proof (preserves_eq _ _ _ _ _ (Hllm [root]) Hcall) as Hsame.
  { left.
    erewrite bind_Raise.
    2:{ erewrite bind_Return by (unfold deref_node; rewrite Hroot; reflexivity).
        by erewrite bind_Raise by exact Hcall. }
    done. }
  right. exists r, d, prompt. split_and!; [done..|].
  erewrite bind_Return.
  2:{ erewrite bind_Return by (unfold deref_node; rewrite Hroot; reflexivity).
      erewrite bind_Return by exact Hcall.
      apply conf_setitem_dict. by rewrite Hsame. }
  match goal with |- dicts (?m ?w0).2 = _ => assert (preserves dicts m) as Hm by frame end.
  rewrite Hm. simpl. by rewrite Hsame.
Qed.

(** X12. The only write a run makes to a configuration dict is the elicited
    prompt. However a run ends, either every dict is as it was, or the
    caller's configuration dict, which held neither [bbox_list] nor
    [prompt], has gained the key [prompt] and nothing else has changed: no
    key is removed, no other key is set, [bbox_list] is never written. *)
Theorem run_writes_only_the_prompt (P : Providers) (self : Workflow) se w out w' :
  run P self se w = (out, w') →
  dicts w' = dicts w ∨
  ∃ r d prompt,
    StartEvent.segmentation_configuration se = Some (ConfDict r) ∧
    dicts w !! r = Some d ∧
    d !! "bbox_list" = None ∧
    d !! "prompt" = None ∧
    dicts w' = <[r := <["prompt" := VStr prompt]> d]> (dicts w).
Proof.
  intros Hrun.
  destruct (load_image P se w) as [[e|[ev|stop]] w1] eqn:Hload;
    pose proof (load_image_dicts _ _ _ _ _ Hload) as Hdicts.
  - left. unfold run in Hrun. erewrite bind_Raise in Hrun by exact Hload.
    injection Hrun as _ <-. done.
  - rewrite (run_after_load _ _ _ _ _ _ Hload) in Hrun.
    assert (dicts w' = dicts (create_bboxes_try P self ev w1).2) as ->.
    { rewrite <- create_bboxes_dicts.
      destruct (create_bboxes P self ev w1) as [[e|boxes] w2] eqn:Hboxes.
      { erewrite bind_Raise in Hrun by exact Hboxes. by injection Hrun as _ <-. }
      erewrite bind_Return in Hrun by exact Hboxes. simpl.
      eapply preserves_eq; [|exact Hrun].
      pose proof (preserves_parse_image P dicts ltac:(done) ltac:(done) ltac:(done)).
      pose proof (preserves_describe_image self dicts ltac:(done) ltac:(done)).
      frame. }
    destruct (create_bboxes_try_dicts P self ev w1)
      as [Hsame|(r & d & prompt & Hconf & Hd & Hbbox & Hprompt & Hwrite)].
    + left. congruence.
    + right. exists r, d, prompt. rewrite <- Hdicts. split_and!; [|done..].
      destruct (load_image_configuration_origin _ _ _ _ _ Hload)
        as [(r' & Hse & Hconf' & _)|(_ & r' & Hconf' & _)]; congruence.
  - left. unfold run in Hrun. erewrite bind_Return in Hrun by exact Hload.
    injection Hrun as _ <-. done.
Qed.

(** ** Runs from a path *)

Lemma load_image_path_root (P : Providers) se w ev w1 :
  load_image P se w = (Return (inl ev), w1) →
  (∀ r, StartEvent.image se ≠ Some (ObjImageNode r)) →
  StartEvent.base64_image se = None →
  ∃ root,
    nodes w1 !! ImageLoadedEvent.image ev = Some root ∧
    mimetype root = Some "image/jpg" ∧
    relationships root = ∅ ∧
    nodes w !! ImageLoadedEvent.image ev = None ∧
    (∃ img bytes, pil_save P img "JPEG" = Return bytes ∧ image root = Some (b64encode bytes)).
Proof.
  intros Hload Himage Hbase64.
  apply load_image_Return_inv in Hload
    as (w0 & Hfield & _ & _ & [([r Hr] & _)|[(_ & [payload Hp] & _)|(_ & _ & _ & Hroot)]]).
  - by destruct (Himage r).
  - congruence.
  - by rewrite (preserves_eq _ _ _ _ _ (preserves_dict_field nodes ltac:(done) _) Hfield).
Qed.

(** X13. A run from a path re-encodes the file as JPEG and declares
    [image/jpg] on the root it creates; the chunks of such a run copy that
    mimetype, so every chunk in its result declares JPEG, as its content
    is. *)
Theorem path_runs_give_chunks_that_declare_jpeg (P : Providers) (self : Workflow)
    se w stop w' res c :
  (∀ r, StartEvent.image se ≠ Some (ObjImageNode r)) →
  StartEvent.base64_image se = None →
  run P self se w = (Return stop, w') →
  StopEvent.result stop = Some res →
  c ∈ Result.chunks res →
  mimetype c = Some "image/jpg" ∧ declares_jpeg (mimetype c).
Proof.
  intros Himage Hbase64 Hrun Hres Hc.
  assert (mimetype c = Some "image/jpg") as Hmime; [|split; [done|by right]].
  apply run_Return_inv in Hrun
    as [Hload|(ev & w1 & Hload & [Hboxes|(ev2 & w2 & Hboxes & Hstages)])].
  { apply load_image_stop_inv in Hload as [-> _]. discriminate Hres. }
  { by destruct (create_bboxes_never_stops _ _ _ _ _ _ Hboxes). }
  destruct (load_image_path_root P se w ev w1 Hload Himage Hbase64)
    as (root & Hroot & Hjpg & _).
  pose proof (preserves_eq _ _ _ _ _
                (preserves_create_bboxes P self nodes ltac:(done) ltac:(done) ltac:(done)
                   ltac:(done) ltac:(done) ltac:(done) _) Hboxes) as Hnodes.
  assert (BBoxCreatedEvent.image ev2 = ImageLoadedEvent.image ev) as Himg.
  { by destruct (create_bboxes_Return_inv _ _ _ _ _ _ Hboxes) as (? & _ & [= ->]). }
  assert (∃ parsed w3,
            _parse_image_node_with_sam2 P (BBoxCreatedEvent.image ev2)
              (BBoxCreatedEvent.segmentation_configuration ev2) w2 = (Return parsed, w3) ∧
            c ∈ parsed) as (parsed & w3 & Hparse & Hin).
  { destruct Hstages as [Hparse|(ev3 & w3 & Hparse & Hdesc)].
    - apply parse_image_Return_inv in Hparse as (parsed & Hparse & [[-> [= ->]]|[_ [=]]]).
      simpl in Hres. injection Hres as <-. by apply elem_of_nil in Hc.
    - apply parse_image_Return_inv in Hparse as (parsed & Hparse & [[_ [=]]|[_ [= ->]]]).
      destruct (describe_image_total self
                  {| ImageParsedEvent.source := BBoxCreatedEvent.image ev2;
                     ImageParsedEvent.chunks := parsed |} w3) as (ds & w4 & Hds & _).
      rewrite Hds in Hdesc. injection Hdesc as <- <-. simpl in Hres. injection Hres as <-.
      eauto. }
  apply parse_Return_inv in Hparse as (image_node & _ & Hnode & Hchunks & _).
  rewrite Himg, Hnodes, Hroot in Hnode. injection Hnode as <-.
  rewrite Forall_forall in Hchunks.
  destruct (Hchunks c Hin) as (bbox & cropped & bytes & id & source & _ & _ & ->). done.
Qed.

(** ** The prompt lines handed to the detector *)

Lemma split_on_not_nil sep s : split_on sep s ≠ [].
Proof. destruct s as [|c rest]; simpl; [done|]. by repeat case_match. Qed.

Lemma split_on_length sep s :
  length (split_on sep s) = S (count_occ Ascii.ascii_dec (String.list_ascii_of_string s) sep).
Proof.
  induction s as [|c rest IH]; simpl; [done|].
  destruct (Ascii.eqb_spec c sep) as [->|Hne].
  - simpl. rewrite IH. by destruct (Ascii.ascii_dec sep sep).
  - destruct (Ascii.ascii_dec c sep); [done|].
    destruct (split_on sep rest) eqn:Hrest; [by destruct (split_on_not_nil sep rest)|].
    simpl in *. done.
Qed.

Lemma split_on_no_separator sep s :
  Forall (λ t, sep ∉ String.list_ascii_of_string t) (split_on sep s).
Proof.
  induction s as [|c rest IH]; simpl.
  - constructor; [|constructor]. apply not_elem_of_nil.
  - destruct (Ascii.eqb_spec c sep) as [->|Hne].
    + constructor; [apply not_elem_of_nil|done].
    + destruct (split_on sep rest) as [|word words]; simpl.
      * constructor; [|constructor]. simpl. rewrite not_elem_of_cons. split; [done|].
        apply not_elem_of_nil.
      * apply Forall_cons in IH as [Hword Hwords]. constructor; [|done].
        simpl. rewrite not_elem_of_cons. by split.
Qed.

Lemma lstrip_suffix l : ∃ spaces, l = spaces ++ lstrip l ∧ Forall (λ c, is_space c = true) spaces.
Proof.
  induction l as [|c rest (spaces & Hrest & Hspaces)]; simpl.
  - by exists [].
  - destruct (is_space c) eqn:Hc.
    + exists (c :: spaces). split; [simpl; congruence|by constructor].
    + by exists [].
Qed.

Lemma lstrip_head l c rest : lstrip l = c :: rest → is_space c = false.
Proof.
  induction l as [|x l IH]; simpl; [done|].
  destruct (is_space x) eqn:Hx; [done|]. by intros [= <- _].
Qed.

Lemma lstrip_fixed l : (∀ c rest, l = c :: rest → is_space c = false) → lstrip l = l.
Proof. destruct l as [|c rest]; simpl; [done|]. intros H. by rewrite (H c rest eq_refl). Qed.

Lemma lstrip_lstrip l : lstrip (lstrip l) = lstrip l.
Proof. apply lstrip_fixed. intros c rest. apply lstrip_head. Qed.

Lemma strip_chars_trimmed l :
  lstrip (rev (lstrip (rev (lstrip l)))) = rev (lstrip (rev (lstrip l))) ∧
  lstrip (rev (rev (lstrip (rev (lstrip l))))) = rev (rev (lstrip (rev (lstrip l)))).
Proof.
  rewrite rev_involutive, lstrip_lstrip. split; [|done].
  destruct (lstrip_suffix (rev (lstrip l))) as (spaces & Hrev & _).
  apply lstrip_fixed. intros c rest Hhead.
  apply (f_equal (@rev ascii)) in Hrev. rewrite rev_involutive, rev_app_distr, Hhead in Hrev.
  simpl in Hrev. by apply (lstrip_head l c (rest ++ rev spaces)).
Qed.

Lemma strip_strip s : strip (strip s) = strip s.
Proof.
  unfold strip. rewrite String.list_ascii_of_string_of_list_ascii. f_equal.
  destruct (strip_chars_trimmed (String.list_ascii_of_string s)) as [H1 H2].
  by rewrite H1, H2, rev_involutive.
Qed.

Lemma lstrip_elem_of c l : c ∈ lstrip l → c ∈ l.
Proof.
  destruct (lstrip_suffix l) as (spaces & Hl & _). intros Hc. rewrite Hl.
  apply elem_of_app. by right.
Qed.

Lemma strip_elem_of c s :
  c ∈ String.list_ascii_of_string (strip s) → c ∈ String.list_ascii_of_string s.
Proof.
  unfold strip. rewrite String.list_ascii_of_string_of_list_ascii.
  intros Hc. apply list_elem_of_In, in_rev, list_elem_of_In, lstrip_elem_of in Hc.
  apply list_elem_of_In, in_rev, list_elem_of_In in Hc. by apply lstrip_elem_of.
Qed.

Lemma split_on_join sep s : join_on sep (split_on sep s) = s.
Proof.
  induction s as [|c rest IH]; simpl; [done|].
  destruct (Ascii.eqb_spec c sep) as [->|Hne];
    (destruct (split_on sep rest) as [|word words] eqn:Hrest;
     [by destruct (split_on_not_nil sep rest)|]).
  - rewrite <- IH. reflexivity.
  - rewrite <- IH. by destruct words.
Qed.

Lemma last_rev_head {A} (l : list A) : last (rev l) = head l.
Proof. destruct l as [|x l]; [done|]. simpl. by rewrite last_snoc. Qed.

(** [strip] removes white space at both ends and nothing else. *)
Lemma strip_stripped_of s : stripped_of s (strip s).
Proof.
  unfold stripped_of, strip. rewrite String.list_ascii_of_string_of_list_ascii.
  set (l := String.list_ascii_of_string s).
  destruct (lstrip_suffix l) as (leading & Hl & Hleading).
  destruct (lstrip_suffix (rev (lstrip l))) as (trailing & Hr & Htrailing).
  exists leading, (rev trailing). split_and!.
  - rewrite Hl at 1. f_equal.
    rewrite <- rev_app_distr, <- Hr. by rewrite rev_involutive.
  - done.
  - apply Forall_forall. intros c Hc. rewrite Forall_forall in Htrailing.
    apply Htrailing. by apply list_elem_of_In, in_rev, list_elem_of_In in Hc.
  - intros c Hc.
    assert (head (lstrip l) = Some c) as Hhead.
    { apply (f_equal (@rev ascii)) in Hr. rewrite rev_involutive, rev_app_distr in Hr.
      rewrite Hr. destruct (rev (lstrip (rev (lstrip l)))); [discriminate Hc|exact Hc]. }
    destruct (lstrip l) as [|c' rest] eqn:Hstrip; [discriminate Hhead|].
    injection Hhead as ->. by eapply lstrip_head.
  - intros c Hc. rewrite last_rev_head in Hc.
    destruct (lstrip (rev (lstrip l))) as [|c' rest] eqn:Hstrip; [discriminate Hc|].
    injection Hc as ->. by eapply lstrip_head.
Qed.

(** X14. What a detection that returns has handed to the detector and made
    of its answer. The prompt is a string; its lines are the pieces between
    its newlines (joined by newlines they give the prompt back, none holds
    a newline, there is one more of them than newlines, empty ones are
    kept), and the texts handed to the detector are, line by line, the
    line without its leading and trailing white space. The regions are the
    detector's detections, one for one and in order, with the detection's
    label index, its score and its box rounded coordinate by coordinate. *)
Theorem detection_prompts_and_regions (P : Providers) root prompt confidence nms w regions w' :
  _detect_bboxes_with_owlv2 P root prompt confidence nms w = (Return regions, w') →
  ∃ s img lines texts results,
    prompt = VStr s ∧
    owl_detect P img texts confidence nms = Return results ∧
    join_on newline lines = s ∧
    length lines = S (count_occ Ascii.ascii_dec (String.list_ascii_of_string s) newline) ∧
    Forall (λ line, newline ∉ String.list_ascii_of_string line) lines ∧
    Forall2 stripped_of lines texts ∧
    Forall (λ t, strip t = t ∧ newline ∉ String.list_ascii_of_string t) texts ∧
    Forall2 (λ region detection,
               label region = LabelIndex (det_label detection) ∧
               score region = det_score detection ∧
               ∃ a b c d,
                 det_box detection = (a, b, c, d) ∧
                 box_of region = (round2 P a, round2 P b, round2 P c, round2 P d))
      regions results.
Proof.
  unfold _detect_bboxes_with_owlv2. intros H.
  apply bind_Return_inv in H as (node & w0 & _ & H).
  apply bind_Return_inv in H as (img & w1 & _ & H).
  apply bind_Return_inv in H as ([] & w2 & _ & H).
  apply bind_Return_inv in H as ([] & w3 & _ & H).
  apply bind_Return_inv in H as (s & w4 & Hprompt & H).
  apply bind_Return_inv in H as (results & w5 & Hcall & H).
  apply ret_inv in H as [<- _]. apply call_inv in Hcall as [Hcall _].
  assert (prompt = VStr s) as ->.
  { destruct prompt; simpl in Hprompt; try discriminate Hprompt.
    by apply ret_inv in Hprompt as [-> _]. }
  exists s, img, (split_on newline s), (map strip (split_on newline s)), results.
  split_and!; [done|done| | | | | |].
  - apply split_on_join.
  - apply split_on_length.
  - apply split_on_no_separator.
  - apply Forall2_fmap_r, Forall2_same_length_lookup. split; [done|].
    intros i line line' Hi Hi'. assert (line' = line) as -> by congruence.
    apply strip_stripped_of.
  - apply Forall_fmap. eapply Forall_impl; [apply (split_on_no_separator newline s)|].
    intros t Ht. simpl. split; [apply strip_strip|].
    intros Hc. apply Ht. by apply strip_elem_of.
  - clear Hcall. induction results as [|d rest IH]; simpl; constructor; [|done].
    unfold region_of_detection, box_of. destruct (det_box d) as [[[a b] c] e]. simpl.
    split_and!; [done..|]. by exists a, b, c, e.
Qed.

(** ** The transport encoding *)

Lemma b64_index_digit n : (n < 64)%N → b64_index (b64_digit n) = Some n.
Proof.
  intros Hn.
  assert (forallb (λ i, bool_decide (b64_index (b64_digit (N.of_nat i)) = Some (N.of_nat i)))
            (seq 0 64) = true) as Hall by (vm_compute; reflexivity).
  rewrite forallb_forall in Hall. specialize (Hall (N.to_nat n)).
  rewrite N2Nat.id in Hall. eapply bool_decide_eq_true_1, Hall, in_seq. lia.
Qed.

Lemma b64_digit_inj n m : (n < 64)%N → (m < 64)%N → b64_digit n = b64_digit m → n = m.
Proof.
  intros Hn Hm Heq. apply b64_index_digit in Hn, Hm. rewrite Heq in Hn. congruence.
Qed.

Lemma b64_digit_not_pad n : (n < 64)%N → b64_digit n ≠ "="%char.
Proof. intros Hn Heq. apply b64_index_digit in Hn. rewrite Heq in Hn. discriminate Hn. Qed.

Lemma byte_to_N_inj (a b : byte) : Byte.to_N a = Byte.to_N b → a = b.
Proof.
  intros H. pose proof (Byte.of_to_N a) as Ha. rewrite H, Byte.of_to_N in Ha. congruence.
Qed.

Lemma byte_to_N_lt (a : byte) : (Byte.to_N a < 256)%N.
Proof. pose proof (Byte.to_N_bounded a). lia. Qed.

(** The four digits of a group of three bytes determine the bytes. *)
Lemma b64_group_inj (n m k n' m' k' : N) :
  (n < 256 → m < 256 → k < 256 → n' < 256 → m' < 256 → k' < 256 →
   n / 4 = n' / 4 →
   (n mod 4) * 16 + m / 16 = (n' mod 4) * 16 + m' / 16 →
   (m mod 16) * 4 + k / 64 = (m' mod 16) * 4 + k' / 64 →
   k mod 64 = k' mod 64 →
   n = n' ∧ m = m' ∧ k = k')%N.
Proof.
  intros.
  pose proof (N.div_mod n 4). pose proof (N.div_mod n' 4).
  pose proof (N.div_mod m 16). pose proof (N.div_mod m' 16).
  pose proof (N.div_mod k 64). pose proof (N.div_mod k' 64).
  pose proof (N.mod_lt n 4). pose proof (N.mod_lt n' 4).
  pose proof (N.mod_lt m 16). pose proof (N.mod_lt m' 16).
  pose proof (N.mod_lt k 64). pose proof (N.mod_lt k' 64).
  assert (m / 16 < 16)%N by (apply N.Div0.div_lt_upper_bound; lia).
  assert (m' / 16 < 16)%N by (apply N.Div0.div_lt_upper_bound; lia).
  assert (k / 64 < 4)%N by (apply N.Div0.div_lt_upper_bound; lia).
  assert (k' / 64 < 4)%N by (apply N.Div0.div_lt_upper_bound; lia).
  lia.
Qed.

Lemma list_ind3 {A} (Q : list A → Prop) :
  Q [] → (∀ x, Q [x]) → (∀ x y, Q [x; y]) →
  (∀ x y z l, Q l → Q (x :: y :: z :: l)) →
  ∀ l, Q l.
Proof.
  intros H0 H1 H2 H3 l.
  assert (Q l ∧ (∀ x, Q (x :: l)) ∧ (∀ x y, Q (x :: y :: l))) as [H _]; [|done].
  induction l as [|z l (IH0 & IH1 & IH2)]; [by auto|].
  split_and!; [apply IH1|intros x; apply IH2|]. intros x y. by apply H3.
Qed.

(** Closes a goal about the digits of bytes: bounds and equalities over the
    quotients and remainders [b64encode] takes. *)
Ltac b64_arith :=
  repeat match goal with
         | x : byte |- _ =>
             lazymatch goal with
             | _ : (Byte.to_N x < 256)%N |- _ => fail
             | _ => pose proof (byte_to_N_lt x)
             end
         end;
  repeat match goal with
         | |- context [(?a / ?b)%N] =>
             lazymatch goal with
             | _ : a = (b * (a / b) + a mod b)%N |- _ => fail
             | _ => pose proof (N.div_mod a b ltac:(done)); pose proof (N.mod_lt a b ltac:(done))
             end
         | _ : context [(?a / ?b)%N] |- _ =>
             lazymatch goal with
             | _ : a = (b * (a / b) + a mod b)%N |- _ => fail
             | _ => pose proof (N.div_mod a b ltac:(done)); pose proof (N.mod_lt a b ltac:(done))
             end
         | |- context [(?a mod ?b)%N] =>
             lazymatch goal with
             | _ : a = (b * (a / b) + a mod b)%N |- _ => fail
             | _ => pose proof (N.div_mod a b ltac:(done)); pose proof (N.mod_lt a b ltac:(done))
             end
         | _ : context [(?a mod ?b)%N] |- _ =>
             lazymatch goal with
             | _ : a = (b * (a / b) + a mod b)%N |- _ => fail
             | _ => pose proof (N.div_mod a b ltac:(done)); pose proof (N.mod_lt a b ltac:(done))
             end
         end;
  repeat match goal with
         | |- context [(?a / ?b)%N] => generalize dependent (a / b)%N; intros
         | _ : context [(?a / ?b)%N] |- _ => generalize dependent (a / b)%N; intros
         | |- context [(?a mod ?b)%N] => generalize dependent (a mod b)%N; intros
         | _ : context [(?a mod ?b)%N] |- _ => generalize dependent (a mod b)%N; intros
         end;
  lia.

Lemma b64_test (x y : byte) : ((Byte.to_N x mod 4) * 16 + Byte.to_N y / 16 < 64)%N.
Proof. b64_arith. Qed.

Lemma String_inj c s c' s' : String c s = String c' s' → c = c' ∧ s = s'.
Proof. by intros [= -> ->]. Qed.

Ltac b64_split :=
  repeat match goal with
         | H : String _ _ = String _ _ |- _ => apply String_inj in H as [? ?]
         | H : String _ _ = EmptyString |- _ => discriminate H
         | H : EmptyString = String _ _ |- _ => discriminate H
         | H : b64_digit ?n = "="%char |- _ =>
             exfalso; apply (b64_digit_not_pad n); [b64_arith|exact H]
         | H : "="%char = b64_digit ?n |- _ =>
             exfalso; apply (b64_digit_not_pad n); [b64_arith|exact (eq_sym H)]
         | H : b64_digit _ = b64_digit _ |- _ =>
             apply b64_digit_inj in H; [|b64_arith..]
         end.

Lemma b64encode_inj a b : b64encode a = b64encode b → a = b.
Proof.
  revert b. induction a as [|x|x y|x y z a IH] using list_ind3;
    intros [|x' [|y' [|z' b]]]; simpl; intros Heq; b64_split; try done.
  - f_equal. apply byte_to_N_inj. b64_arith.
  - f_equal; [|f_equal]; apply byte_to_N_inj; b64_arith.
  - f_equal; [|f_equal; [|f_equal]]; [apply byte_to_N_inj; b64_arith..|by apply IH].
Qed.

Lemma b64encode_length bs :
  String.length (b64encode bs) = 4 * ((length bs + 2) / 3).
Proof.
  induction bs as [|x|x y|x y z bs IH] using list_ind3; try reflexivity.
  change (String.length (b64encode (x :: y :: z :: bs)))
    with (4 + String.length (b64encode bs)).
  rewrite IH. cbn [length].
  replace (S (S (S (length bs))) + 2) with (length bs + 2 + 1 * 3) by lia.
  rewrite Nat.div_add by done. lia.
Qed.

(** X15. [image_to_base64] is lossless and has no effect on the world: the
    text it returns is four characters for every three bytes [save] wrote,
    rounded up, and two calls that return the same text had [save] write
    the same bytes. *)
Theorem image_to_base64_is_lossless (P : Providers) img1 fmt1 img2 fmt2 w1 w2 s w1' w2' :
  image_to_base64 P img1 fmt1 w1 = (Return s, w1') →
  image_to_base64 P img2 fmt2 w2 = (Return s, w2') →
  pil_save P img1 fmt1 = pil_save P img2 fmt2 ∧
  (∃ buffered, pil_save P img1 fmt1 = Return buffered ∧
               String.length s = 4 * ((length buffered + 2) / 3)) ∧
  w1' = w1 ∧ w2' = w2.
Proof.
  unfold image_to_base64. intros H1 H2.
  apply bind_Return_inv in H1 as (b1 & ? & H1 & Hr1).
  apply bind_Return_inv in H2 as (b2 & ? & H2 & Hr2).
  apply call_inv in H1 as [H1 ->], H2 as [H2 ->].
  apply ret_inv in Hr1 as [<- ->], Hr2 as [Hs ->].
  apply b64encode_inj in Hs as ->.
  split_and!; [congruence| |done..].
  exists b1. split; [done|]. apply b64encode_length.
Qed.

(** ** Witnesses of the further properties *)

(** X2 on the prebuilt root with one caller region. *)
Lemma create_bboxes_skips_detection_witness :
  create_bboxes demo_providers (demo_workflow []) (demo_loaded None)
    (demo_world [region 10 10 50 50]) =
    (Return (inl {| BBoxCreatedEvent.image := 0;
                    BBoxCreatedEvent.segmentation_configuration := ConfDict 1;
                    BBoxCreatedEvent.object_detection_configuration := None |}),
     demo_world [region 10 10 50 50]).
Proof.
  apply (create_bboxes_skips_detection demo_providers (demo_workflow []) (demo_loaded None) 1
           (demo_configuration [region 10 10 50 50])).
  - reflexivity.
  - reflexivity.
  - exists (VRegions [region 10 10 50 50]). reflexivity.
Defined.

(** X3 on the prebuilt root with a caller prompt and the detector's class
    defaults. *)
Lemma create_bboxes_keeps_given_prompt_witness :
  llm_calls (create_bboxes demo_providers (demo_workflow [])
               (demo_loaded (Some _object_detection_configuration)) prompt_world).2 =
    llm_calls prompt_world ∧
  dicts (create_bboxes demo_providers (demo_workflow [])
           (demo_loaded (Some _object_detection_configuration)) prompt_world).2 =
    dicts prompt_world.
Proof.
  apply (create_bboxes_keeps_given_prompt demo_providers (demo_workflow [])
           (demo_loaded (Some _object_detection_configuration)) 1 prompt_configuration).
  - reflexivity.
  - reflexivity.
  - reflexivity.
  - exists (VStr "chair"). reflexivity.
Defined.

(** X4 on a run from a path without a segmentation configuration. *)
Lemma default_configuration_is_lost_witness :
  ∃ ev w1,
    load_image demo_providers (path_start None None) empty_world = (Return (inl ev), w1) ∧
    (∃ r, ImageLoadedEvent.segmentation_configuration ev = ConfValidated r ∧
          validated empty_world !! r = None ∧
          validated w1 !! r = Some {[ "model_name" := VStr "sam_settings" ]}) ∧
    dicts w1 = dicts empty_world ∧
    raises (run demo_providers (demo_workflow []) (path_start None None)) empty_world.
Proof.
  assert (returns (load_image demo_providers (path_start None None) empty_world).1) as Hshape
    by (vm_compute; exact I).
  destruct (load_image demo_providers (path_start None None) empty_world)
    as [[e|[ev|stop]] w1] eqn:Hload; [destruct Hshape| |].
  - exists ev, w1. split; [reflexivity|].
    exact (default_configuration_is_lost demo_providers (demo_workflow [])
             (path_start None None) empty_world ev w1 eq_refl Hload).
  - exfalso. vm_compute in Hload. discriminate Hload.
Defined.

(** X5 on the prebuilt root with a prompt in the configuration and a
    detector that would answer. *)
Lemma detection_needs_the_path_form_witness :
  ∃ e w',
    run demo_providers (demo_workflow []) (demo_start (Some (ConfDict 1))) prompt_world =
      (Raise (TypeError "StopEvent.__init__() got an unexpected keyword argument 'reason'"),
       w') ∧
    logged_errors w' =
      logged_errors prompt_world ++ [("Failed to create bounding boxes", e)].
Proof.
  refine (detection_needs_the_path_form demo_providers (demo_workflow [])
            (demo_start (Some (ConfDict 1))) prompt_world (demo_loaded None) prompt_world
            eq_refl _ eq_refl).
  left. by exists 0.
Defined.

(** X6 on a run with two caller regions and an LLM. *)
Lemma run_result_shapes_witness :
  ∃ stop w',
    run demo_providers (demo_workflow []) (demo_start (Some (ConfDict 1)))
      (demo_world [region 10 10 50 50; region 0 0 7 7]) = (Return stop, w') ∧
    ∃ source chunks ds,
      chunks ≠ [] ∧ length ds = length chunks ∧
      stop = {| StopEvent.result :=
                  Some {| Result.source := source; Result.chunks := chunks;
                          Result.descriptions := Some ds |};
                StopEvent.reason := None |}.
Proof.
  assert (has_described_chunk
            (run demo_providers (demo_workflow []) (demo_start (Some (ConfDict 1)))
               (demo_world [region 10 10 50 50; region 0 0 7 7])).1) as Hshape
    by (vm_compute; exact I).
  destruct (run demo_providers (demo_workflow []) (demo_start (Some (ConfDict 1)))
              (demo_world [region 10 10 50 50; region 0 0 7 7])) as [[e|stop] w'] eqn:Hrun;
    [destruct Hshape|].
  exists stop, w'. split; [reflexivity|].
  destruct (run_result_shapes demo_providers (demo_workflow []) _ _ _ _ Hrun)
    as [[Hstop _]|[Hstop|[[source Hstop]|(source & chunks & ds & Hne & Hlen & Hstop)]]];
    [rewrite Hstop in Hshape; destruct Hshape..|].
  exists source, chunks, ds. split; [exact Hne|]. split; [exact Hlen|]. exact Hstop.
Defined.

(** X7 on the same run. *)
Lemma results_need_caller_regions_witness :
  ∃ stop w' res,
    run demo_providers (demo_workflow []) (demo_start (Some (ConfDict 1)))
      (demo_world [region 10 10 50 50; region 0 0 7 7]) = (Return stop, w') ∧
    StopEvent.result stop = Some res ∧
    ∃ r d,
      StartEvent.segmentation_configuration (demo_start (Some (ConfDict 1))) =
        Some (ConfDict r) ∧
      dicts (demo_world [region 10 10 50 50; region 0 0 7 7]) !! r = Some d ∧
      is_Some (d !! "bbox_list") ∧
      dicts w' = dicts (demo_world [region 10 10 50 50; region 0 0 7 7]).
Proof.
  assert (has_result
            (run demo_providers (demo_workflow []) (demo_start (Some (ConfDict 1)))
               (demo_world [region 10 10 50 50; region 0 0 7 7])).1) as Hshape
    by (vm_compute; exact I).
  destruct (run demo_providers (demo_workflow []) (demo_start (Some (ConfDict 1)))
              (demo_world [region 10 10 50 50; region 0 0 7 7]))
    as [[e|[[res|] reason]] w'] eqn:Hrun; try destruct Hshape.
  eexists _, w', res. split; [reflexivity|]. split; [reflexivity|].
  exact (results_need_caller_regions demo_providers (demo_workflow []) _ _ _ _ _
           Hrun eq_refl).
Defined.

(** X8 on a stage 3 that raises at the crop of its first region. *)
Lemma stage3_failure_registers_nothing_witness :
  ∃ e w',
    _parse_image_node_with_sam2 demo_providers 0 (ConfDict 1)
      (demo_world [region 50 10 10 50; region 10 10 50 50]) = (Raise e, w') ∧
    dicts w' = dicts (demo_world [region 50 10 10 50; region 10 10 50 50]) ∧
    llm_calls w' = llm_calls (demo_world [region 50 10 10 50; region 10 10 50 50]) ∧
    nodes w' = nodes (demo_world [region 50 10 10 50; region 10 10 50 50]).
Proof.
  assert (¬ returns
            (_parse_image_node_with_sam2 demo_providers 0 (ConfDict 1)
               (demo_world [region 50 10 10 50; region 10 10 50 50])).1) as Hshape
    by (vm_compute; exact id).
  destruct (_parse_image_node_with_sam2 demo_providers 0 (ConfDict 1)
              (demo_world [region 50 10 10 50; region 10 10 50 50]))
    as [[e|chunks] w'] eqn:Hparse; [|destruct (Hshape I)].
  destruct (stage3_failure_registers_nothing demo_providers _ _ _ _ _ Hparse)
    as (Hdicts & Hllm & Hnodes).
  exists e, w'. split; [reflexivity|]. split; [exact Hdicts|]. split; [exact Hllm|].
  exact (Hnodes e eq_refl).
Defined.

(** X9 on a stage 3 whose second region is empty. *)
Lemma stage3_sends_one_event_per_region_witness :
  ∃ chunks w' events,
    _parse_image_node_with_sam2 demo_providers 0 (ConfDict 1)
      (demo_world [region 10 10 50 50; region 5 5 5 9; region 1 1 9 9]) =
      (Return chunks, w') ∧
    sent_events w' = events ∧
    chunks = generated_chunks events ∧
    Forall2 (λ bbox ev, ∀ c, ev = ImageChunkGenerated c →
                             metadata c = {[ "region" := MetaRegion (box_of bbox) ]})
      [region 10 10 50 50; region 5 5 5 9; region 1 1 9 9] events.
Proof.
  assert (returns
            (_parse_image_node_with_sam2 demo_providers 0 (ConfDict 1)
               (demo_world [region 10 10 50 50; region 5 5 5 9; region 1 1 9 9])).1)
    as Hshape by (vm_compute; exact I).
  destruct (_parse_image_node_with_sam2 demo_providers 0 (ConfDict 1)
              (demo_world [region 10 10 50 50; region 5 5 5 9; region 1 1 9 9]))
    as [[e|chunks] w'] eqn:Hparse; [destruct Hshape|].
  destruct (stage3_sends_one_event_per_region demo_providers _ _ _ _ _ Hparse)
    as (bboxes & events & Hget & Hsent & Hchunks & _ & Hall).
  injection Hget as <-.
  exists chunks, w', events. split; [reflexivity|]. split; [exact Hsent|].
  split; [exact Hchunks|]. exact Hall.
Defined.

(** X10 on the first chunk of a run with two caller regions. *)
Lemma descriptions_share_the_source_of_their_chunk_witness :
  ∃ stop w' res ds c t,
    run demo_providers (demo_workflow []) (demo_start (Some (ConfDict 1)))
      (demo_world [region 10 10 50 50; region 0 0 7 7]) = (Return stop, w') ∧
    StopEvent.result stop = Some res ∧
    Result.descriptions res = Some ds ∧
    Result.chunks res !! 0 = Some c ∧
    ds !! 0 = Some (Some t) ∧
    text_relationships t !! PARENT = Some (One (as_related_node_info c)) ∧
    text_relationships t !! SOURCE = relationships c !! SOURCE.
Proof.
  assert (has_described_chunk
            (run demo_providers (demo_workflow []) (demo_start (Some (ConfDict 1)))
               (demo_world [region 10 10 50 50; region 0 0 7 7])).1) as Hshape
    by (vm_compute; exact I).
  destruct (run demo_providers (demo_workflow []) (demo_start (Some (ConfDict 1)))
              (demo_world [region 10 10 50 50; region 0 0 7 7]))
    as [[e|[[[source [|c chunks] [[|[t|] ds]|]]|] reason]] w'] eqn:Hrun;
    try destruct Hshape.
  eexists _, w', _, _, c, t. do 5 (split; [reflexivity|]).
  exact (descriptions_share_the_source_of_their_chunk demo_providers (demo_workflow [])
           _ _ _ _ _ _ 0 c t Hrun eq_refl eq_refl eq_refl eq_refl).
Defined.

(** X11 on a detection with a two-line prompt. *)
Lemma owl_handles_are_loaded_once_witness :
  ∃ regions w',
    _detect_bboxes_with_owlv2 demo_providers 0 (VStr ("chair" +:+ String newline " table "))
      (VNum (1 # 10)%Q) (VNum (3 # 10)%Q) (demo_world []) = (Return regions, w') ∧
    owl_processor_loaded w' = true ∧
    owl_model_loaded w' = true ∧
    ∀ P', get_or_create_owl_v2_processor P' w' = (Return tt, w') ∧
          get_or_create_owl_v2 P' w' = (Return tt, w').
Proof.
  assert (returns
            (_detect_bboxes_with_owlv2 demo_providers 0
               (VStr ("chair" +:+ String newline " table "))
               (VNum (1 # 10)%Q) (VNum (3 # 10)%Q) (demo_world [])).1) as Hshape
    by (vm_compute; exact I).
  destruct (_detect_bboxes_with_owlv2 demo_providers 0
              (VStr ("chair" +:+ String newline " table "))
              (VNum (1 # 10)%Q) (VNum (3 # 10)%Q) (demo_world []))
    as [[e|regions] w'] eqn:Hdetect; [destruct Hshape|].
  exists regions, w'. split; [reflexivity|].
  exact (owl_handles_are_loaded_once demo_providers _ _ _ _ _ _ _ Hdetect).
Defined.

(** X12 on a run that elicits the prompt. *)
Lemma run_writes_only_the_prompt_witness :
  ∃ out w',
    run demo_providers (demo_workflow []) (path_start (Some (ConfDict 1)) None)
      (world_with_configuration {[ "model_name" := VStr "facebook/sam2-hiera-small" ]}) =
      (out, w') ∧
    (dicts w' =
       dicts (world_with_configuration {[ "model_name" := VStr "facebook/sam2-hiera-small" ]}) ∨
     ∃ r d prompt,
       StartEvent.segmentation_configuration (path_start (Some (ConfDict 1)) None) =
         Some (ConfDict r) ∧
       dicts (world_with_configuration {[ "model_name" := VStr "facebook/sam2-hiera-small" ]})
         !! r = Some d ∧
       d !! "bbox_list" = None ∧
       d !! "prompt" = None ∧
       dicts w' =
         <[r := <["prompt" := VStr prompt]> d]>
           (dicts (world_with_configuration
                     {[ "model_name" := VStr "facebook/sam2-hiera-small" ]}))).
Proof.
  destruct (run demo_providers (demo_workflow []) (path_start (Some (ConfDict 1)) None)
              (world_with_configuration {[ "model_name" := VStr "facebook/sam2-hiera-small" ]}))
    as [out w'] eqn:Hrun.
  exists out, w'. split; [reflexivity|].
  exact (run_writes_only_the_prompt demo_providers (demo_workflow []) _ _ _ _ Hrun).
Defined.

(** X13 on the first chunk of a run from a path with one caller region. *)
Lemma path_runs_give_chunks_that_declare_jpeg_witness :
  ∃ stop w' res c,
    run demo_providers (demo_workflow []) (path_start (Some (ConfDict 1)) None)
      (demo_world [region 10 10 50 50]) = (Return stop, w') ∧
    StopEvent.result stop = Some res ∧
    c ∈ Result.chunks res ∧
    mimetype c = Some "image/jpg" ∧ declares_jpeg (mimetype c).
Proof.
  assert (has_described_chunk
            (run demo_providers (demo_workflow []) (path_start (Some (ConfDict 1)) None)
               (demo_world [region 10 10 50 50])).1) as Hshape
    by (vm_compute; exact I).
  destruct (run demo_providers (demo_workflow []) (path_start (Some (ConfDict 1)) None)
              (demo_world [region 10 10 50 50]))
    as [[e|[[[source [|c chunks] ds]|] reason]] w'] eqn:Hrun;
    try destruct Hshape.
  eexists _, w', _, c. split; [reflexivity|]. split; [reflexivity|].
  split; [by left|].
  refine (path_runs_give_chunks_that_declare_jpeg demo_providers (demo_workflow [])
            (path_start (Some (ConfDict 1)) None) _ _ _ _ c _ eq_refl Hrun eq_refl _);
    [intros r; discriminate|by left].
Defined.

(** X14 on a detection with a two-line prompt. *)
Lemma detection_prompts_and_regions_witness :
  ∃ regions w',
    _detect_bboxes_with_owlv2 demo_providers 0 (VStr ("chair" +:+ String newline " table "))
      (VNum (1 # 10)%Q) (VNum (3 # 10)%Q) (demo_world []) = (Return regions, w') ∧
    ∃ img lines texts results,
      owl_detect demo_providers img texts (VNum (1 # 10)%Q) (VNum (3 # 10)%Q) =
        Return results ∧
      join_on newline lines = "chair" +:+ String newline " table " ∧
      Forall2 stripped_of lines texts ∧
      Forall2 (λ region detection,
                 label region = LabelIndex (det_label detection) ∧
                 score region = det_score detection) regions results.
Proof.
  assert (returns
            (_detect_bboxes_with_owlv2 demo_providers 0
               (VStr ("chair" +:+ String newline " table "))
               (VNum (1 # 10)%Q) (VNum (3 # 10)%Q) (demo_world [])).1) as Hshape
    by (vm_compute; exact I).
  destruct (_detect_bboxes_with_owlv2 demo_providers 0
              (VStr ("chair" +:+ String newline " table "))
              (VNum (1 # 10)%Q) (VNum (3 # 10)%Q) (demo_world []))
    as [[e|regions] w'] eqn:Hdetect; [destruct Hshape|].
  exists regions, w'. split; [reflexivity|].
  destruct (detection_prompts_and_regions demo_providers _ _ _ _ _ _ _ Hdetect)
    as (s & img & lines & texts & results & Hs & Hcall & Hjoin & _ & _ & Hstrip & _ & Hregions).
  injection Hs as <-.
  exists img, lines, texts, results. split; [exact Hcall|]. split; [exact Hjoin|].
  split; [exact Hstrip|].
  eapply Forall2_impl; [exact Hregions|]. by intros region detection (? & ? & _).
Defined.

(** X15 on two calls for the same image in different worlds. *)
Lemma image_to_base64_is_lossless_witness :
  image_to_base64 demo_providers ("pixels", false) "JPEG" empty_world =
    (Return "SlBFRzpwaXhlbHM=", empty_world) ∧
  image_to_base64 demo_providers ("pixels", false) "JPEG" (demo_world []) =
    (Return "SlBFRzpwaXhlbHM=", demo_world []) ∧
  String.length "SlBFRzpwaXhlbHM=" = 4 * ((11 + 2) / 3).
Proof.
  assert (image_to_base64 demo_providers ("pixels", false) "JPEG" empty_world =
            (Return "SlBFRzpwaXhlbHM=", empty_world)) as H1 by reflexivity.
  assert (image_to_base64 demo_providers ("pixels", false) "JPEG" (demo_world []) =
            (Return "SlBFRzpwaXhlbHM=", demo_world [])) as H2 by reflexivity.
  destruct (image_to_base64_is_lossless demo_providers _ _ _ _ _ _ _ _ _ H1 H2)
    as (_ & (buffered & Hsave & Hlen) & _ & _).
  split; [exact H1|]. split; [exact H2|].
  vm_compute in Hsave. injection Hsave as <-. exact Hlen.
Defined.
